(** * LinkedIn company scraper: duplicate matcher, record store, rate limiter
      and scraping coordinator

    A shallow embedding of the extension's core
    ([background/service-worker.js], [sidepanel/sidepanel.js],
    [utils/rate-limiter.js]) together with the properties its
    specification states about it.  A second group of definitions (from
    [Csv] on) embeds the import and export of the collection, the panel's
    handlers, the restart of the service worker and the utilities
    ([utils/storage.js], the export manager, the waits on a tab, the URL
    that the extractor keeps), with further properties of this code.

    Conventions.
    - A JavaScript string is a [string]; its characters are read as the
      code points U+0000..U+00FF (Latin-1), on which [toLowerCase],
      [trim] and the regular-expression class [\s] are modelled exactly.
    - A JavaScript value that may be stored in a record field is a
      [JS.value]; a call that may raise is a [JS.completion].
    - Numbers that count pages, items and milliseconds are integers ([Z]):
      the code's doubles are these integers below 2^53.
    - A raised error is the text of its [message]. *)

From Stdlib Require Import String Ascii List ZArith Bool Lia Arith.
Import ListNotations.
Local Open Scope string_scope.

(* ================================================================= *)
(** ** JavaScript values and completions *)

Module JS.

Inductive value : Type :=
| VUndefined
| VNull
| VBool (b : bool)
| VNumber (n : Z)
| VString (s : string).

(** [ToBoolean]: what [!v] and [if (v)] look at. *)
Definition truthy (v : value) : bool :=
  match v with
  | VUndefined | VNull => false
  | VBool b => b
  | VNumber n => negb (n =? 0)%Z
  | VString s => negb (s =? "")
  end.

Definition isString (v : value) : bool :=
  match v with VString _ => true | _ => false end.

(** Strict equality with a string literal, [v === 'lit']. *)
Definition strictEqStr (v : value) (lit : string) : bool :=
  match v with VString s => s =? lit | _ => false end.

(** The outcome of a call: a returned value or a raised exception. *)
Inductive completion (A : Type) : Type :=
| Return (a : A)
| Throw (msg : string).
Arguments Return {A} a.
Arguments Throw {A} msg.

Definition bind {A B} (m : completion A) (k : A -> completion B)
  : completion B :=
  match m with
  | Return a => k a
  | Throw e => Throw e
  end.

(** [Array.prototype.find] with a callback that may raise: elements are
    visited in order, the first one the callback accepts is returned. *)
Fixpoint find {A} (f : A -> completion bool) (l : list A)
  : completion (option A) :=
  match l with
  | [] => Return None
  | x :: r =>
      match f x with
      | Return true => Return (Some x)
      | Return false => find f r
      | Throw e => Throw e
      end
  end.

End JS.

Notation "x <- m ;; k" := (JS.bind m (fun x => k))
  (at level 61, m at next level, right associativity).

(* ================================================================= *)
(** ** String primitives used by the matcher *)

Module Str.

(** [WhiteSpace] and [LineTerminator] code points below U+0100: what
    [String.prototype.trim] removes and what [\s] matches. *)
Definition isWhiteSpace (c : ascii) : bool :=
  let n := nat_of_ascii c in
  (((9 <=? n) && (n <=? 13)) || (n =? 32) || (n =? 160))%nat.

(** [toLowerCase] on one Latin-1 code point. *)
Definition toLowerChar (c : ascii) : ascii :=
  let n := nat_of_ascii c in
  if (((65 <=? n) && (n <=? 90))
      || ((192 <=? n) && (n <=? 222) && negb (n =? 215)))%nat
  then ascii_of_nat (n + 32) else c.

Fixpoint toLowerCase (s : string) : string :=
  match s with
  | "" => ""
  | String c r => String (toLowerChar c) (toLowerCase r)
  end.

(** [s.split(sep)[0]]: the part of [s] before the first [sep]. *)
Fixpoint splitHead (sep : ascii) (s : string) : string :=
  match s with
  | "" => ""
  | String c r => if Ascii.eqb c sep then "" else String c (splitHead sep r)
  end.

Fixpoint trimStart (s : string) : string :=
  match s with
  | "" => ""
  | String c r => if isWhiteSpace c then trimStart r else s
  end.

Fixpoint trimEnd (s : string) : string :=
  match s with
  | "" => ""
  | String c r =>
      match trimEnd r with
      | "" => if isWhiteSpace c then "" else String c ""
      | t => String c t
      end
  end.

Definition trim (s : string) : string := trimEnd (trimStart s).

(** [stripPrefix p s = Some r] when [s = p ++ r]. *)
Fixpoint stripPrefix (p s : string) : option string :=
  match p, s with
  | "", _ => Some s
  | String a p', String b s' =>
      if Ascii.eqb a b then stripPrefix p' s' else None
  | String _ _, "" => None
  end.

Definition startsWith (p s : string) : bool :=
  match stripPrefix p s with Some _ => true | None => false end.

(** [s.includes(needle)]. *)
Fixpoint includes (needle s : string) : bool :=
  if startsWith needle s then true
  else match s with
       | "" => false
       | String _ r => includes needle r
       end.

Definition isSlash (c : ascii) : bool := Ascii.eqb c "/".

Fixpoint allSlashes (s : string) : bool :=
  match s with
  | "" => true
  | String c r => isSlash c && allSlashes r
  end.

(** The longest prefix without a slash: what [[^\/]+] consumes. *)
Fixpoint untilSlash (s : string) : string :=
  match s with
  | "" => ""
  | String c r => if isSlash c then "" else String c (untilSlash r)
  end.

(** [s.replace(/^https?:\/\//, '')]. *)
Definition replaceProtocol (s : string) : string :=
  match stripPrefix "http" s with
  | Some r =>
      match stripPrefix "s://" r with
      | Some t => t
      | None => match stripPrefix "://" r with
                | Some t => t
                | None => s
                end
      end
  | None => s
  end.

(** [s.replace(/^www\./, '')]. *)
Definition replaceWww (s : string) : string :=
  match stripPrefix "www." s with
  | Some r => r
  | None => s
  end.

(** [s.replace(/\/+$/, '')]: the leftmost position from which only
    slashes (at least one) remain is where the match starts. *)
Fixpoint replaceTrailingSlashes (s : string) : string :=
  match s with
  | "" => ""
  | String c r =>
      if allSlashes s then "" else String c (replaceTrailingSlashes r)
  end.

(** [s.replace(/\/$/, '')]: one trailing slash. *)
Fixpoint replaceLastSlash (s : string) : string :=
  match s with
  | "" => ""
  | String c r =>
      match r with
      | "" => if isSlash c then "" else s
      | _ => String c (replaceLastSlash r)
      end
  end.

(** [/linkedin\.com\/company\/([^\/]+)/] tried at the head of [s]: the
    capture group, when the match succeeds there. *)
Definition matchCompanyHere (s : string) : option string :=
match stripPrefix "linkedin.com/company/" s with
| Some r => match untilSlash r with
            | "" => None
            | g => Some g
            end
| None => None
end.

(** [s.match(/linkedin\.com\/company\/([^\/]+)/)], capture group 1 of
    the leftmost match. *)
Fixpoint matchCompany (s : string) : option string :=
match matchCompanyHere s with
| Some g => Some g
| None => match s with
          | "" => None
          | String _ r => matchCompany r
          end
end.

(** Case folding of the [i] flag against an ASCII pattern letter. *)
Definition foldAscii (c : ascii) : ascii :=
  let n := nat_of_ascii c in
  if ((65 <=? n) && (n <=? 90))%nat then ascii_of_nat (n + 32) else c.

Fixpoint eqbIgnoreCase (s pat : string) : bool :=
  match s, pat with
  | "", "" => true
  | String a s', String b p' =>
      Ascii.eqb (foldAscii a) b && eqbIgnoreCase s' p'
  | _, _ => false
  end.

Definition legalSuffixes : list string :=
  ["inc"; "llc"; "ltd"; "corp"; "corporation"; "company"; "co"].

(** [(inc|llc|ltd|corp|corporation|company|co)\.?$] matched against a
    whole remainder. *)
Definition isLegalSuffix (s : string) : bool :=
  existsb (fun w => eqbIgnoreCase s w || eqbIgnoreCase s (w ++ "."))
          legalSuffixes.

(** [\s+(inc|...|co)\.?$] matched from the head of [s]. *)
Fixpoint suffixMatchHere (s : string) : bool :=
  match s with
  | "" => false
  | String c r => isWhiteSpace c && (isLegalSuffix r || suffixMatchHere r)
  end.

(** [s.replace(/\s+(inc|llc|ltd|corp|corporation|company|co)\.?$/i, '')]. *)
Fixpoint replaceLegalSuffix (s : string) : string :=
  match s with
  | "" => ""
  | String c r =>
      if suffixMatchHere s then "" else String c (replaceLegalSuffix r)
  end.

End Str.

(* ================================================================= *)
(** ** Records and the duplicate matcher ([service-worker.js]) *)

Import JS.

(** A collected record.  Fields hold whatever JSON put there. *)
Record Company : Type := mkCompany {
  name : value;
  website : value;
  industry : value;
  phone : value;
  headquarters : value;
  url : value;
  timestamp : value
}.

Module Matcher.

(** The end of [normalizeUrl]: the canonical form of a company page of
    the target domain, and otherwise the string without its trailing
    slashes, [null] when nothing is left. *)
Definition canonicalize (normalized : string) : option string :=
let canonical :=
  if Str.includes "linkedin.com/company/" normalized then
    match Str.matchCompany normalized with
    | Some slug => Some ("linkedin.com/company/" ++ slug)
    | None => None
    end
  else None in
match canonical with
| Some c => Some c
| None =>
    match Str.replaceTrailingSlashes normalized with
    | "" => None
    | n => Some n
    end
end.

(** [normalizeUrl(url)].  Nothing in the body of the [try] raises on a
    string, so the [catch] branch is never taken. *)
Definition normalizeUrl (u : value) : option string :=
if negb (truthy u) || strictEqStr u "N/A" || negb (isString u) then None
else
  match u with
  | VString s =>
      let normalized := Str.trim (Str.splitHead "#" (Str.splitHead "?" s)) in
      let normalized := Str.toLowerCase normalized in
      let normalized := Str.replaceProtocol normalized in
      let normalized := Str.replaceWww normalized in
      canonicalize normalized
  | _ => None
  end.

(** [extractCompanySlug(url)]. *)
Definition extractCompanySlug (u : value) : option string :=
  if negb (truthy u) || negb (isString u) then None
  else
    match normalizeUrl u with
    | None => None
    | Some normalized => Str.matchCompany normalized
    end.

(** [normalizeName(name)]: there is no [typeof] guard, so a truthy value
    that is not a string has no [toLowerCase] and the call raises. *)
Definition normalizeName (n : value) : completion (option string) :=
  if negb (truthy n) || strictEqStr n "N/A" then Return None
  else
    match n with
    | VString s => Return (Some (Str.trim (Str.toLowerCase s)))
    | _ => Throw "name.toLowerCase is not a function"
    end.

(** The fuzzy cleaning applied to both names in strategy 3. *)
Definition cleanName (n : string) : string :=
  Str.trim (Str.replaceLegalSuffix n).

(** The three strategies are written once, over the slug extractor in
    scope: the service worker calls its method [extractCompanySlug], the
    side panel a local closure of the same name. *)
Section Strategies.
Variable extractCompanySlug : value -> option string.

(** Callback of the first [find] (strategy 1). *)
Definition matchesByUrl (companyUrl : string) (companySlug : option string)
           (c : Company) : completion bool :=
  match normalizeUrl (url c) with
  | None => Return false
  | Some existingUrl =>
      if existingUrl =? companyUrl then Return true
      else
        match companySlug with
        | Some slug =>
            if negb (slug =? "")
               && Str.includes "linkedin.com/company/" existingUrl then
              match extractCompanySlug (url c) with
              | Some existingSlug =>
                  Return (negb (existingSlug =? "") && (existingSlug =? slug))
              | None => Return false
              end
            else Return false
        | None => Return false
        end
  end.

(** Callback of the second [find] (strategy 2). *)
Definition matchesBySlug (companySlug : string) (c : Company)
  : completion bool :=
  match extractCompanySlug (url c) with
  | Some existingSlug =>
      Return (negb (existingSlug =? "") && (existingSlug =? companySlug))
  | None => Return false
  end.

(** Callback of the third [find] (strategy 3: exact, then fuzzy name). *)
Definition matchesByName (companyName : string) (c : Company)
  : completion bool :=
  existing <- normalizeName (name c) ;;
  match existing with
  | None => Return false
  | Some existingName =>
      if (existingName =? "") || (existingName =? "n/a") then Return false
      else if existingName =? companyName then Return true
      else
        let cleanExisting := cleanName existingName in
        let cleanNew := cleanName companyName in
        Return ((cleanExisting =? cleanNew)
                && (3 <? String.length cleanExisting)%nat)
  end.

Definition found {A} (o : option A) : bool :=
  match o with Some _ => true | None => false end.

(** The body shared by [isDuplicateCompany(company, companies)] and the
    side panel's [isDuplicate(company)]; [None] is a [null] or
    [undefined] candidate. *)
Definition isDuplicateBody (company : option Company)
           (companies : list Company) : completion bool :=
  match company with
  | None => Return false
  | Some company =>
      let companyUrl := normalizeUrl (url company) in
      companyName <- normalizeName (name company) ;;
      let companySlug := extractCompanySlug (url company) in
      duplicateByUrl <-
        match companyUrl with
        | Some cu =>
            if cu =? "" then Return None
            else JS.find (matchesByUrl cu companySlug) companies
        | None => Return None
        end ;;
      if found duplicateByUrl then Return true
      else
        duplicateBySlug <-
          match companySlug with
          | Some slug =>
              if slug =? "" then Return None
              else JS.find (matchesBySlug slug) companies
          | None => Return None
          end ;;
        if found duplicateBySlug then Return true
        else
          duplicateByName <-
            match companyName with
            | Some cn =>
                if cn =? "" then Return None
                else JS.find (matchesByName cn) companies
            | None => Return None
            end ;;
          if found duplicateByName then Return true
          else Return false
  end.

End Strategies.

(** [isDuplicateCompany(company, companies)] of the service worker. *)
Definition isDuplicateCompany : option Company -> list Company
                                -> completion bool :=
  isDuplicateBody extractCompanySlug.

End Matcher.

(* ================================================================= *)
(** ** Coordinator state and the persisted store *)

(** One entry of [state.errors]; the constructor is the template the
    message was built from. *)
Inductive errorEntry : Type :=
| CompanyError (companyUrl msg : string)   (* `Company ${url}: ${message}` *)
| PageError (page : Z) (msg : string)      (* `Page ${currentPage}: ${message}` *)
| PaginationError (page : Z) (msg : string).
                                 (* `Pagination to page ${currentPage + 1}: ...` *)

(** [ScraperCoordinator.state]. *)
Record State : Type := mkState {
  isRunning : bool;
  isPaused : bool;
  currentPage : Z;
  startPage : Z;
  maxPages : Z;
  processedCompanies : Z;
  totalCompaniesFound : Z;
  companyQueue : list string;
  currentCompanyIndex : nat;
  errors : list errorEntry
}.

(** [chrome.storage.local]: the two keys the extension uses. *)
Record Storage : Type := mkStorage {
  linkedin_scraper_data : option (list Company);
  scraper_state : option State
}.

Module Store.

(** [getCompanies()]: [result.linkedin_scraper_data || []]. *)
Definition getCompanies (s : Storage) : list Company :=
  match linkedin_scraper_data s with
  | Some l => l
  | None => []
  end.

Definition setCompanies (l : list Company) (s : Storage) : Storage :=
  mkStorage (Some l) (scraper_state s).

(** [saveCompanyData(company)]: the returned flag and the storage after
    the call. *)
Definition saveCompanyData (company : Company) (s : Storage)
  : completion (bool * Storage) :=
  let companies := getCompanies s in
  dup <- Matcher.isDuplicateCompany (Some company) companies ;;
  if dup then Return (false, s)
  else Return (true, setCompanies (companies ++ [company])%list s).

(** [handleUpdateCompanies]: [request.companies || []] replaces the
    collection. *)
Definition updateCompanies (l : list Company) (s : Storage) : Storage :=
  setCompanies l s.

(** [handleClearData]: both keys are removed. *)
Definition clearData (_ : Storage) : Storage := mkStorage None None.

End Store.

(* ================================================================= *)
(** ** Side panel ([sidepanel.js]) *)

Module SidePanel.

(** The closure [extractCompanySlug] inside [isDuplicate]. *)
Definition extractCompanySlug (u : value) : option string :=
  match Matcher.normalizeUrl u with
  | None => None
  | Some normalized => Str.matchCompany normalized
  end.

(** [isDuplicate(company)] against [this.companies]. *)
Definition isDuplicate (companies : list Company) (company : option Company)
  : completion bool :=
  Matcher.isDuplicateBody extractCompanySlug company companies.

(** The loop of [importCompanies]: [this.companies] after the loop and
    the counters, or the exception that interrupted it (the pushes made
    before it stay in [this.companies]). *)
Fixpoint importLoop (companies toImport : list Company) (added skipped : nat)
  : list Company * completion (nat * nat) :=
  match toImport with
  | [] => (companies, Return (added, skipped))
  | company :: rest =>
      match isDuplicate companies (Some company) with
      | Return false =>
          importLoop (companies ++ [company])%list rest (S added) skipped
      | Return true => importLoop companies rest added (S skipped)
      | Throw e => (companies, Throw e)
      end
  end.

(** [importCompanies(companiesToImport)]: the panel's array, the storage
    (replaced through [updateCompanies] when the loop completes) and the
    result. *)
Definition importCompanies (companies : list Company) (s : Storage)
           (toImport : list Company)
  : list Company * Storage * completion (nat * nat) :=
  match importLoop companies toImport 0 0 with
  | (companies', Return r) =>
      (companies', Store.updateCompanies companies' s, Return r)
  | (companies', Throw e) => (companies', s, Throw e)
  end.

End SidePanel.

(* ================================================================= *)
(** ** Rate limiting *)

Module RateLimiter.

(** [class RateLimiter] of [utils/rate-limiter.js]. *)
Record t : Type := mk {
  minDelay : Z;
  maxDelay : Z;
  lastRequestTime : Z;
  isThrottled : bool
}.

(** [new RateLimiter()]. *)
Definition create : t := mk 5000 10000 0 false.

(** The duration computed by [wait()] from the sampled [delay] (the
    result of [getRandomDelay()]) and the clock reading [now]. *)
Definition actualDelay (r : t) (delay now : Z) : Z :=
  let timeSinceLastRequest := (now - lastRequestTime r)%Z in
  if (timeSinceLastRequest <? delay)%Z
  then (delay - timeSinceLastRequest)%Z
  else 0%Z.

(** [wait()]: the limiter afterwards and the returned [actualDelay].
    [setTimeout] is entered only when [actualDelay > 0]; [after] is the
    clock reading stored at the end. *)
Definition wait (r : t) (delay now after : Z) : t * Z :=
  (mk (minDelay r) (maxDelay r) after (isThrottled r),
   actualDelay r delay now).

End RateLimiter.


(* ================================================================= *)
(** ** The scraping coordinator ([class ScraperCoordinator]) *)

Module Coordinator.

(** The inline limiter [this.rateLimiter] and [waitWithRateLimit()]. *)
Record Limiter : Type := mkLimiter {
  minDelay : Z;
  maxDelay : Z;
  lastRequestTime : Z
}.

Definition initialLimiter : Limiter := mkLimiter 5000 10000 0.

Definition actualDelay (r : Limiter) (delay now : Z) : Z :=
  let timeSinceLastRequest := (now - lastRequestTime r)%Z in
  if (timeSinceLastRequest <? delay)%Z
  then (delay - timeSinceLastRequest)%Z
  else Z.min delay 2000.

Definition waitWithRateLimit (r : Limiter) (delay now after : Z)
  : Limiter * Z :=
  (mkLimiter (minDelay r) (maxDelay r) after, actualDelay r delay now).

(** *** Notifications and other observable effects *)

(** The text of a [statusUpdate], by the template it was built from. *)
Inductive status : Type :=
| ProcessingPage (page : Z)
| NoCompaniesOnPage (page : Z)
| PageSummary (page : Z) (fresh skipped : nat)
| AllCollected (page : Z)
| SkippedDuplicate (companyUrl : string)
| ScrapingCompany (n : Z)
| ErrorStatus (msg : string)
| NavigationError (msg : string).

Record Stats : Type := mkStats {
  totalProcessed : Z;
  totalFound : Z;
  pagesScraped : Z;
  errorCount : nat
}.

(** Messages sent by [notifyUI]. *)
Inductive message : Type :=
| ScrapingStarted
| StatusUpdate (s : status)
| CompaniesFound (count : nat) (page : Z)
| CompanyScraped (company : Company) (processed : Z)
| ScrapingComplete (stats : Stats)
| ScrapingStopped (stats : Stats)
| ScrapingPaused
| ScrapingResumed.

Inductive effect : Type :=
| Notify (m : message)
| TabsCreate (tabUrl : string)      (* chrome.tabs.create({url, active: false}) *)
| TabsRemove (tabId : nat).         (* chrome.tabs.remove(tabId) *)

(** *** Answers of the environment *)

(** An entry of the [companies] array sent by the content script; its
    [url] always contains ["linkedin.com/company/"], so the fallback of
    [company.url || company] is never taken. *)
Record Link : Type := mkLink { linkUrl : string; linkName : string }.

(** The response to [extractCompanyURLs] ([sendMessageToTab] never
    resolves to a falsy value). *)
Inductive urlsResponse : Type :=
| UrlsFailed (error : string)       (* success: false *)
| UrlsMalformed                     (* urls missing or not an array *)
| UrlsOk (companies : list Link).

Inductive createResult : Type :=
| Created (tabId : nat)
| CreateFailed (msg : string).

(** What happens to the detail tab: [waitForTabLoad] rejects, the
    extraction response is unusable, or data is extracted and the final
    [chrome.tabs.remove(tab.id)] resolves ([None]) or rejects. *)
Inductive detailResult : Type :=
| LoadFailed (msg : string)
| ExtractionFailed
| Extracted (data : Company) (removeError : option string).

(** First half of [goToNextPage]: a call raises (search tab invalid
    included), the click is refused, or the click succeeds. *)
Inductive clickResult : Type :=
| AdvanceThrows (msg : string)
| ClickFailed
| Clicked.

(** Second half of [goToNextPage], after the click. *)
Inductive navResult : Type :=
| OnResults
| NavigationThrows (msg : string).

Inductive input : Type :=
| InUrls (r : urlsResponse)
| InTick
| InCreate (r : createResult)
| InDetail (r : detailResult)
| InClick (r : clickResult)
| InNav (r : navResult).

(** *** Suspended activations *)

(** Who called [processCompanyQueue]: [processCurrentPage] (the drive
    loop of the run) or [resumeScraping]. *)
Inductive owner : Type := Drive | Resumed.

(** Where an activation is suspended.  The loop variable [i] of
    [processCompanyQueue] is local to the activation. *)
Inductive pc : Type :=
| AwaitUrls
| AwaitSaved (fresh : nat)
| LoopTop (o : owner) (i : nat)
| AwaitTab (o : owner) (i : nat) (companyUrl : string)
| AwaitDetail (o : owner) (i : nat) (companyUrl : string) (tabId : nat)
| AwaitClick
| AwaitNavigation
| Finished.

Record Config : Type := mkConfig {
  st : State;
  storage : Storage;
  activeTabId : option nat;
  searchTabId : option nat;
  tasks : list pc;
  trace : list effect
}.

(** [new ScraperCoordinator()] over a given storage. *)
Definition initialState : State :=
  mkState false false 1 1 5 0 0 [] 0 [].

Definition initial (s : Storage) : Config :=
  mkConfig initialState s None None [] [].

(** *** Field updates *)

Definition withSt (f : State -> State) (c : Config) : Config :=
  mkConfig (f (st c)) (storage c) (activeTabId c) (searchTabId c)
           (tasks c) (trace c).

Definition withStorage (s : Storage) (c : Config) : Config :=
  mkConfig (st c) s (activeTabId c) (searchTabId c) (tasks c) (trace c).

Definition withActiveTab (t : option nat) (c : Config) : Config :=
  mkConfig (st c) (storage c) t (searchTabId c) (tasks c) (trace c).

Definition withTasks (l : list pc) (c : Config) : Config :=
  mkConfig (st c) (storage c) (activeTabId c) (searchTabId c) l (trace c).

Definition emit (e : effect) (c : Config) : Config :=
  mkConfig (st c) (storage c) (activeTabId c) (searchTabId c) (tasks c)
           (trace c ++ [e])%list.

Definition notifyUI (m : message) : Config -> Config := emit (Notify m).

Definition setFlags (running paused : bool) (s : State) : State :=
  mkState running paused (currentPage s) (startPage s) (maxPages s)
          (processedCompanies s) (totalCompaniesFound s) (companyQueue s)
          (currentCompanyIndex s) (errors s).

Definition setPaused (paused : bool) (s : State) : State :=
  setFlags (isRunning s) paused s.

Definition setCurrentPage (p : Z) (s : State) : State :=
  mkState (isRunning s) (isPaused s) p (startPage s) (maxPages s)
          (processedCompanies s) (totalCompaniesFound s) (companyQueue s)
          (currentCompanyIndex s) (errors s).

Definition setProcessed (n : Z) (s : State) : State :=
  mkState (isRunning s) (isPaused s) (currentPage s) (startPage s)
          (maxPages s) n (totalCompaniesFound s) (companyQueue s)
          (currentCompanyIndex s) (errors s).

Definition setQueue (q : list string) (found : Z) (index : nat) (s : State)
  : State :=
  mkState (isRunning s) (isPaused s) (currentPage s) (startPage s)
          (maxPages s) (processedCompanies s) found q index (errors s).

Definition setIndex (i : nat) (s : State) : State :=
  setQueue (companyQueue s) (totalCompaniesFound s) i s.

Definition pushError (e : errorEntry) (s : State) : State :=
  mkState (isRunning s) (isPaused s) (currentPage s) (startPage s)
          (maxPages s) (processedCompanies s) (totalCompaniesFound s)
          (companyQueue s) (currentCompanyIndex s) (errors s ++ [e])%list.

Fixpoint setNth {A} (n : nat) (x : A) (l : list A) : list A :=
  match l, n with
  | [], _ => []
  | _ :: r, O => x :: r
  | y :: r, S m => y :: setNth m x r
  end.

Definition setTask (tid : nat) (p : pc) (c : Config) : Config :=
  withTasks (setNth tid p (tasks c)) c.

Definition spawn (p : pc) (c : Config) : Config :=
  withTasks (tasks c ++ [p])%list c.

(** [saveState()]. *)
Definition saveState (c : Config) : Config :=
  withStorage (mkStorage (linkedin_scraper_data (storage c)) (Some (st c))) c.

(** [if (this.activeTabId) { try { remove } catch {}; this.activeTabId = null }]. *)
Definition closeActiveTab (c : Config) : Config :=
  match activeTabId c with
  | Some t =>
      if (t =? 0)%nat then c
      else withActiveTab None (emit (TabsRemove t) c)
  | None => c
  end.

Definition stats (s : State) : Stats :=
  mkStats (processedCompanies s) (totalCompaniesFound s) (currentPage s)
          (length (errors s)).

(** [completeScraping()]. *)
Definition completeScraping (c : Config) : Config :=
  let c := withSt (setFlags false false) c in
  let c := closeActiveTab c in
  let c := saveState c in
  notifyUI (ScrapingComplete (stats (st c))) c.

(** [stopScraping()]. *)
Definition stopScraping (c : Config) : Config :=
  let c := withSt (setFlags false false) c in
  let c := closeActiveTab c in
  let c := saveState c in
  notifyUI (ScrapingStopped (stats (st c))) c.

(** [pauseScraping()]. *)
Definition pauseScraping (c : Config) : Config :=
  notifyUI ScrapingPaused (saveState (withSt (setPaused true) c)).

(** [resumeScraping()]: a new activation of [processCompanyQueue], whose
    loop starts at [let i = 0]. *)
Definition resumeScraping (c : Config) : Config :=
  let c := notifyUI ScrapingResumed (saveState (withSt (setPaused false) c)) in
  if isRunning (st c) then spawn (LoopTop Resumed 0) c else c.

Definition pagesProcessed (s : State) : Z :=
  (currentPage s - startPage s + 1)%Z.

(** The catch block of [processCurrentPage]. *)
Definition pageFailure (tid : nat) (msg : string) (c : Config) : Config :=
  let c := withSt (pushError (PageError (currentPage (st c)) msg)) c in
  let c := notifyUI (StatusUpdate (ErrorStatus msg)) c in
  setTask tid Finished (completeScraping c).

(** The catch block of [goToNextPage]. *)
Definition paginationFailure (tid : nat) (msg : string) (c : Config)
  : Config :=
  let c := withSt (pushError
                     (PaginationError (currentPage (st c) + 1)%Z msg)) c in
  let c := notifyUI (StatusUpdate (NavigationError msg)) c in
  setTask tid Finished (completeScraping c).

(** The catch block of [processCompany]; the loop then goes on. *)
Definition companyFailure (tid : nat) (o : owner) (i : nat)
           (companyUrl msg : string) (c : Config) : Config :=
  let c := withSt (pushError (CompanyError companyUrl msg)) c in
  setTask tid (LoopTop o (S i)) (closeActiveTab c).

(** The end of [processCurrentPage], after the queue: the page budget is
    tested before anything is asked of the page navigator. *)
Definition afterQueue (tid : nat) (c : Config) : Config :=
  let s := st c in
  if isRunning s && negb (isPaused s)
     && (pagesProcessed s <? maxPages s)%Z
  then setTask tid AwaitClick c
  else setTask tid Finished (completeScraping c).

(** Leaving the loop of [processCompanyQueue], normally or by [break]. *)
Definition loopExit (tid : nat) (o : owner) (c : Config) : Config :=
  match o with
  | Drive => afterQueue tid c
  | Resumed => setTask tid Finished c
  end.

(** An exception leaving [processCompanyQueue]. *)
Definition loopThrow (tid : nat) (o : owner) (msg : string) (c : Config)
  : Config :=
  match o with
  | Drive => pageFailure tid msg c
  | Resumed => setTask tid Finished c
  end.

(** The object [{ url, name }] built for a duplicate check. *)
Definition candidate (u n : string) : Company :=
  mkCompany (VString n) VUndefined VUndefined VUndefined VUndefined
            (VString u) VUndefined.

(** The pre-filter loop of [processCurrentPage]: the links that are new
    and those skipped, against one snapshot of the store. *)
Fixpoint prefilter (existing : list Company) (links : list Link)
  : completion (list Link * list Link) :=
  match links with
  | [] => Return ([], [])
  | l :: rest =>
      dup <- Matcher.isDuplicateCompany
               (Some (candidate (linkUrl l) (linkName l))) existing ;;
      r <- prefilter existing rest ;;
      if dup then Return (fst r, l :: snd r)
      else Return (l :: fst r, snd r)
  end.

(** [aboutUrl] of [processCompany]. *)
Definition aboutUrl (companyUrl : string) : string :=
  if Str.includes "/about/" companyUrl then companyUrl
  else Str.replaceLastSlash companyUrl ++ "/about/".

(** [processCurrentPage()] from its entry to the request for the page's
    links; a run that is stopped or paused returns at once. *)
Definition enterPage (tid : nat) (c : Config) : Config :=
  let s := st c in
  if negb (isRunning s) || isPaused s then setTask tid Finished c
  else
    setTask tid AwaitUrls
            (notifyUI (StatusUpdate (ProcessingPage (currentPage s))) c).

(** [processCurrentPage()] once the links have arrived. *)
Definition onUrls (tid : nat) (r : urlsResponse) (c : Config) : Config :=
  match r with
  | UrlsFailed error =>
      pageFailure tid ("Failed to extract company URLs: " ++ error) c
  | UrlsMalformed =>
      pageFailure tid "Invalid response format from content script" c
  | UrlsOk [] =>
      let page := currentPage (st c) in
      let c := notifyUI (StatusUpdate (NoCompaniesOnPage page)) c in
      let c := withSt (fun s => setQueue [] (totalCompaniesFound s)
                                         (currentCompanyIndex s) s) c in
      afterQueue tid c
  | UrlsOk companiesData =>
      let existingCompanies := Store.getCompanies (storage c) in
      match prefilter existingCompanies companiesData with
      | Throw msg => pageFailure tid msg c
      | Return (filteredCompanies, skippedCompanies) =>
          let page := currentPage (st c) in
          let c := withSt
                     (fun s =>
                        setQueue (map linkUrl filteredCompanies)
                                 (totalCompaniesFound s
                                  + Z.of_nat (length companiesData))%Z
                                 0 s) c in
          let c := notifyUI (CompaniesFound (length companiesData) page) c in
          let c := match skippedCompanies with
                   | [] => c
                   | _ => notifyUI
                            (StatusUpdate
                               (PageSummary page (length filteredCompanies)
                                            (length skippedCompanies))) c
                   end in
          setTask tid (AwaitSaved (length filteredCompanies)) (saveState c)
      end
  end.

(** One turn of the loop of [processCompanyQueue] up to the first
    suspension inside [processCompany]: the loop condition, the test of
    the flags, and the duplicate check made before any tab is opened. *)
Definition onTick (tid : nat) (o : owner) (i : nat) (c : Config) : Config :=
  let s := st c in
  match nth_error (companyQueue s) i with
  | None => loopExit tid o c
  | Some companyUrl =>
      if negb (isRunning s) || isPaused s then loopExit tid o c
      else
        let c := withSt (setIndex i) c in
        let existingCompanies := Store.getCompanies (storage c) in
        match Matcher.isDuplicateCompany
                (Some (candidate companyUrl "")) existingCompanies with
        | Throw msg => loopThrow tid o msg c
        | Return true =>
            let c := withSt (fun s => setProcessed
                                        (processedCompanies s + 1)%Z s) c in
            let c := notifyUI
                       (StatusUpdate (SkippedDuplicate companyUrl)) c in
            setTask tid (LoopTop o (S i)) (saveState c)
        | Return false =>
            let c := notifyUI
                       (StatusUpdate
                          (ScrapingCompany (processedCompanies (st c) + 1)%Z))
                       c in
            setTask tid (AwaitTab o i companyUrl) c
        end
  end.

(** [processCurrentPage()] after [await this.saveState()]: the queue is
    processed when there is something new on the page ([fresh] is
    [filteredCompanies.length]), and the page budget is tested next. *)
Definition onSaved (tid : nat) (fresh : nat) (c : Config) : Config :=
  if (0 <? fresh)%nat then onTick tid Drive 0 c
  else afterQueue tid
         (notifyUI (StatusUpdate (AllCollected (currentPage (st c)))) c).

(** [processCompany]: the rate-limit wait is over and
    [chrome.tabs.create] has answered. *)
Definition onCreate (tid : nat) (o : owner) (i : nat) (companyUrl : string)
           (r : createResult) (c : Config) : Config :=
  let c := emit (TabsCreate (aboutUrl companyUrl)) c in
  match r with
  | Created tabId =>
      setTask tid (AwaitDetail o i companyUrl tabId)
              (withActiveTab (Some tabId) c)
  | CreateFailed msg => companyFailure tid o i companyUrl msg c
  end.

(** [processCompany]: load, extraction, save and the closing of the tab.
    The read and the write of [saveCompanyData] are taken as one step,
    which is what happens while no other activation saves a record. *)
Definition onDetail (tid : nat) (o : owner) (i : nat) (companyUrl : string)
           (tabId : nat) (r : detailResult) (c : Config) : Config :=
  match r with
  | LoadFailed msg => companyFailure tid o i companyUrl msg c
  | ExtractionFailed =>
      companyFailure tid o i companyUrl "Failed to extract company data" c
  | Extracted data removeError =>
      match Store.saveCompanyData data (storage c) with
      | Throw msg => companyFailure tid o i companyUrl msg c
      | Return (wasAdded, storage') =>
          let c := withStorage storage' c in
          let c := withSt (fun s => setProcessed
                                      (processedCompanies s + 1)%Z s) c in
          let c := if wasAdded
                   then notifyUI (CompanyScraped
                                    data (processedCompanies (st c))) c
                   else c in
          let c := emit (TabsRemove tabId) c in
          match removeError with
          | Some msg => companyFailure tid o i companyUrl msg c
          | None =>
              setTask tid (LoopTop o (S i))
                      (saveState (withActiveTab None c))
          end
      end
  end.

(** [goToNextPage()] up to the click on the next-page button. *)
Definition onClick (tid : nat) (r : clickResult) (c : Config) : Config :=
  match r with
  | AdvanceThrows msg => paginationFailure tid msg c
  | ClickFailed =>
      let s := st c in
      if (length (companyQueue s) =? 0)%nat
         && (processedCompanies s =? 0)%Z
      then paginationFailure tid
             "No pagination button found and no companies extracted. Might not be on a valid search results page." c
      else setTask tid Finished (completeScraping c)
  | Clicked =>
      let c := withSt (fun s => setCurrentPage (currentPage s + 1)%Z s) c in
      setTask tid AwaitNavigation (saveState c)
  end.

(** [goToNextPage()] after the click: the waits, the re-validation of the
    search tab and the recursive call of [processCurrentPage]. *)
Definition onNav (tid : nat) (r : navResult) (c : Config) : Config :=
  match r with
  | NavigationThrows msg => paginationFailure tid msg c
  | OnResults => enterPage tid c
  end.

(** *** Events *)

Inductive event : Type :=
| Start (tabId : nat) (onCompanySearch : bool)
        (requestedPages detectedPage : Z)
| Pause
| Resume
| Stop
| UpdateCompanies (companies : list Company)
| ClearData
| Deliver (tid : nat) (i : input).

(** [startScraping(searchTabId, maxPages)] as called by
    [handleStartScraping] with [request.maxPages || 5]; [detectedPage] is
    the page number found in the URL or in the page, 1 by default. *)
Definition startScraping (tabId : nat) (requestedPages detectedPage : Z)
           (c : Config) : Config :=
  let maxPages := if (requestedPages =? 0)%Z then 5%Z else requestedPages in
  let s := mkState true false detectedPage detectedPage maxPages 0 0 [] 0 [] in
  let c := mkConfig s (storage c) (activeTabId c) (Some tabId)
                    (tasks c ++ [Finished])%list (trace c) in
  let c := notifyUI ScrapingStarted (saveState c) in
  enterPage (length (tasks c) - 1) c.

Definition deliver (tid : nat) (i : input) (c : Config) : Config :=
  match nth_error (tasks c) tid, i with
  | Some AwaitUrls, InUrls r => onUrls tid r c
  | Some (AwaitSaved fresh), InTick => onSaved tid fresh c
  | Some (LoopTop o k), InTick => onTick tid o k c
  | Some (AwaitTab o k u), InCreate r => onCreate tid o k u r c
  | Some (AwaitDetail o k u t), InDetail r => onDetail tid o k u t r c
  | Some AwaitClick, InClick r => onClick tid r c
  | Some AwaitNavigation, InNav r => onNav tid r c
  | _, _ => c
  end.

Definition step (c : Config) (e : event) : Config :=
  match e with
  | Start tabId onCompanySearch requested detected =>
      (* handleStartScraping rejects a tab that is not a company search *)
      if onCompanySearch then startScraping tabId requested detected c
      else c
  | Pause => pauseScraping c
  | Resume => resumeScraping c
  | Stop => stopScraping c
  | UpdateCompanies l => withStorage (Store.updateCompanies l (storage c)) c
  | ClearData => withStorage (Store.clearData (storage c)) c
  | Deliver tid i => deliver tid i c
  end.

Definition run (c : Config) (es : list event) : Config :=
  fold_left step es c.

(** The detail pages for which a tab was requested, in order. *)
Fixpoint opened (t : list effect) : list string :=
  match t with
  | [] => []
  | TabsCreate u :: r => u :: opened r
  | _ :: r => opened r
  end.

Fixpoint closed (t : list effect) : list nat :=
  match t with
  | [] => []
  | TabsRemove n :: r => n :: closed r
  | _ :: r => closed r
  end.

End Coordinator.

(* ================================================================= *)
(** ** The specification's vocabulary *)

Module Spec.

(** *** Matching strategies, as the specification words them *)

(** The normalized name of a record, when there is one. *)
Definition normalizedName (c : Company) : option string :=
match Matcher.normalizeName (name c) with
| Return o => o
| Throw _ => None
end.

(** "The normalized URLs are equal." *)
Definition urlMatch (c e : Company) : bool :=
match Matcher.normalizeUrl (url c), Matcher.normalizeUrl (url e) with
| Some a, Some b => a =? b
| _, _ => false
end.

(** A URL is domain-scoped when its normal form is a company page of the
    target domain. *)
Definition domainScoped (u : value) : bool :=
match Matcher.normalizeUrl u with
| Some n => Str.includes "linkedin.com/company/" n
| None => false
end.

(** "The extracted slugs are equal and both URLs are domain-scoped." *)
Definition slugMatch (c e : Company) : bool :=
match Matcher.extractCompanySlug (url c),
      Matcher.extractCompanySlug (url e) with
| Some a, Some b => (a =? b) && domainScoped (url c) && domainScoped (url e)
| _, _ => false
end.

(** "The normalized (lowercased, trimmed) names are equal", read
    literally. *)
Definition nameMatchAsStated (c e : Company) : bool :=
match normalizedName c, normalizedName e with
| Some a, Some b => a =? b
| _, _ => false
end.

(** A normalized name the code is willing to compare: not empty and not
    the lower-cased sentinel. *)
Definition usableName (n : string) : bool :=
negb (n =? "") && negb (n =? "n/a").

(** Equal normalized names that are usable. *)
Definition nameMatch (c e : Company) : bool :=
match normalizedName c, normalizedName e with
| Some a, Some b => (a =? b) && usableName a
| _, _ => false
end.

(** "After stripping a trailing legal-entity suffix from both names the
    cleaned names are equal and the cleaned name has length > 3." *)
Definition fuzzyMatch (c e : Company) : bool :=
match normalizedName c, normalizedName e with
| Some a, Some b =>
    (Matcher.cleanName a =? Matcher.cleanName b)
    && (3 <? String.length (Matcher.cleanName a))%nat
| _, _ => false
end.

Definition matchesAsStated (c e : Company) : bool :=
urlMatch c e || slugMatch c e || nameMatchAsStated c e || fuzzyMatch c e.

Definition matches (c e : Company) : bool :=
urlMatch c e || slugMatch c e || nameMatch c e || fuzzyMatch c e.

(** A record's name can be normalized without raising: it is a string or
    a falsy value. *)
Definition nameTyped (c : Company) : bool :=
match Matcher.normalizeName (name c) with
| Return _ => true
| Throw _ => false
end.

(** *** Identity of a record *)

(** A record carries an identity the matcher can use: a URL that
    normalizes, or a usable normalized name. *)
Definition hasIdentity (c : Company) : bool :=
match Matcher.normalizeUrl (url c) with
| Some _ => true
| None => match normalizedName c with
          | Some n => usableName n
          | None => false
          end
end.

(** *** Gated insertions into the collection *)

Inductive insertion : Type :=
| BySave (company : Company)            (* saveCompanyData, while scraping *)
| ByImport (batch : list Company).      (* importCompanies, from the panel *)

(** The collection after one gated insertion.  An insertion that raises
    leaves what it had already pushed. *)
Definition insert (cs : list Company) (i : insertion) : list Company :=
match i with
| BySave company =>
    match Store.saveCompanyData company (mkStorage (Some cs) None) with
    | Return (_, s) => Store.getCompanies s
    | Throw _ => cs
    end
| ByImport batch =>
    fst (SidePanel.importLoop cs batch 0 0)
end.

Definition insertAll (cs : list Company) (l : list insertion)
  : list Company :=
fold_left insert l cs.

(** *** URL variants *)

Fixpoint slashes (k : nat) : string :=
match k with
| O => ""
| S n => String "/" (slashes n)
end.

(** A URL assembled from its protocol, an optional ["www."], a body,
    trailing slashes and a query-or-fragment part. *)
Definition urlOf (https www : bool) (body : string) (k : nat)
           (query : string) : string :=
(if https then "https://" else "http://")
  ++ (if www then "www." else "")
  ++ body ++ slashes k ++ query.

(** Characters of a URL body: no white space, no ['?'], no ['#']. *)
Definition plainChar (c : ascii) : bool :=
negb (Str.isWhiteSpace c) && negb (Ascii.eqb c "?") && negb (Ascii.eqb c "#").

Fixpoint plain (s : string) : bool :=
match s with
| "" => true
| String c r => plainChar c && plain r
end.

Fixpoint noSlash (s : string) : bool :=
match s with
| "" => true
| String c r => negb (Str.isSlash c) && noSlash r
end.

(** Empty, or introduced by ['?'] or ['#']. *)
Definition isQuery (q : string) : bool :=
match q with
| "" => true
| String c _ => Ascii.eqb c "?" || Ascii.eqb c "#"
end.

(** Empty, or a path below the slug. *)
Definition isSubPath (p : string) : bool :=
match p with
| "" => true
| String c _ => Str.isSlash c
end.

(** [normalized || null]. *)
Definition orNull (s : string) : option string :=
match s with
| "" => None
| _ => Some s
end.

(** *** Page budget *)

(** The events of one run: no second [startScraping]. *)
Fixpoint noStart (es : list Coordinator.event) : bool :=
match es with
| [] => true
| Coordinator.Start _ _ _ _ :: _ => false
| _ :: r => noStart r
end.

(** An activation is about to ask the navigator for the next page. *)
Definition advancing (c : Coordinator.Config) : bool :=
existsb (fun p => match p with
                  | Coordinator.AwaitClick => true
                  | _ => false
                  end) (Coordinator.tasks c).

(** The activations of the drive loop ([startScraping] and what it calls);
    the others are loops started by [resumeScraping], or have ended. *)
Definition isDrivePc (p : Coordinator.pc) : bool :=
match p with
| Coordinator.AwaitUrls
| Coordinator.AwaitSaved _
| Coordinator.LoopTop Coordinator.Drive _
| Coordinator.AwaitTab Coordinator.Drive _ _
| Coordinator.AwaitDetail Coordinator.Drive _ _ _
| Coordinator.AwaitClick
| Coordinator.AwaitNavigation => true
| _ => false
end.

(** The notification sent when the processing of a listing page begins. *)
Definition isPageEntry (e : Coordinator.effect) : bool :=
match e with
| Coordinator.Notify
    (Coordinator.StatusUpdate (Coordinator.ProcessingPage _)) => true
| _ => false
end.

(** The number of listing pages whose processing has begun. *)
Definition pagesEntered (t : list Coordinator.effect) : nat :=
length (filter isPageEntry t).

(** [c'] keeps the page counters and the activations of [c], and no
    listing page was entered in between. *)
Definition quiet (c c' : Coordinator.Config) : Prop :=
Coordinator.tasks c' = Coordinator.tasks c
/\ currentPage (Coordinator.st c') = currentPage (Coordinator.st c)
/\ startPage (Coordinator.st c') = startPage (Coordinator.st c)
/\ maxPages (Coordinator.st c') = maxPages (Coordinator.st c)
/\ pagesEntered (Coordinator.trace c') = pagesEntered (Coordinator.trace c).

(** What resuming activation [tid], suspended at [p], may do: the
    activation moves to [p'], a loop of [resumeScraping] stays one, the
    budget and the start page are kept, and the current page is either
    kept (and the navigator is asked for a next page only below the
    budget) or advanced by one by the click that was awaited, and a
    listing page is entered only after the navigation that follows. *)
Definition stepShape (tid : nat) (p p' : Coordinator.pc)
           (c c' : Coordinator.Config) : Prop :=
Coordinator.tasks c' = Coordinator.setNth tid p' (Coordinator.tasks c)
/\ (isDrivePc p = false -> isDrivePc p' = false)
/\ maxPages (Coordinator.st c') = maxPages (Coordinator.st c)
/\ startPage (Coordinator.st c') = startPage (Coordinator.st c)
/\ ((currentPage (Coordinator.st c') = currentPage (Coordinator.st c)
     /\ (p' = Coordinator.AwaitClick ->
         p = Coordinator.AwaitClick
         \/ (Coordinator.pagesProcessed (Coordinator.st c)
             < maxPages (Coordinator.st c))%Z)
     /\ (p' = Coordinator.AwaitNavigation -> p = Coordinator.AwaitNavigation))
    \/ (p = Coordinator.AwaitClick /\ p' = Coordinator.AwaitNavigation
        /\ currentPage (Coordinator.st c')
           = (currentPage (Coordinator.st c) + 1)%Z))
/\ (pagesEntered (Coordinator.trace c') = pagesEntered (Coordinator.trace c)
    \/ (p = Coordinator.AwaitNavigation /\ p' = Coordinator.AwaitUrls
        /\ pagesEntered (Coordinator.trace c')
           = S (pagesEntered (Coordinator.trace c)))).

(** The invariant of a run with page budget [n] started on page [p0]:
    the budget is never exceeded, no more listing pages were entered than
    the page counter tells, the drive loop is activation 0, it waits for a
    click on the next-page button only below the budget, and while it
    waits for the navigation the page counted last is not entered yet. *)
Definition budgetInv (n p0 : Z) (c : Coordinator.Config) : Prop :=
maxPages (Coordinator.st c) = n
/\ startPage (Coordinator.st c) = p0
/\ (1 <= Coordinator.pagesProcessed (Coordinator.st c) <= n)%Z
/\ (Z.of_nat (pagesEntered (Coordinator.trace c))
    <= Coordinator.pagesProcessed (Coordinator.st c))%Z
/\ exists d rest,
     Coordinator.tasks c = d :: rest
     /\ forallb (fun q => negb (isDrivePc q)) rest = true
     /\ (d = Coordinator.AwaitClick ->
         (Coordinator.pagesProcessed (Coordinator.st c) < n)%Z)
     /\ (d = Coordinator.AwaitNavigation ->
         (Z.of_nat (pagesEntered (Coordinator.trace c))
          < Coordinator.pagesProcessed (Coordinator.st c))%Z).

(** *** Per-item failures *)

(** The loop of activation [tid] goes on with item [k]: when the run is
    neither stopped nor paused and the queue has an item at [k], the next
    turn of the loop visits it or skips it as already known. *)
Definition takesNext (tid : nat) (o : Coordinator.owner) (k : nat)
           (x : Coordinator.Config) : Prop :=
forall u,
  nth_error (companyQueue (Coordinator.st x)) k = Some u ->
  isRunning (Coordinator.st x) = true ->
  isPaused (Coordinator.st x) = false ->
  let y := Coordinator.step x (Coordinator.Deliver tid Coordinator.InTick) in
  nth_error (Coordinator.tasks y) tid = Some (Coordinator.AwaitTab o k u)
  \/ nth_error (Coordinator.tasks y) tid
     = Some (Coordinator.LoopTop o (S k)).

(** The failures of one item (opening, loading, extracting): the answer
    of the environment and the message recorded. *)
Definition detailFailure (r : Coordinator.detailResult) : option string :=
match r with
| Coordinator.LoadFailed msg => Some msg
| Coordinator.ExtractionFailed => Some "Failed to extract company data"
| Coordinator.Extracted _ _ => None
end.

End Spec.

(* ================================================================= *)
(** ** Concrete inputs *)

Module Examples.

Import Coordinator.

Definition record (n u : string) : Company :=
mkCompany (VString n) (VString "N/A") (VString "N/A") (VString "N/A")
          (VString "N/A") (VString u) (VString "2024-01-01T00:00:00.000Z").

Definition emptyStorage : Storage := mkStorage None None.

(** A record with nothing but sentinels, as the import validation produces
    it from [{ name: "N/A" }]. *)
Definition sentinelOnly : Company := record "N/A" "".

(** Two records whose only identity is the lower-case sentinel name. *)
Definition lowerSentinel : Company := record "n/a" "N/A".

Definition acme : Company :=
record "Acme Inc." "https://www.linkedin.com/company/acme/about/".

(** The scenario of a listing page [A; B; C] with [A] and [C] known. *)
Definition linkA : Link := mkLink "https://www.linkedin.com/company/alpha" "Alpha".
Definition linkB : Link := mkLink "https://www.linkedin.com/company/beta" "Beta".
Definition linkC : Link := mkLink "https://www.linkedin.com/company/gamma/" "Gamma".

Definition knownAC : Storage :=
mkStorage
  (Some [record "Alpha Ltd" "http://linkedin.com/company/alpha/about/";
         record "Gamma Holdings" "https://uk.linkedin.com/company/gamma/jobs"])
  None.

Definition dataB : Company :=
record "Beta" "https://www.linkedin.com/company/beta/about/".

(** A page of three new items. *)
Definition threeLinks : list Link :=
[mkLink "https://www.linkedin.com/company/u0" "U0";
 mkLink "https://www.linkedin.com/company/u1" "U1";
 mkLink "https://www.linkedin.com/company/u2" "U2"].

Definition dataU0 : Company :=
record "U0" "https://www.linkedin.com/company/u0/about/".

(** Pause while item 0 is in flight, resume once it has finished. *)
Definition pauseThenResume : list event :=
[Start 7 true 5 1;
 Deliver 0 (InUrls (UrlsOk threeLinks));
 Deliver 0 InTick;
 Deliver 0 (InCreate (Created 42));
 Pause;
 Deliver 0 (InDetail (Extracted dataU0 None));
 Deliver 0 InTick;
 Resume;
 Deliver 0 InTick;
 Deliver 1 InTick].

(** Item 0 done, item 1 in flight; pause and resume before it finishes. *)
Definition resumeInFlight : list event :=
[Start 7 true 5 1;
 Deliver 0 (InUrls (UrlsOk threeLinks));
 Deliver 0 InTick;
 Deliver 0 (InCreate (Created 42));
 Deliver 0 (InDetail (Extracted dataU0 None));
 Deliver 0 InTick;
 Deliver 0 (InCreate (Created 43));
 Pause;
 Resume;
 Deliver 1 InTick;
 Deliver 1 InTick].

(** The first item of a page of three is about to be opened. *)
Definition opening : Config :=
run (initial emptyStorage)
    [Start 7 true 5 1;
     Deliver 0 (InUrls (UrlsOk threeLinks));
     Deliver 0 InTick].

End Examples.

(* ================================================================= *)
(** ** CSV export and import of the collection ([sidepanel.js]) *)

Module Csv.

Definition quote : ascii := "034"%char.
Definition comma : ascii := ","%char.
Definition newline : ascii := "010"%char.

(** [s.split(sep)] for a separator of one character. *)
Fixpoint split (sep : ascii) (s : string) : list string :=
  match s with
  | "" => [""]
  | String c r =>
      if Ascii.eqb c sep then "" :: split sep r
      else match split sep r with
           | h :: t => String c h :: t
           | [] => [String c ""]
           end
  end.

(** [a.join(sep)] on an array of strings. *)
Fixpoint join (sep : string) (a : list string) : string :=
  match a with
  | [] => ""
  | x :: r =>
      match r with
      | [] => x
      | _ => x ++ sep ++ join sep r
      end
  end.

(** The replacement of every double quote by two of them, as in
    [escapeCSV]. *)
Fixpoint doubleQuotes (s : string) : string :=
  match s with
  | "" => ""
  | String c r =>
      if Ascii.eqb c quote then String quote (String quote (doubleQuotes r))
      else String c (doubleQuotes r)
  end.

(** [escapeCSV(field)] once [field] is a string. *)
Definition escapeText (field : string) : string :=
  if Str.includes (String comma "") field
     || Str.includes (String quote "") field
     || Str.includes (String newline "") field
  then String quote (doubleQuotes field ++ String quote "")
  else field.

(** The loop of [parseCSVLine(line)] from position [i]: [line] is what is
    left to read from [i] on. *)
Fixpoint parseLoop (line : string) (values : list string) (current : string)
         (inQuotes : bool) : list string :=
  match line with
  | "" => (values ++ [current])%list
  | String char rest =>
      if Ascii.eqb char quote then
        match rest with
        | String nextChar rest' =>
            if inQuotes && Ascii.eqb nextChar quote
            then parseLoop rest' values (current ++ String quote "") inQuotes
            else parseLoop rest values current (negb inQuotes)
        | "" => parseLoop rest values current (negb inQuotes)
        end
      else if Ascii.eqb char comma && negb inQuotes
      then parseLoop rest (values ++ [current])%list "" inQuotes
      else parseLoop rest values (current ++ String char "") inQuotes
  end.

(** [parseCSVLine(line)]. *)
Definition parseCSVLine (line : string) : list string :=
  parseLoop line [] "" false.

(** [headerMap]: the column of each field, when a header names it. *)
Record HeaderMap : Type := mkHeaderMap {
  nameColumn : option nat;
  websiteColumn : option nat;
  industryColumn : option nat;
  phoneColumn : option nat;
  headquartersColumn : option nat;
  urlColumn : option nat;
  timestampColumn : option nat
}.

Definition noColumns : HeaderMap :=
  mkHeaderMap None None None None None None None.

(** The callback of [headers.forEach]. *)
Definition mapHeader (m : HeaderMap) (header : string) (index : nat)
  : HeaderMap :=
  let normalized := Str.toLowerCase (Str.trim header) in
  let has := fun w => Str.includes w normalized in
  if has "name" || (normalized =? "company") then
    mkHeaderMap (Some index) (websiteColumn m) (industryColumn m)
                (phoneColumn m) (headquartersColumn m) (urlColumn m)
                (timestampColumn m)
  else if has "website" && negb (has "linkedin") then
    mkHeaderMap (nameColumn m) (Some index) (industryColumn m)
                (phoneColumn m) (headquartersColumn m) (urlColumn m)
                (timestampColumn m)
  else if has "industry" then
    mkHeaderMap (nameColumn m) (websiteColumn m) (Some index)
                (phoneColumn m) (headquartersColumn m) (urlColumn m)
                (timestampColumn m)
  else if has "phone" then
    mkHeaderMap (nameColumn m) (websiteColumn m) (industryColumn m)
                (Some index) (headquartersColumn m) (urlColumn m)
                (timestampColumn m)
  else if has "headquarter" || has "location" then
    mkHeaderMap (nameColumn m) (websiteColumn m) (industryColumn m)
                (phoneColumn m) (Some index) (urlColumn m)
                (timestampColumn m)
  else if has "linkedin" && (has "url" || has "link") then
    mkHeaderMap (nameColumn m) (websiteColumn m) (industryColumn m)
                (phoneColumn m) (headquartersColumn m) (Some index)
                (timestampColumn m)
  else if has "collection date" || has "timestamp" || has "date"
          || has "time" then
    mkHeaderMap (nameColumn m) (websiteColumn m) (industryColumn m)
                (phoneColumn m) (headquartersColumn m) (urlColumn m)
                (Some index)
  else m.

Fixpoint mapHeaders (m : HeaderMap) (headers : list string) (index : nat)
  : HeaderMap :=
  match headers with
  | [] => m
  | header :: rest => mapHeaders (mapHeader m header index) rest (S index)
  end.

(** A field of the row's object: set, and trimmed, when the header names
    a column and the row reaches it. *)
Definition cell (values : list string) (column : option nat) : value :=
  match column with
  | Some index =>
      match nth_error values index with
      | Some v => VString (Str.trim v)
      | None => VUndefined
      end
  | None => VUndefined
  end.

(** One turn of the loop over the data rows: the object pushed, if any. *)
Definition parseRow (m : HeaderMap) (line : string) : option Company :=
  let values := parseCSVLine line in
  match values with
  | [] => None
  | _ =>
      let company :=
        mkCompany (cell values (nameColumn m))
                  (cell values (websiteColumn m))
                  (cell values (industryColumn m))
                  (cell values (phoneColumn m))
                  (cell values (headquartersColumn m))
                  (cell values (urlColumn m))
                  (cell values (timestampColumn m)) in
      if truthy (name company) || truthy (url company) then Some company
      else None
  end.

Fixpoint parseRows (m : HeaderMap) (lines : list string) : list Company :=
  match lines with
  | [] => []
  | line :: rest =>
      match parseRow m line with
      | Some company => company :: parseRows m rest
      | None => parseRows m rest
      end
  end.

(** The lines kept by [filter(line => line.trim())]. *)
Definition notBlank (line : string) : bool := negb (Str.trim line =? "").

(** [parseCSV(csvText)]. *)
Definition parseCSV (csvText : string) : list Company :=
  match filter notBlank (split newline csvText) with
  | [] => []
  | header :: rows =>
      parseRows (mapHeaders noColumns (parseCSVLine header) 0) rows
  end.

Section Conversions.

(** [String(n)] for a number [n]. *)
Variable numberToString : Z -> string.

(** [String(v)]. *)
Definition toString (v : value) : string :=
  match v with
  | VUndefined => "undefined"
  | VNull => "null"
  | VBool true => "true"
  | VBool false => "false"
  | VNumber n => numberToString n
  | VString s => s
  end.

(** [escapeCSV(field)]. *)
Definition escapeCSV (field : value) : string := escapeText (toString field).

(** [v || '']. *)
Definition orEmpty (v : value) : value :=
  if truthy v then v else VString "".

(** [v && v !== 'N/A' ? v : '']. *)
Definition unlessSentinel (v : value) : value :=
  if truthy v && negb (strictEqStr v "N/A") then v else VString "".

Definition headers : list string :=
  ["Name"; "Website"; "Industry"; "Phone"; "Headquarters"; "LinkedIn URL";
   "Collection Date"].

(** A row of [handleExportCSV]. *)
Definition csvRow (company : Company) : list string :=
  [escapeCSV (orEmpty (name company));
   escapeCSV (unlessSentinel (website company));
   escapeCSV (unlessSentinel (industry company));
   escapeCSV (unlessSentinel (phone company));
   escapeCSV (unlessSentinel (headquarters company));
   escapeCSV (orEmpty (url company));
   escapeCSV (orEmpty (timestamp company))].

(** [csvContent] of [handleExportCSV]; the file holds it after a byte
    order mark, which [FileReader.readAsText] drops again. *)
Definition csvContent (companies : list Company) : string :=
  join (String newline "")
       (join (String comma "") headers
        :: map (fun company => join (String comma "") (csvRow company))
               companies).

(** [handleExportCSV()]: nothing is written for an empty collection. *)
Definition handleExportCSV (companies : list Company) : option string :=
  match companies with
  | [] => None
  | _ => Some (csvContent companies)
  end.

(** *** Validation of imported records *)

(** [v ? String(v).trim() : dflt]. *)
Definition textOr (v : value) (dflt : string) : string :=
  if truthy v then Str.trim (toString v) else dflt.

(** The completion of a LinkedIn URL written without its protocol. *)
Definition completeUrl (u : string) : string :=
  if negb (u =? "") && negb (Str.startsWith "http" u) then
    if Str.includes "linkedin.com/company/" u
    then "https://" ++ Str.replaceProtocol u
    else u
  else u.

(** The object [normalized] built for one record; [now] is
    [new Date().toISOString()]. *)
Definition normalizeCompany (now : string) (company : Company) : Company :=
  mkCompany (VString (textOr (name company) "N/A"))
            (VString (textOr (website company) "N/A"))
            (VString (textOr (industry company) "N/A"))
            (VString (textOr (phone company) "N/A"))
            (VString (textOr (headquarters company) "N/A"))
            (VString (completeUrl (textOr (url company) "")))
            (VString (textOr (timestamp company) now)).

(** The loop of [validateAndNormalizeCompanies]; [None] is a [null]
    entry of the array, on which [company.name] raises, and [now i] is
    the clock read in turn [i]. *)
Fixpoint validateFrom (now : nat -> string) (i : nat)
         (companies : list (option Company)) : completion (list Company) :=
  match companies with
  | [] => Return []
  | None :: _ =>
      Throw "Cannot read properties of null (reading 'name')"
  | Some company :: rest =>
      if negb (truthy (name company)) && negb (truthy (url company))
      then validateFrom now (S i) rest
      else
        validated <- validateFrom now (S i) rest ;;
        Return (normalizeCompany (now i) company :: validated)
  end.

(** [validateAndNormalizeCompanies(companies)]. *)
Definition validateAndNormalizeCompanies (now : nat -> string)
           (companies : list (option Company)) : completion (list Company) :=
  validateFrom now 0 companies.

(** *** The import handlers *)

(** What the user is shown at the end of an import. *)
Inductive importOutcome : Type :=
| NoCompanies                         (* 'contains no companies to import' *)
| NoValidCompanies                    (* 'No valid companies found' *)
| ImportComplete (total valid added skipped : nat)
| ImportError (msg : string).

(** The part shared by [handleImportJSON] and [handleImportCSV], from
    [companiesToImport] on: the panel's array, the storage and the
    outcome. *)
Definition importRecords (now : nat -> string) (companies : list Company)
           (s : Storage) (companiesToImport : list (option Company))
  : list Company * Storage * importOutcome :=
  match companiesToImport with
  | [] => (companies, s, NoCompanies)
  | _ =>
      match validateAndNormalizeCompanies now companiesToImport with
      | Throw msg => (companies, s, ImportError msg)
      | Return [] => (companies, s, NoValidCompanies)
      | Return validatedCompanies =>
          match SidePanel.importCompanies companies s validatedCompanies with
          | (companies', s', Return (added, skipped)) =>
              (companies', s',
               ImportComplete (length companiesToImport)
                              (length validatedCompanies) added skipped)
          | (companies', s', Throw msg) => (companies', s', ImportError msg)
          end
      end
  end.

(** [handleImportCSV(event)] on the text read from the file. *)
Definition handleImportCSV (now : nat -> string) (companies : list Company)
           (s : Storage) (text : string)
  : list Company * Storage * importOutcome :=
  importRecords now companies s (map Some (parseCSV text)).

(** What [JSON.parse] returned, as far as [handleImportJSON] looks. *)
Inductive parsed : Type :=
| JsonArray (items : list (option Company))
| JsonWithCompanies (items : list (option Company))
| JsonNull
| JsonOther.

(** [handleImportJSON(event)] on the parsed text. *)
Definition handleImportJSON (now : nat -> string) (companies : list Company)
           (s : Storage) (data : parsed)
  : list Company * Storage * importOutcome :=
  match data with
  | JsonArray items => importRecords now companies s items
  | JsonWithCompanies items => importRecords now companies s items
  | JsonNull =>
      (companies, s,
       ImportError
         "Cannot read properties of null (reading 'companies')")
  | JsonOther =>
      (companies, s,
       ImportError
         ("Invalid JSON format. Expected array of companies or object with "
            ++ String quote "companies" ++ String quote " array."))
  end.

End Conversions.

End Csv.

(* ================================================================= *)
(** ** Vocabulary of the properties of import and export *)

Module Exchange.

(** The first character of what follows a field is not a double quote. *)
Definition noQuoteAhead (tail : string) : bool :=
  match tail with
  | "" => true
  | String c _ => negb (Ascii.eqb c Csv.quote)
  end.

Definition noNewline (s : string) : bool :=
  negb (Str.includes (String Csv.newline "") s).

(** Nothing for [trim] to remove. *)
Definition trimmed (s : string) : bool := Str.trim s =? s.

(** A text that a cell of the exported file gives back: a string that is
    not empty, is trimmed and holds no line break. *)
Definition cellText (v : value) : bool :=
  match v with
  | VString s => negb (s =? "") && trimmed s && noNewline s
  | _ => false
  end.

(** A URL that the import leaves alone: a string, possibly empty, trimmed
    and without line break, that starts with ["http"] unless it does not
    mention a company page of the target domain. *)
Definition urlText (v : value) : bool :=
  match v with
  | VString s =>
      trimmed s && noNewline s
      && (Str.startsWith "http" s
          || negb (Str.includes "linkedin.com/company/" s))
  | _ => false
  end.

(** A record that the CSV export followed by the CSV import gives back. *)
Definition exportable (c : Company) : bool :=
  cellText (name c) && cellText (website c) && cellText (industry c)
  && cellText (phone c) && cellText (headquarters c) && urlText (url c)
  && cellText (timestamp c).

(** Every field of a record is a string. *)
Definition allStrings (c : Company) : bool :=
  isString (name c) && isString (website c) && isString (industry c)
  && isString (phone c) && isString (headquarters c) && isString (url c)
  && isString (timestamp c).

(** The records of an array that the validation keeps: those with a
    truthy name or URL. *)
Definition identified (c : Company) : bool :=
  truthy (name c) || truthy (url c).

End Exchange.

(* ================================================================= *)
(** ** The side panel's view of a run ([sidepanel.js]) *)

Module Panel.

Import Coordinator.

(** [this.state] of the panel, as far as the handlers below read or write
    it: [isRunning], [isPaused], [currentPage], [maxPages],
    [processedCompanies] and [totalCompaniesFound]. *)
Record View : Type := mkView {
  viewRunning : bool;
  viewPaused : bool;
  viewPage : Z;
  viewMaxPages : Z;
  viewProcessed : Z;
  viewFound : Z
}.

(** The panel: [this.companies] and [this.state]. *)
Record t : Type := mk {
  companies : list Company;
  state : View
}.

(** [new SidePanelUI()], before [loadInitialData]. *)
Definition create : t := mk [] (mkView false false 0 5 0 0).

(** [loadInitialData()]: the answers to [getCompanies] and [getState]. *)
Definition loadInitialData (s : Storage) (worker : State) (_ : t) : t :=
  mk (Store.getCompanies s)
     (mkView (isRunning worker) (isPaused worker) (currentPage worker)
             (maxPages worker) (processedCompanies worker)
             (totalCompaniesFound worker)).

Definition setRunning (running paused : bool) (v : View) : View :=
  mkView running paused (viewPage v) (viewMaxPages v) (viewProcessed v)
         (viewFound v).

Definition setProcessed (n : Z) (v : View) : View :=
  mkView (viewRunning v) (viewPaused v) (viewPage v) (viewMaxPages v) n
         (viewFound v).

(** [handleServiceWorkerMessage(message)], up to the updates of the
    display; the service worker sends neither [skipped] nor [queueTotal].
    The callbacks that [scrapingComplete] and [scrapingStopped] defer
    assign the two flags again. *)
Definition handleServiceWorkerMessage (message : message) (p : t)
  : completion t :=
  let v := state p in
  match message with
  | ScrapingStarted => Return (mk (companies p) (setRunning true false v))
  | StatusUpdate _ => Return p
  | CompaniesFound count page =>
      Return (mk (companies p)
                 (mkView (viewRunning v) (viewPaused v)
                         (if (page =? 0)%Z then viewPage v else page)
                         (viewMaxPages v) (viewProcessed v)
                         (viewFound v + Z.of_nat count)%Z))
  | CompanyScraped company processed =>
      dup <- SidePanel.isDuplicate (companies p) (Some company) ;;
      if dup then Return (mk (companies p) (setProcessed processed v))
      else Return (mk (companies p ++ [company])%list
                      (setProcessed processed v))
  | ScrapingComplete _ => Return (mk (companies p) (setRunning false false v))
  | ScrapingStopped _ => Return (mk (companies p) (setRunning false false v))
  | ScrapingPaused =>
      Return (mk (companies p) (setRunning (viewRunning v) true v))
  | ScrapingResumed =>
      Return (mk (companies p) (setRunning (viewRunning v) false v))
  end.

(** The notifications among the effects of the service worker, handled
    in the order in which they were sent. *)
Fixpoint receive (effects : list effect) (p : t) : completion t :=
  match effects with
  | [] => Return p
  | Notify m :: rest =>
      p' <- handleServiceWorkerMessage m p ;; receive rest p'
  | _ :: rest => receive rest p
  end.

(** [this.companies.splice(index, 1)]. *)
Definition removeAt {A} (index : nat) (l : list A) : list A :=
  (firstn index l ++ skipn (S index) l)%list.

(** [handleDeleteCompany(index)]; [confirmed] is the answer to the
    [confirm] dialog. *)
Definition handleDeleteCompany (index : Z) (confirmed : bool) (p : t)
           (s : Storage) : t * Storage :=
  if (index <? 0)%Z || (Z.of_nat (length (companies p)) <=? index)%Z
  then (p, s)
  else if negb confirmed then (p, s)
  else
    let companies' := removeAt (Z.to_nat index) (companies p) in
    let v := state p in
    let v' := if (0 <? viewProcessed v)%Z
              then setProcessed (viewProcessed v - 1)%Z v else v in
    (mk companies' v', Store.updateCompanies companies' s).

(** [handleClear()]. *)
Definition handleClear (confirmed : bool) (p : t) (s : Storage)
  : t * Storage :=
  if confirmed then (mk [] (mkView false false 0 5 0 0), Store.clearData s)
  else (p, s).

End Panel.

(* ================================================================= *)
(** ** Restart of the service worker *)

Module Startup.

Import Coordinator.



End Startup.

(* ================================================================= *)
(** ** Vocabulary of the properties of a run *)

Module Run.

Import Coordinator.

(** The records announced by [companyScraped] notifications, in order. *)
Fixpoint scraped (t : list effect) : list Company :=
  match t with
  | [] => []
  | Notify (CompanyScraped company _) :: r => company :: scraped r
  | _ :: r => scraped r
  end.

(** The events that come from the service worker's own run and from the
    start, pause, resume and stop buttons: the collection is not replaced
    from outside. *)
Fixpoint workerOnly (es : list event) : bool :=
  match es with
  | [] => true
  | UpdateCompanies _ :: _ => false
  | ClearData :: _ => false
  | _ :: r => workerOnly r
  end.

(** The activations that are about to open a detail tab. *)
Definition opening (p : pc) : bool :=
  match p with
  | AwaitTab _ _ _ => true
  | _ => false
  end.

Definition openings (c : Config) : nat :=
  length (filter opening (tasks c)).

(** [x] has added to the trace of [c] effects that announce no record,
    and stores the collection that [c] stores. *)
Definition still (c x : Config) : Prop :=
  (exists l, trace x = (trace c ++ l)%list /\ scraped l = [])
  /\ linkedin_scraper_data (storage x) = linkedin_scraper_data (storage c).

(** [x] has added to the trace of [c] effects that announce the records
    [ds], and has appended them to the collection. *)
Definition announces (c x : Config) (ds : list Company) : Prop :=
  exists l,
    trace x = (trace c ++ l)%list
    /\ scraped l = ds
    /\ Store.getCompanies (storage x)
       = (Store.getCompanies (storage c) ++ ds)%list.

(** The run flags and page counters of the persisted state are those of
    the live state. *)
Definition persisted (c : Config) : Prop :=
  forall s,
    scraper_state (storage c) = Some s ->
    isRunning s = isRunning (st c)
    /\ isPaused s = isPaused (st c)
    /\ currentPage s = currentPage (st c)
    /\ startPage s = startPage (st c)
    /\ maxPages s = maxPages (st c).

(** The fields of the state that [persisted] speaks of are the same. *)
Definition sameRun (s s' : State) : Prop :=
  isRunning s' = isRunning s /\ isPaused s' = isPaused s
  /\ currentPage s' = currentPage s /\ startPage s' = startPage s
  /\ maxPages s' = maxPages s.

(** The run is stopped, has ended, or is paused. *)
Definition halted (c : Config) : bool :=
  negb (isRunning (st c)) || isPaused (st c).

(** Neither [startScraping] nor [resumeScraping] is called. *)
Fixpoint noRestart (es : list event) : bool :=
  match es with
  | [] => true
  | Start _ _ _ _ :: _ => false
  | Resume :: _ => false
  | _ :: r => noRestart r
  end.

(** [x] has the activations of [c], has requested no tab since, and is
    halted if [c] is. *)
Definition idle (c x : Config) : Prop :=
  tasks x = tasks c
  /\ opened (trace x) = opened (trace c)
  /\ (halted c = true -> halted x = true).

(** [x] is halted, and the tabs requested so far together with the
    openings under way are no more than they were in [c]. *)
Definition bounded (c x : Config) : Prop :=
  halted x = true
  /\ length (opened (trace x)) + openings x
     <= length (opened (trace c)) + openings c.

(** A link of a listing page is known: the object built for its check is
    matched by a stored record. *)
Definition known (existing : list Company) (l : Link) : bool :=
  existsb (Spec.matches (candidate (linkUrl l) (linkName l))) existing.

(** From [s] to [s'] the counters of the run have not gone back and the
    recorded errors are kept. *)
Definition advanced (s s' : State) : Prop :=
  (processedCompanies s <= processedCompanies s')%Z
  /\ (totalCompaniesFound s <= totalCompaniesFound s')%Z
  /\ (currentPage s <= currentPage s')%Z
  /\ exists later, errors s' = (errors s ++ later)%list.

(** [x] has the counters of [c], or later ones. *)
Definition onward (c x : Config) : Prop := advanced (st c) (st x).

End Run.

(* ================================================================= *)
(** ** The other methods of [class RateLimiter] ([utils/rate-limiter.js]) *)

Module Throttle.

Import RateLimiter.

(** [setThrottled(isThrottled, duration)], up to its timer. *)
Definition setThrottled (throttled : bool) (r : t) : t :=
  mk (minDelay r) (maxDelay r) (lastRequestTime r) throttled.

(** The timer that [setThrottled(true, duration)] sets. *)
Definition unthrottle (r : t) : t :=
  mk (minDelay r) (maxDelay r) (lastRequestTime r) false.

(** [updateDelays(minDelay, maxDelay)]. *)
Definition updateDelays (lo hi : Z) (r : t) : t :=
  mk lo hi (lastRequestTime r) (isThrottled r).

(** [reset()]. *)
Definition reset (r : t) : t := mk (minDelay r) (maxDelay r) 0 false.

(** [execute(fn)]: the limiter afterwards and the outcome; [fn] is what
    the call of the function gives when it is made. *)
Definition execute {A} (r : t) (delay now after : Z) (fn : completion A)
  : t * completion A :=
  if isThrottled r
  then (r, Throw "Rate limiter is throttled. Please wait.")
  else (fst (wait r delay now after), fn).

End Throttle.

(* ================================================================= *)
(** ** The starting page ([extractPageNumberFromUrl]) *)

Module PageNumber.

Definition isDigit (c : ascii) : bool :=
  let n := nat_of_ascii c in ((48 <=? n) && (n <=? 57))%nat.

(** The longest prefix of digits: what [\d+] consumes. *)
Fixpoint digits (s : string) : string :=
  match s with
  | "" => ""
  | String c r => if isDigit c then String c (digits r) else ""
  end.

(** The number that a string of digits denotes, after [acc]. *)
Fixpoint valueOf (acc : Z) (s : string) : Z :=
  match s with
  | "" => acc
  | String c r => valueOf (10 * acc + Z.of_nat (nat_of_ascii c - 48)) r
  end.

(** [parseInt(s, 10)], [None] for [NaN]: leading white space, a sign, the
    digits that follow.  The result is the integer itself, which
    JavaScript rounds to a double of the same sign above 2^53. *)
Definition parseInt (s : string) : option Z :=
  let s := Str.trimStart s in
  let signed :=
    match s with
    | String c r =>
        if Ascii.eqb c "-" then (true, r)
        else if Ascii.eqb c "+" then (false, r)
        else (false, s)
    | "" => (false, s)
    end in
  match digits (snd signed) with
  | "" => None
  | ds => Some (if fst signed then (- valueOf 0 ds)%Z else valueOf 0 ds)
  end.

(** [pat] at the head of [s], letters compared without case. *)
Fixpoint stripPrefixIgnoreCase (pat s : string) : option string :=
  match pat, s with
  | "", _ => Some s
  | String a pat', String b s' =>
      if Ascii.eqb (Str.foldAscii b) a then stripPrefixIgnoreCase pat' s'
      else None
  | String _ _, "" => None
  end.

(** [/[?&]page[=:](\d+)/i] tried at the head of [s]: the capture group. *)
Definition pageMatchHere (s : string) : option string :=
  match s with
  | String c r =>
      if Ascii.eqb c "?" || Ascii.eqb c "&" then
        match stripPrefixIgnoreCase "page" r with
        | Some (String d t) =>
            if Ascii.eqb d "=" || Ascii.eqb d ":" then
              match digits t with
              | "" => None
              | g => Some g
              end
            else None
        | _ => None
        end
      else None
  | "" => None
  end.

(** [url.match(/[?&]page[=:](\d+)/i)], capture group 1 of the leftmost
    match. *)
Fixpoint pageMatch (s : string) : option string :=
  match pageMatchHere s with
  | Some g => Some g
  | None => match s with
            | "" => None
            | String _ r => pageMatch r
            end
  end.

(** A page number that is accepted: [!isNaN(pageNum) && pageNum > 0]. *)
Definition accepted (n : option Z) : option Z :=
  match n with
  | Some k => if (0 <? k)%Z then Some k else None
  | None => None
  end.

Section Url.

(** [new URL(url).searchParams.get('page')]: the constructor raises on a
    string that is not a URL, and [get] returns [null] without such a
    parameter. *)
Variable pageParam : string -> completion (option string).

(** [extractPageNumberFromUrl(url)]. *)
Definition extractPageNumberFromUrl (url : value) : Z :=
  if negb (truthy url) || negb (isString url) then 1%Z
  else
    match url with
    | VString u =>
        match pageParam u with
        | Throw _ => 1%Z
        | Return param =>
            let fromParam :=
              match param with
              | Some p => if p =? "" then None else accepted (parseInt p)
              | None => None
              end in
            match fromParam with
            | Some pageNum => pageNum
            | None =>
                match pageMatch u with
                | Some g =>
                    match accepted (parseInt g) with
                    | Some pageNum => pageNum
                    | None => 1%Z
                    end
                | None => 1%Z
                end
            end
        end
    | _ => 1%Z
    end.

End Url.

End PageNumber.

(* ================================================================= *)
(** ** [class ExportManager] (the export utilities) *)

Module ExportManager.

(** [a === b] on the values of record fields, which is also the
    comparison of a [Set] on them. *)
Definition strictEq (a b : value) : bool :=
  match a, b with
  | VUndefined, VUndefined => true
  | VNull, VNull => true
  | VBool x, VBool y => Bool.eqb x y
  | VNumber x, VNumber y => (x =? y)%Z
  | VString x, VString y => (x =? y)%string
  | _, _ => false
  end.

(** [set.add(v)], the elements in insertion order. *)
Definition add (set : list value) (v : value) : list value :=
  if existsb (strictEq v) set then set else (set ++ [v])%list.

(** [new Set(values)]. *)
Definition newSet (values : list value) : list value :=
  fold_left add values [].

(** The callback of the two filters: [c.x && c.x !== 'N/A']. *)
Definition present (v : value) : bool :=
  truthy v && negb (strictEqStr v "N/A").

Record Summary : Type := mkSummary {
  total : nat;
  withWebsite : nat;
  withIndustry : nat;
  unique : nat
}.

(** [getSummary(companies)]. *)
Definition getSummary (companies : list Company) : Summary :=
  mkSummary (length companies)
            (length (filter (fun c => present (website c)) companies))
            (length (filter (fun c => present (industry c)) companies))
            (length (newSet (map url companies))).

End ExportManager.

(* ================================================================= *)
(** ** [class StorageManager] ([utils/storage.js]) *)

Module StorageManager.

(** [saveCompanies(companies)]. *)
Definition saveCompanies (companies : list Company) (s : Storage) : Storage :=
  mkStorage (Some companies) (scraper_state s).

(** [getCompanies()]. *)
Definition getCompanies (s : Storage) : list Company :=
  match linkedin_scraper_data s with
  | Some l => l
  | None => []
  end.

(** The callback of [companies.some]. *)
Definition sameUrlOrName (company c : Company) : bool :=
  ExportManager.strictEq (url c) (url company)
  || ExportManager.strictEq (name c) (name company).

(** [{ ...company, timestamp: now }]. *)
Definition stamped (now : string) (company : Company) : Company :=
  mkCompany (name company) (website company) (industry company)
            (phone company) (headquarters company) (url company)
            (VString now).

(** [addCompany(company)]: the storage afterwards and [total]; [now] is
    [new Date().toISOString()]. *)
Definition addCompany (company : Company) (now : string) (s : Storage)
  : Storage * nat :=
  let companies := getCompanies s in
  if existsb (sameUrlOrName company) companies then (s, length companies)
  else
    let companies := (companies ++ [stamped now company])%list in
    (saveCompanies companies s, length companies).

(** [clearCompanies()]. *)
Definition clearCompanies (s : Storage) : Storage :=
  mkStorage None (scraper_state s).

(** No two stored records with the same URL, nor with the same name. *)
Definition distinct (s : Storage) : Prop :=
  NoDup (map url (getCompanies s)) /\ NoDup (map name (getCompanies s)).

(** Calls of [addCompany], one after the other. *)
Definition addAll (adds : list (Company * string)) (s : Storage) : Storage :=
  fold_left (fun s a => fst (addCompany (fst a) (snd a) s)) adds s.

End StorageManager.

(* ================================================================= *)
(** ** Waiting for a tab ([waitForTabLoad], [waitForTabNavigation]) *)

Module Tabs.

(** What [chrome.tabs.get] answers to one poll. *)
Inductive observation : Type :=
| TabMissing (msg : string)
| TabAt (tabUrl : string) (complete : bool).

(** [waitForTabLoad(tabId, timeout)] over the polls made so far, each
    with the clock read in it; [None] while the next poll is awaited. *)
Fixpoint waitForTabLoad (startTime timeout : Z)
         (polls : list (observation * Z)) : option (completion unit) :=
  match polls with
  | [] => None
  | (TabMissing _, _) :: _ => Some (Throw "Tab closed or not found")
  | (TabAt _ true, _) :: _ => Some (Return tt)
  | (TabAt _ false, now) :: rest =>
      if (timeout <? now - startTime)%Z then Some (Throw "Tab load timeout")
      else waitForTabLoad startTime timeout rest
  end.

(** [waitForTabNavigation(tabId, initialUrl, timeout)]. *)
Fixpoint waitForTabNavigation (initialUrl : string) (startTime timeout : Z)
         (polls : list (observation * Z)) : option (completion unit) :=
  match polls with
  | [] => None
  | (TabMissing msg, _) :: _ => Some (Throw msg)
  | (TabAt currentUrl _, now) :: rest =>
      if negb (currentUrl =? initialUrl)
         && Str.includes "linkedin.com" currentUrl
      then Some (Return tt)
      else if (timeout <? now - startTime)%Z then Some (Return tt)
      else waitForTabNavigation initialUrl startTime timeout rest
  end.

(** The polls are at least [period] apart, the first one not before
    [startTime]. *)
Fixpoint paced (period startTime : Z) (polls : list (observation * Z))
  : bool :=
  match polls with
  | [] => true
  | (_, now) :: rest =>
      (startTime <=? now)%Z && paced period (startTime + period) rest
  end.

End Tabs.

(* ================================================================= *)
(** ** The URL kept for a visited company ([extractCompanyData]) *)

Module Extractor.

(** [s.split(sep)[0]] for a separator string. *)
Fixpoint splitHeadAt (sep s : string) : string :=
  if Str.startsWith sep s then ""
  else match s with
       | "" => ""
       | String c r => String c (splitHeadAt sep r)
       end.

(** The field [url] of the extracted record:
    [window.location.href.split('?')[0].split('/about/')[0]]. *)
Definition recordUrl (href : string) : string :=
  splitHeadAt "/about/" (Str.splitHead "?" href).

(** The protocol and host of a link to a company page, up to the slash
    before the slug. *)
Definition linkHead (https www : bool) : string :=
  (if https then "https://" else "http://")
    ++ (if www then "www." else "") ++ "linkedin.com/company".

End Extractor.

(* ================================================================= *)
(** ** More concrete inputs *)

Module Samples.

Import Coordinator.

(** A printer of numbers, for records whose fields are strings. *)
Definition noNumbers (_ : Z) : string := "0".

(** The clock of an import. *)
Definition importTime (_ : nat) : string := "2024-02-02T00:00:00.000Z".

Definition twoRecords : list Company :=
  [Examples.acme; Examples.record "Beta, Gamma and Co" ""].

(** Parsed JSON: a record to be trimmed and completed, an object without
    name and URL, and a record whose name is a number. *)
Definition rawRecords : list (option Company) :=
  [Some (mkCompany (VString " Acme ") VUndefined VNull (VBool false)
                   (VNumber 0) (VString "linkedin.com/company/acme")
                   VUndefined);
   Some (mkCompany VUndefined VUndefined VUndefined VUndefined VUndefined
                   VUndefined VUndefined);
   Some (mkCompany (VNumber 7) (VString "https://seven.example") VUndefined
                   VUndefined VUndefined VUndefined (VString "t"))].

Definition validatedRecords : list Company :=
  [mkCompany (VString "Acme") (VString "N/A") (VString "N/A") (VString "N/A")
             (VString "N/A") (VString "https://linkedin.com/company/acme")
             (VString "2024-02-02T00:00:00.000Z");
   mkCompany (VString "0") (VString "https://seven.example") (VString "N/A")
             (VString "N/A") (VString "N/A") (VString "") (VString "t")].

(** A file of two rows under a header of two columns. *)
Definition csvText : string :=
  "Company,LinkedIn URL"
    ++ String Csv.newline "Acme,https://www.linkedin.com/company/acme"
    ++ String Csv.newline "Beta,".

(** A run with one item in flight. *)
Definition inFlight : list event :=
  [Start 7 true 5 1;
   Deliver 0 (InUrls (UrlsOk Examples.threeLinks));
   Deliver 0 InTick].

(** The run goes on until the first record is stored. *)
Definition firstRecord : list event :=
  [Start 7 true 5 1;
   Deliver 0 (InUrls (UrlsOk Examples.threeLinks));
   Deliver 0 InTick;
   Deliver 0 (InCreate (Created 42));
   Deliver 0 (InDetail (Extracted Examples.dataU0 None));
   Deliver 0 InTick].

(** What happens after a stop while an item is in flight. *)
Definition afterStop : list event :=
  [Deliver 0 (InCreate (Created 42));
   Deliver 0 (InDetail (Extracted Examples.dataU0 None));
   Deliver 0 InTick;
   Pause;
   Deliver 0 InTick].

(** Four polls of a tab that stays loading, half a second apart. *)
Definition slowTab : list (Tabs.observation * Z) :=
  [(Tabs.TabAt "https://www.linkedin.com/company/acme/about/" false, 0%Z);
   (Tabs.TabAt "https://www.linkedin.com/company/acme/about/" false, 500%Z);
   (Tabs.TabAt "https://www.linkedin.com/company/acme/about/" false, 1000%Z);
   (Tabs.TabAt "https://www.linkedin.com/company/acme/about/" false, 1500%Z)].

(** A listing address whose page parameter is written in capitals. *)
Definition pagedUrl : string :=
  "https://www.linkedin.com/search/results/companies/?keywords=x&PAGE=12".

(** The record extracted from the page opened for
    ["https://www.linkedin.com/company/Acme-Corp/"]. *)
Definition visited : Company :=
  Examples.record "Acme Corp" "https://www.linkedin.com/company/Acme-Corp".

End Samples.

(* ================================================================= *)
(** ** Runs with more than one activation, and other cases *)

Module Cases.

Import Coordinator.

(** A record whose name is a number and whose URL is the sentinel. *)
Definition numberNamed : Company :=
  mkCompany (VNumber 7) (VString "N/A") (VString "N/A") (VString "N/A")
            (VString "N/A") (VString "N/A")
            (VString "2024-01-01T00:00:00.000Z").

(** A run with a budget of two pages, on a page without companies, is
    stopped while its activation waits for the answer to
    [clickNextPage]. *)
Definition stoppedRun : list event :=
  [Start 7 true 2 1;
   Deliver 0 (InUrls (UrlsOk []));
   Stop].

(** The run is started again with the same budget.  The new activation
    processes its first page, clicks and reaches its second page; then
    the click of the activation left over from the stopped run is
    answered, and that activation goes on to the page it finds. *)
Definition restartedRun : list event :=
  [Start 7 true 2 1;
   Deliver 1 (InUrls (UrlsOk []));
   Deliver 1 (InClick Clicked);
   Deliver 1 (InNav OnResults);
   Deliver 0 (InClick Clicked);
   Deliver 0 (InNav OnResults)].

(** Both activations get the links of their page, none in either. *)
Definition bothFinish : list event :=
  [Deliver 1 (InUrls (UrlsOk []));
   Deliver 0 (InUrls (UrlsOk []))].

(** Item 0 is loading in tab 43 when the run is paused and resumed; the
    loop of the resume takes up item 0 too and opens tab 44 for it. *)
Definition twoTabsOpen : list event :=
  [Start 7 true 1 1;
   Deliver 0 (InUrls (UrlsOk Examples.threeLinks));
   Deliver 0 InTick;
   Deliver 0 (InCreate (Created 43));
   Pause;
   Resume;
   Deliver 1 InTick;
   Deliver 1 (InCreate (Created 44))].

(** The load in tab 43 fails. *)
Definition loadFails : event :=
  Deliver 0 (InDetail (LoadFailed "Tab load timeout")).

(** A run that has just been started on an empty store. *)
Definition started : Config :=
  step (initial Examples.emptyStorage) (Start 7 true 5 1).

(** The first item of its page is visited and stored. *)
Definition firstVisit : list event :=
  [Deliver 0 (InUrls (UrlsOk Examples.threeLinks));
   Deliver 0 InTick;
   Deliver 0 (InCreate (Created 42));
   Deliver 0 (InDetail (Extracted Examples.dataU0 None));
   Deliver 0 InTick].

End Cases.

(* ================================================================= *)
(** ** Vocabulary of the gate on the collection *)

Module Gate.

Import Spec.

(** The matcher considers two records equivalent: one of them is matched
    by the other under one of the four strategies. *)
Definition equivalent (a b : Company) : bool := matches a b || matches b a.

(** Every record that stands at position [n] or later in [cs] passed the
    gate against the records standing before it. *)
Definition gated (n : nat) (cs : list Company) : Prop :=
  forall pre r post,
    cs = (pre ++ r :: post)%list -> n <= length pre ->
    Matcher.isDuplicateCompany (Some r) pre = Return false.

(** No record that stands at position [n] or later in [cs] is equivalent
    to a record standing before it. *)
Definition apartFrom (n : nat) (cs : list Company) : Prop :=
  forall i j a b,
    i < j -> n <= j ->
    nth_error cs i = Some a -> nth_error cs j = Some b ->
    equivalent a b = false.

End Gate.

(* ================================================================= *)
(** ** Activations in flight *)

Module Activations.

Import Coordinator.

(** An activation that has not returned. *)
Definition live (p : pc) : bool :=
  match p with
  | Finished => false
  | _ => true
  end.

(** At most one activation of the scraping loops is in flight. *)
Definition solo (c : Config) : bool :=
  (length (filter live (tasks c)) <=? 1)%nat.

(** The numbers of the listing pages whose processing has begun, in
    order. *)
Fixpoint enteredPages (t : list effect) : list Z :=
  match t with
  | [] => []
  | Notify (StatusUpdate (ProcessingPage p)) :: r => p :: enteredPages r
  | _ :: r => enteredPages r
  end.

End Activations.

(* ================================================================= *)
(** ** Facts about the string primitives *)

Module StrFacts.

Import Str.

Lemma matchCompanyHere_nonempty (s g : string) :
  matchCompanyHere s = Some g -> g <> "".
Proof.
  unfold matchCompanyHere.
  destruct (stripPrefix "linkedin.com/company/" s) as [t|]; [|discriminate].
  destruct (untilSlash t); [discriminate|].
  intros H. injection H as <-. discriminate.
Qed.

Lemma matchCompanyHere_startsWith (s g : string) :
  matchCompanyHere s = Some g -> startsWith "linkedin.com/company/" s = true.
Proof.
  unfold matchCompanyHere, startsWith.
  destruct (stripPrefix "linkedin.com/company/" s); [reflexivity|discriminate].
Qed.

Lemma matchCompany_nonempty (s g : string) :
  matchCompany s = Some g -> g <> "".
Proof.
  induction s as [|c r IH]; cbn [matchCompany];
    destruct (matchCompanyHere _) as [h|] eqn:E; intros H;
    try discriminate; try (injection H as <-;
                           exact (matchCompanyHere_nonempty _ _ E)).
  auto.
Qed.

Lemma matchCompany_includes (s g : string) :
  matchCompany s = Some g -> includes "linkedin.com/company/" s = true.
Proof.
  induction s as [|c r IH]; cbn [matchCompany includes];
    destruct (matchCompanyHere _) as [h|] eqn:E; intros H;
    try discriminate;
    try (rewrite (matchCompanyHere_startsWith _ _ E); reflexivity).
  destruct (startsWith _ _); [reflexivity|auto].
Qed.

Lemma includes_false_matchCompany (s : string) :
  includes "linkedin.com/company/" s = false -> matchCompany s = None.
Proof.
  intros H. destruct (matchCompany s) as [g|] eqn:E; [|reflexivity].
  apply matchCompany_includes in E. congruence.
Qed.

End StrFacts.

(* ================================================================= *)
(** ** Facts about the duplicate matcher *)

Module MatcherFacts.

Import Matcher.

Lemma find_app_none {A} (f : A -> completion bool) (l1 l2 : list A) :
  JS.find f l1 = Return None -> JS.find f (l1 ++ l2)%list = JS.find f l2.
Proof.
  induction l1 as [|x r IH]; cbn [JS.find app]; intros H; [reflexivity|].
  destruct (f x) as [[|]|e]; try discriminate. auto.
Qed.

Lemma find_total {A} (f : A -> completion bool) (g : A -> bool) (l : list A) :
  (forall x, In x l -> f x = Return (g x)) ->
  JS.find f l = Return (List.find g l).
Proof.
  induction l as [|x r IH]; cbn [JS.find List.find]; intros H; [reflexivity|].
  rewrite (H x (or_introl eq_refl)).
  destruct (g x); [reflexivity|].
  apply IH. intros y Hy. apply H. right. exact Hy.
Qed.

Lemma found_find {A} (g : A -> bool) (l : list A) :
  found (List.find g l) = existsb g l.
Proof.
  induction l as [|x r IH]; cbn; [reflexivity|].
  destruct (g x); [reflexivity|exact IH].
Qed.

Lemma normalizeUrl_nonempty (u : value) (n : string) :
  normalizeUrl u = Some n -> n <> "".
Proof.
  unfold normalizeUrl.
  destruct (negb (truthy u) || strictEqStr u "N/A" || negb (isString u));
    [discriminate|].
  destruct u as [| | b | z | s]; try discriminate.
  set (m := Str.replaceWww _). unfold canonicalize.
  destruct (Str.includes "linkedin.com/company/" m).
  - destruct (Str.matchCompany m) as [g|].
    + intros H. injection H as <-. discriminate.
    + destruct (Str.replaceTrailingSlashes m); [discriminate|].
      intros H. injection H as <-. discriminate.
  - destruct (Str.replaceTrailingSlashes m); [discriminate|].
    intros H. injection H as <-. discriminate.
Qed.

Lemma extractCompanySlug_normalizeUrl (u : value) (g : string) :
  extractCompanySlug u = Some g ->
  exists n, normalizeUrl u = Some n /\ Str.matchCompany n = Some g.
Proof.
  unfold extractCompanySlug.
  destruct (negb (truthy u) || negb (isString u)); [discriminate|].
  destruct (normalizeUrl u) as [n|]; [|discriminate].
  intros H. exists n. split; [reflexivity|exact H].
Qed.

Lemma extractCompanySlug_null (u : value) :
  normalizeUrl u = None -> extractCompanySlug u = None.
Proof.
  unfold extractCompanySlug. intros ->.
  destruct (negb (truthy u) || negb (isString u)); reflexivity.
Qed.

(** The guard of [extractCompanySlug] repeats what [normalizeUrl] already
    tests, so the side panel's closure computes the same slug. *)
Lemma sidePanel_slug (u : value) :
  SidePanel.extractCompanySlug u = extractCompanySlug u.
Proof.
  unfold SidePanel.extractCompanySlug, extractCompanySlug.
  destruct (negb (truthy u) || negb (isString u)) eqn:G; [|reflexivity].
  assert (N : normalizeUrl u = None).
  { unfold normalizeUrl. destruct u as [| | b | z | s]; try reflexivity.
    - cbn in G |- *. destruct b; reflexivity.
    - cbn in G |- *. rewrite orb_true_r. reflexivity.
    - destruct s; [reflexivity|discriminate]. }
  rewrite N. reflexivity.
Qed.

Lemma extractCompanySlug_nonempty (u : value) (g : string) :
  extractCompanySlug u = Some g -> g <> "".
Proof.
  intros H. apply extractCompanySlug_normalizeUrl in H as (n & _ & M).
  exact (StrFacts.matchCompany_nonempty _ _ M).
Qed.

Lemma eqb_nonempty (g : string) : g <> "" -> (g =? "") = false.
Proof. intros H. apply String.eqb_neq. exact H. Qed.

(** Which values make [normalizeUrl] and [normalizeName] yield [null]. *)
Lemma normalizeUrl_null_causes (u : value) :
  truthy u = false \/ isString u = false \/ u = VString "N/A" ->
  normalizeUrl u = None.
Proof.
  unfold normalizeUrl. intros [H | [H | ->]].
  - rewrite H. reflexivity.
  - rewrite H. rewrite orb_true_r. reflexivity.
  - reflexivity.
Qed.

Lemma normalizeName_null_causes (n : value) :
  truthy n = false \/ n = VString "N/A" ->
  normalizeName n = Return None.
Proof.
  unfold normalizeName. intros [H | ->].
  - rewrite H. reflexivity.
  - reflexivity.
Qed.

(** A truthy name that is not a string makes the matcher raise. *)
Lemma normalizeName_raises (n : value) :
  truthy n = true -> isString n = false ->
  exists e, normalizeName n = Throw e.
Proof.
  unfold normalizeName. intros T S. rewrite T.
  destruct n; try discriminate; cbn; eexists; reflexivity.
Qed.

End MatcherFacts.

Module DuplicateFacts.

Import Matcher Spec MatcherFacts.

Lemma find_spec {A} (f : A -> completion bool) (l : list A) :
  (forall x, In x l -> exists b, f x = Return b) ->
  exists o, JS.find f l = Return o
            /\ (found o = true <-> exists x, In x l /\ f x = Return true).
Proof.
  induction l as [|x r IH]; intros T; cbn [JS.find].
  - exists None. split; [reflexivity|]. split; [discriminate|].
    intros (x & [] & _).
  - destruct (T x (or_introl eq_refl)) as (b & E). rewrite E.
    destruct b.
    + exists (Some x). split; [reflexivity|]. split; [|reflexivity].
      intros _. exists x. split; [left; reflexivity|exact E].
    + destruct IH as (o & F & I).
      { intros y Hy. apply T. right. exact Hy. }
      exists o. split; [exact F|]. rewrite I. split.
      * intros (y & Hy & Ey). exists y. split; [right; exact Hy|exact Ey].
      * intros (y & [<-|Hy] & Ey); [congruence|].
        exists y. split; assumption.
Qed.

Lemma matchesByUrl_total (cu : string) (slug : option string) (e : Company) :
  exists b, matchesByUrl extractCompanySlug cu slug e = Return b.
Proof.
  unfold matchesByUrl.
  destruct (normalizeUrl (url e)) as [eu|]; [|eexists; reflexivity].
  destruct (eu =? cu); [eexists; reflexivity|].
  destruct slug as [g|]; [|eexists; reflexivity].
  destruct (negb (g =? "") && Str.includes "linkedin.com/company/" eu);
    [|eexists; reflexivity].
  destruct (extractCompanySlug (url e)); eexists; reflexivity.
Qed.

Lemma matchesBySlug_total (g : string) (e : Company) :
  exists b, matchesBySlug extractCompanySlug g e = Return b.
Proof.
  unfold matchesBySlug.
  destruct (extractCompanySlug (url e)); eexists; reflexivity.
Qed.

Lemma matchesByName_total (cn : string) (e : Company) :
  nameTyped e = true -> exists b, matchesByName cn e = Return b.
Proof.
  unfold nameTyped, matchesByName.
  destruct (normalizeName (name e)) as [[en|]|]; [| |discriminate];
    intros _; cbn [bind]; [|eexists; reflexivity].
  destruct ((en =? "") || (en =? "n/a")); [eexists; reflexivity|].
  destruct (en =? cn); eexists; reflexivity.
Qed.

(** A slug can only be extracted from a domain-scoped URL. *)
Lemma slug_domainScoped (u : value) (g : string) :
  extractCompanySlug u = Some g -> domainScoped u = true.
Proof.
  intros H. apply extractCompanySlug_normalizeUrl in H as (n & U & M).
  unfold domainScoped. rewrite U.
  exact (StrFacts.matchCompany_includes _ _ M).
Qed.

Lemma matchesBySlug_spec (c e : Company) (g : string) :
  extractCompanySlug (url c) = Some g ->
  (matchesBySlug extractCompanySlug g e = Return true <-> slugMatch c e = true).
Proof.
  intros G. unfold matchesBySlug, slugMatch. rewrite G.
  rewrite (slug_domainScoped _ _ G).
  destruct (extractCompanySlug (url e)) as [h|] eqn:H.
  - rewrite (slug_domainScoped _ _ H).
    rewrite (eqb_nonempty _ (extractCompanySlug_nonempty _ _ H)).
    cbn. rewrite !andb_true_r. rewrite String.eqb_sym.
    split; [intros E; injection E; auto|intros ->; reflexivity].
  - split; discriminate.
Qed.

Lemma matchesByUrl_spec (c e : Company) (cu : string) :
  normalizeUrl (url c) = Some cu ->
  (matchesByUrl extractCompanySlug cu (extractCompanySlug (url c)) e
   = Return true
   <-> urlMatch c e = true \/ slugMatch c e = true).
Proof.
  intros U. unfold matchesByUrl, urlMatch. rewrite U.
  destruct (normalizeUrl (url e)) as [eu|] eqn:E.
  - rewrite (String.eqb_sym cu eu).
    destruct (eu =? cu) eqn:Q; [split; auto|].
    destruct (extractCompanySlug (url c)) as [g|] eqn:G.
    + rewrite (eqb_nonempty _ (extractCompanySlug_nonempty _ _ G)).
      cbn [negb andb].
      pose proof (matchesBySlug_spec c e g G) as S.
      unfold matchesBySlug in S.
      destruct (Str.includes "linkedin.com/company/" eu) eqn:I.
      * rewrite <- S.
        split; [auto|intros [D|D]; [discriminate|exact D]].
      * split; [discriminate|]. intros [D|D]; [discriminate|].
        unfold slugMatch in D. rewrite G in D.
        destruct (extractCompanySlug (url e)) as [h|] eqn:H; [|discriminate].
        pose proof (slug_domainScoped _ _ H) as DS.
        unfold domainScoped in DS. rewrite E in DS. congruence.
    + split; [discriminate|]. intros [D|D]; [discriminate|].
      unfold slugMatch in D. rewrite G in D. discriminate.
  - split; [discriminate|]. intros [D|D]; [discriminate|].
    unfold slugMatch in D.
    rewrite (extractCompanySlug_null _ E) in D.
    destruct (extractCompanySlug (url c)); discriminate.
Qed.

Lemma cleanName_empty : cleanName "" = "".
Proof. reflexivity. Qed.

Lemma cleanName_sentinel : cleanName "n/a" = "n/a".
Proof. reflexivity. Qed.

Lemma matchesByName_spec (c e : Company) (cn : string) :
  normalizeName (name c) = Return (Some cn) -> cn <> "" ->
  nameTyped e = true ->
  (matchesByName cn e = Return true
   <-> nameMatch c e = true \/ fuzzyMatch c e = true).
Proof.
  intros N NE T. unfold nameTyped in T.
  unfold matchesByName, nameMatch, fuzzyMatch, normalizedName. rewrite N.
  destruct (normalizeName (name e)) as [[en|]|] eqn:E; [| |discriminate];
    cbn [bind].
  2:{ split; [discriminate|intros [D|D]; discriminate]. }
  unfold usableName.
  destruct (en =? "") eqn:Q0.
  { apply String.eqb_eq in Q0. subst en. cbn [orb].
    split; [discriminate|]. intros [D|D].
    - apply andb_prop in D as [D _]. apply String.eqb_eq in D. congruence.
    - apply andb_prop in D as [D L]. apply String.eqb_eq in D.
      rewrite D, cleanName_empty in L. discriminate. }
  destruct (en =? "n/a") eqn:Q1.
  { apply String.eqb_eq in Q1. subst en. cbn [orb].
    split; [discriminate|]. intros [D|D].
    - apply andb_prop in D as [D U]. apply String.eqb_eq in D. subst cn.
      discriminate.
    - apply andb_prop in D as [D L]. apply String.eqb_eq in D.
      rewrite D, cleanName_sentinel in L. discriminate. }
  cbn [orb]. rewrite (String.eqb_sym cn en).
  destruct (en =? cn) eqn:Q.
  { split; [intros _|reflexivity]. left.
    apply String.eqb_eq in Q. subst en.
    rewrite Q0, Q1. reflexivity. }
  cbn [andb]. rewrite (String.eqb_sym (cleanName cn)).
  split.
  - intros D. injection D as D. right.
    apply andb_prop in D as [D L]. rewrite D. cbn [andb].
    apply String.eqb_eq in D. rewrite <- D. exact L.
  - intros [D|D]; [discriminate|].
    apply andb_prop in D as [D L]. rewrite D. cbn [andb].
    apply String.eqb_eq in D. rewrite D. rewrite L. reflexivity.
Qed.

Lemma no_name_no_match (c e : Company) :
  normalizedName c = None \/ normalizedName c = Some "" ->
  nameMatch c e = false /\ fuzzyMatch c e = false.
Proof.
  unfold nameMatch, fuzzyMatch. intros [-> | ->]; [split; reflexivity|].
  destruct (normalizedName e) as [en|]; [|split; reflexivity].
  split.
  - unfold usableName. cbn. apply andb_false_r.
  - rewrite cleanName_empty. cbn. apply andb_false_r.
Qed.

End DuplicateFacts.

Module DuplicateTheorems.

Import Matcher Spec MatcherFacts DuplicateFacts.

Lemma matches_intro (c e : Company) :
  urlMatch c e = true \/ slugMatch c e = true
  \/ nameMatch c e = true \/ fuzzyMatch c e = true ->
  matches c e = true.
Proof.
  unfold matches. intros [H | [H | [H | H]]]; rewrite H;
    rewrite ?orb_true_r; reflexivity.
Qed.

Lemma matches_elim (c e : Company) :
  matches c e = true ->
  (urlMatch c e = true \/ slugMatch c e = true)
  \/ (nameMatch c e = true \/ fuzzyMatch c e = true).
Proof.
  unfold matches. intros H.
  apply orb_prop in H as [H|H]; [|auto].
  apply orb_prop in H as [H|H]; [|auto].
  apply orb_prop in H as [H|H]; auto.
Qed.

(** The matcher, for records whose names are strings or missing, in
    relational form. *)
Lemma isDuplicate_relational (c : Company) (cs : list Company) :
  nameTyped c = true -> forallb nameTyped cs = true ->
  exists b, isDuplicateCompany (Some c) cs = Return b
            /\ (b = true <-> exists e, In e cs /\ matches c e = true).
Proof.
  intros Tc Tcs. rewrite forallb_forall in Tcs.
  unfold isDuplicateCompany, isDuplicateBody.
  unfold nameTyped in Tc.
  destruct (normalizeName (name c)) as [cn|] eqn:N; [clear Tc|discriminate].
  cbn [bind].
  (* strategy 1 *)
  assert (S1 : exists o,
             match normalizeUrl (url c) with
             | Some cu =>
                 if cu =? "" then Return None
                 else JS.find (matchesByUrl extractCompanySlug cu
                                  (extractCompanySlug (url c))) cs
             | None => Return None
             end = Return o
             /\ (found o = true <->
                 exists e, In e cs
                           /\ (urlMatch c e = true \/ slugMatch c e = true))).
  { destruct (normalizeUrl (url c)) as [cu|] eqn:U.
    - rewrite (eqb_nonempty _ (normalizeUrl_nonempty _ _ U)).
      destruct (find_spec (matchesByUrl extractCompanySlug cu
                             (extractCompanySlug (url c))) cs)
        as (o & F & I).
      { intros x _. apply matchesByUrl_total. }
      exists o. split; [exact F|]. rewrite I.
      split; intros (e & He & M); exists e; (split; [exact He|]);
        apply (matchesByUrl_spec c e cu U); exact M.
    - exists None. split; [reflexivity|]. split; [discriminate|].
      intros (e & _ & [M|M]).
      + unfold urlMatch in M. rewrite U in M. discriminate.
      + unfold slugMatch in M. rewrite (extractCompanySlug_null _ U) in M.
        discriminate. }
  destruct S1 as (o1 & -> & I1). cbn [bind].
  destruct (found o1) eqn:F1.
  { exists true. split; [reflexivity|]. split; [intros _|reflexivity].
    destruct (proj1 I1 eq_refl) as (e & He & M). exists e.
    split; [exact He|]. apply matches_intro. tauto. }
  (* strategy 2: subsumed by what strategy 1 has already excluded *)
  assert (S2 : exists o,
             match extractCompanySlug (url c) with
             | Some slug =>
                 if slug =? "" then Return None
                 else JS.find (matchesBySlug extractCompanySlug slug) cs
             | None => Return None
             end = Return o
             /\ (found o = true <->
                 exists e, In e cs /\ slugMatch c e = true)).
  { destruct (extractCompanySlug (url c)) as [g|] eqn:G.
    - rewrite (eqb_nonempty _ (extractCompanySlug_nonempty _ _ G)).
      destruct (find_spec (matchesBySlug extractCompanySlug g) cs)
        as (o & F & I).
      { intros x _. apply matchesBySlug_total. }
      exists o. split; [exact F|]. rewrite I.
      split; intros (e & He & M); exists e; (split; [exact He|]);
        apply (matchesBySlug_spec c e g G); exact M.
    - exists None. split; [reflexivity|]. split; [discriminate|].
      intros (e & _ & M). unfold slugMatch in M. rewrite G in M.
      discriminate. }
  destruct S2 as (o2 & -> & I2). cbn [bind].
  destruct (found o2) eqn:F2.
  { exists true. split; [reflexivity|]. split; [intros _|reflexivity].
    destruct (proj1 I2 eq_refl) as (e & He & M). exists e.
    split; [exact He|]. apply matches_intro. tauto. }
  (* strategy 3 *)
  assert (S3 : exists o,
             match cn with
             | Some n =>
                 if n =? "" then Return None
                 else JS.find (matchesByName n) cs
             | None => Return None
             end = Return o
             /\ (found o = true <->
                 exists e, In e cs
                           /\ (nameMatch c e = true \/ fuzzyMatch c e = true))).
  { assert (NN : normalizedName c = cn).
    { unfold normalizedName. rewrite N. reflexivity. }
    destruct cn as [n|].
    - destruct (n =? "") eqn:Q.
      + apply String.eqb_eq in Q. subst n.
        exists None. split; [reflexivity|]. split; [discriminate|].
        intros (e & _ & M).
        destruct (no_name_no_match c e (or_intror NN)) as [A B].
        destruct M; congruence.
      + apply String.eqb_neq in Q.
        destruct (find_spec (matchesByName n) cs) as (o & F & I).
        { intros x Hx. apply matchesByName_total. apply Tcs. exact Hx. }
        exists o. split; [exact F|]. rewrite I.
        split; intros (e & He & M); exists e; (split; [exact He|]);
          apply (matchesByName_spec c e n N Q (Tcs e He)); exact M.
    - exists None. split; [reflexivity|]. split; [discriminate|].
      intros (e & _ & M).
      destruct (no_name_no_match c e (or_introl NN)) as [A B].
      destruct M; congruence. }
  destruct S3 as (o3 & -> & I3). cbn [bind].
  destruct (found o3) eqn:F3.
  { exists true. split; [reflexivity|]. split; [intros _|reflexivity].
    destruct (proj1 I3 eq_refl) as (e & He & M). exists e.
    split; [exact He|]. apply matches_intro. tauto. }
  exists false. split; [reflexivity|]. split; [discriminate|].
  intros (e & He & M). apply matches_elim in M as [M|M].
  - assert (false = true) by (apply I1; exists e; auto). discriminate.
  - assert (false = true) by (apply I3; exists e; auto). discriminate.
Qed.

(** C2 (as amended).  For records whose names are strings or missing, the
    matcher answers [true] exactly when some existing record matches the
    candidate by normalized URL, by slug with both URLs domain-scoped, by
    equal normalized names that are non-empty and not ["n/a"], or by
    fuzzy name (equal cleaned names longer than 3). *)
Theorem isDuplicate_four_strategies (c : Company) (cs : list Company) :
  Spec.nameTyped c = true -> forallb Spec.nameTyped cs = true ->
  Matcher.isDuplicateCompany (Some c) cs = Return (existsb (Spec.matches c) cs).
Proof.
  intros Tc Tcs.
  destruct (isDuplicate_relational c cs Tc Tcs) as (b & -> & I).
  f_equal. destruct (existsb (matches c) cs) eqn:E.
  - apply I. apply existsb_exists. exact E.
  - destruct b; [|reflexivity].
    rewrite <- E. symmetry. apply existsb_exists. apply I. reflexivity.
Qed.

Lemma isDuplicate_four_strategies_witness :
  Spec.nameTyped (Examples.record "Acme" "") = true
  /\ forallb Spec.nameTyped [Examples.acme] = true
  /\ Matcher.isDuplicateCompany (Some (Examples.record "Acme" ""))
                                [Examples.acme]
     = Return (existsb (Spec.matches (Examples.record "Acme" ""))
                       [Examples.acme]).
Proof.
  split; [reflexivity|]. split; [reflexivity|].
  exact (isDuplicate_four_strategies
           (Examples.record "Acme" "") [Examples.acme] eq_refl eq_refl).
Defined.

(** C2 (counterexample).  Two records named ["n/a"] have equal normalized
    names, yet the matcher does not report a duplicate: the name strategy
    as stated holds and the answer is [false]. *)
Lemma equal_sentinel_names_not_duplicate :
  Spec.nameTyped Examples.lowerSentinel = true
  /\ existsb (Spec.matchesAsStated Examples.lowerSentinel)
             [Examples.lowerSentinel] = true
  /\ Matcher.isDuplicateCompany (Some Examples.lowerSentinel)
                                [Examples.lowerSentinel] = Return false.
Proof. repeat split; vm_compute; reflexivity. Qed.

Lemma find_ext {A} (f g : A -> completion bool) (l : list A) :
  (forall x, f x = g x) -> JS.find f l = JS.find g l.
Proof.
  intros E. induction l as [|x r IH]; [reflexivity|].
  cbn [JS.find]. rewrite E, IH. reflexivity.
Qed.

(** The import example of the specification: against a stored
    ["Acme Inc."], a record named ["Acme"] is a duplicate by fuzzy name
    and one named ["Acme Corp of Nevada"] is not. *)
Lemma fuzzy_name_examples :
  Matcher.isDuplicateCompany (Some (Examples.record "Acme" ""))
                             [Examples.acme] = Return true
  /\ Spec.fuzzyMatch (Examples.record "Acme" "") Examples.acme = true
  /\ Matcher.isDuplicateCompany
       (Some (Examples.record "Acme Corp of Nevada" ""))
       [Examples.acme] = Return false.
Proof. repeat split. Qed.

(** The side panel's [isDuplicate] is the same predicate. *)
Lemma sidePanel_isDuplicate (cs : list Company) (c : option Company) :
  SidePanel.isDuplicate cs c = Matcher.isDuplicateCompany c cs.
Proof.
  unfold SidePanel.isDuplicate, isDuplicateCompany.
  destruct c as [c|]; [|reflexivity].
  unfold isDuplicateBody.
  rewrite sidePanel_slug.
  assert (E1 : forall cu g,
             JS.find (matchesByUrl SidePanel.extractCompanySlug cu g) cs
             = JS.find (matchesByUrl extractCompanySlug cu g) cs).
  { intros cu g. apply find_ext. intros x. unfold matchesByUrl.
    rewrite sidePanel_slug. reflexivity. }
  assert (E2 : forall g,
             JS.find (matchesBySlug SidePanel.extractCompanySlug g) cs
             = JS.find (matchesBySlug extractCompanySlug g) cs).
  { intros g. apply find_ext. intros x. unfold matchesBySlug.
    rewrite sidePanel_slug. reflexivity. }
  destruct (normalizeName (name c)); [|reflexivity]. cbn [bind].
  destruct (normalizeUrl (url c)) as [cu|].
  - rewrite E1. destruct (extractCompanySlug (url c)) as [g|].
    + rewrite E2. reflexivity.
    + reflexivity.
  - destruct (extractCompanySlug (url c)) as [g|].
    + rewrite E2. reflexivity.
    + reflexivity.
Qed.

End DuplicateTheorems.

Module StoreTheorems.

Import Matcher Spec MatcherFacts DuplicateFacts DuplicateTheorems.

(** C10 (as amended).  A candidate whose URL is missing, not a string or
    the sentinel (or fails to normalize otherwise) and whose name is
    missing, another falsy value or the sentinel is never a duplicate,
    whatever the existing set holds: the URL, the slug and the name all
    normalize to [null], so [saveCompanyData] stores the record again and
    again; and a [null] candidate is not a duplicate either. *)
Theorem sentinel_identity_never_duplicate (c : Company) (cs : list Company) :
  truthy (url c) = false \/ isString (url c) = false
  \/ url c = VString "N/A" \/ Matcher.normalizeUrl (url c) = None ->
  truthy (name c) = false \/ name c = VString "N/A" ->
  Matcher.normalizeUrl (url c) = None
  /\ Matcher.normalizeName (name c) = Return None
  /\ Matcher.extractCompanySlug (url c) = None
  /\ Matcher.isDuplicateCompany (Some c) cs = Return false
  /\ Matcher.isDuplicateCompany None cs = Return false
  /\ (forall s, Store.saveCompanyData c s
                = Return (true, Store.setCompanies
                                  (Store.getCompanies s ++ [c])%list s)).
Proof.
  intros HU HN.
  assert (U : normalizeUrl (url c) = None).
  { destruct HU as [H|[H|[H|H]]]; [| | |exact H];
      apply normalizeUrl_null_causes; auto. }
  assert (N : normalizeName (name c) = Return None)
    by (apply normalizeName_null_causes; exact HN).
  assert (G : extractCompanySlug (url c) = None)
    by (apply extractCompanySlug_null; exact U).
  assert (D : forall l, isDuplicateCompany (Some c) l = Return false).
  { intros l. unfold isDuplicateCompany, isDuplicateBody.
    rewrite N, U, G. reflexivity. }
  repeat split; auto.
  intros s. unfold Store.saveCompanyData. rewrite D. reflexivity.
Qed.

Lemma sentinel_identity_never_duplicate_witness :
  truthy (url Examples.sentinelOnly) = false
  /\ name Examples.sentinelOnly = VString "N/A"
  /\ Matcher.isDuplicateCompany (Some Examples.sentinelOnly)
                                [Examples.sentinelOnly; Examples.acme]
     = Return false.
Proof.
  split; [reflexivity|]. split; [reflexivity|].
  exact (proj1 (proj2 (proj2 (proj2
           (sentinel_identity_never_duplicate
              Examples.sentinelOnly
              [Examples.sentinelOnly; Examples.acme]
              (or_introl eq_refl) (or_intror eq_refl)))))).
Defined.

(** C10 (counterexample).  A name that is not a string does not always
    normalize to [null]: on a record named by the number 7, with the
    sentinel as URL, [normalizeName] raises, and so does the matcher,
    instead of answering [false]. *)
Lemma number_name_raises :
  isString (name Cases.numberNamed) = false
  /\ Matcher.normalizeUrl (url Cases.numberNamed) = None
  /\ Matcher.extractCompanySlug (url Cases.numberNamed) = None
  /\ Matcher.normalizeName (name Cases.numberNamed) <> Return None
  /\ Matcher.isDuplicateCompany (Some Cases.numberNamed) [Examples.acme]
     = Throw "name.toLowerCase is not a function"
  /\ Matcher.isDuplicateCompany (Some Cases.numberNamed) [Examples.acme]
     <> Return false.
Proof.
  split; [reflexivity|]. split; [reflexivity|]. split; [reflexivity|].
  split; [discriminate|]. split; [reflexivity|discriminate].
Qed.

(** C9.  [saveCompanyData] refuses a duplicate and leaves the storage as
    it was; it appends a new record at the end and answers [true]; in
    either case the records already stored are kept as they are. *)
Theorem saveCompanyData_gate (company : Company) (s : Storage) :
  match Matcher.isDuplicateCompany (Some company) (Store.getCompanies s) with
  | Return true => Store.saveCompanyData company s = Return (false, s)
  | Return false =>
      exists s', Store.saveCompanyData company s = Return (true, s')
                 /\ Store.getCompanies s'
                    = (Store.getCompanies s ++ [company])%list
                 /\ scraper_state s' = scraper_state s
  | Throw e => Store.saveCompanyData company s = Throw e
  end
  /\ (forall b s', Store.saveCompanyData company s = Return (b, s') ->
        firstn (length (Store.getCompanies s)) (Store.getCompanies s')
        = Store.getCompanies s).
Proof.
  unfold Store.saveCompanyData.
  destruct (isDuplicateCompany (Some company) (Store.getCompanies s))
    as [[|]|e]; cbn [bind].
  - split; [reflexivity|]. intros b s' H. injection H as _ <-.
    apply firstn_all.
  - split.
    + eexists. split; [reflexivity|]. split; reflexivity.
    + intros b s' H. injection H as _ <-. cbn.
      rewrite firstn_app, firstn_all, Nat.sub_diag. cbn.
      apply app_nil_r.
  - split; [reflexivity|]. intros b s' H. discriminate.
Qed.

(** *** Gated insertions only append *)

Lemma importLoop_appends (batch cs : list Company) (a k : nat) :
  exists suffix, fst (SidePanel.importLoop cs batch a k) = (cs ++ suffix)%list.
Proof.
  revert cs a k. induction batch as [|x r IH]; intros cs a k;
    cbn [SidePanel.importLoop].
  - exists []. cbn. symmetry. apply app_nil_r.
  - destruct (SidePanel.isDuplicate cs (Some x)) as [[|]|e].
    + apply IH.
    + destruct (IH (cs ++ [x])%list (S a) k) as (t & E).
      exists (x :: t). rewrite E, <- app_assoc. reflexivity.
    + exists []. cbn. symmetry. apply app_nil_r.
Qed.

Lemma insert_appends (cs : list Company) (i : insertion) :
  exists suffix, insert cs i = (cs ++ suffix)%list.
Proof.
  destruct i as [c|batch]; cbn [insert].
  - unfold Store.saveCompanyData.
    change (Store.getCompanies (mkStorage (Some cs) None)) with cs.
    destruct (isDuplicateCompany (Some c) cs) as [[|]|e]; cbn [bind].
    + exists []. symmetry. apply app_nil_r.
    + exists [c]. reflexivity.
    + exists []. symmetry. apply app_nil_r.
  - apply importLoop_appends.
Qed.

Lemma insertAll_appends (l : list insertion) (cs : list Company) :
  exists suffix, insertAll cs l = (cs ++ suffix)%list.
Proof.
  unfold insertAll. revert cs. induction l as [|i r IH]; intros cs; cbn.
  - exists []. symmetry. apply app_nil_r.
  - destruct (insert_appends cs i) as (t & ->).
    destruct (IH (cs ++ t)%list) as (t' & ->).
    exists (t ++ t')%list. symmetry. apply app_assoc.
Qed.

(** A record with an identity that passed the gate is matched by itself,
    wherever it sits in the collection afterwards. *)
Lemma self_match_after_insertion (r : Company) (before after : list Company) :
  isDuplicateCompany (Some r) before = Return false ->
  hasIdentity r = true ->
  isDuplicateCompany (Some r) (before ++ r :: after) = Return true.
Proof.
  unfold isDuplicateCompany, isDuplicateBody, hasIdentity, normalizedName.
  destruct (normalizeName (name r)) as [cn|] eqn:N; [|discriminate].
  cbn [bind].
  destruct (normalizeUrl (url r)) as [cu|] eqn:U.
  - rewrite (eqb_nonempty _ (normalizeUrl_nonempty _ _ U)).
    destruct (JS.find (matchesByUrl extractCompanySlug cu
                         (extractCompanySlug (url r))) before)
      as [[x|]|e] eqn:F; cbn [bind found]; try discriminate.
    intros _ _. rewrite (find_app_none _ _ _ F). cbn [JS.find].
    unfold matchesByUrl at 1. rewrite U, String.eqb_refl. reflexivity.
  - rewrite (extractCompanySlug_null _ U). cbn [bind found].
    destruct cn as [n|]; [|discriminate].
    intros G I. unfold usableName in I.
    apply andb_prop in I as [I0 I1].
    apply negb_true_iff in I0. apply negb_true_iff in I1.
    rewrite I0 in G |- *.
    destruct (JS.find (matchesByName n) before) as [[x|]|e] eqn:F;
      cbn [bind found] in G; try discriminate.
    rewrite (find_app_none _ _ _ F). cbn [JS.find].
    unfold matchesByName at 1. rewrite N. cbn [bind].
    rewrite I0, I1, String.eqb_refl. reflexivity.
Qed.

(** C1 (counterexample).  A record holding only sentinels passes the gate,
    is stored, and is still not a duplicate of the collection that now
    contains it: a second gated insertion stores it twice. *)
Lemma sentinel_record_inserted_twice :
  Spec.insert [] (Spec.BySave Examples.sentinelOnly) = [Examples.sentinelOnly]
  /\ Matcher.isDuplicateCompany (Some Examples.sentinelOnly)
                                [Examples.sentinelOnly] = Return false
  /\ Spec.insertAll [] [Spec.BySave Examples.sentinelOnly;
                        Spec.BySave Examples.sentinelOnly]
     = [Examples.sentinelOnly; Examples.sentinelOnly]
  /\ Spec.insertAll [] [Spec.ByImport [Examples.sentinelOnly];
                        Spec.ByImport [Examples.sentinelOnly]]
     = [Examples.sentinelOnly; Examples.sentinelOnly].
Proof. repeat split. Qed.

End StoreTheorems.

Module UrlFacts.

Import Str Spec Matcher.

Lemma append_assoc (a b c : string) : (a ++ b) ++ c = a ++ (b ++ c).
Proof. induction a as [|x r IH]; cbn; [reflexivity|]. rewrite IH. reflexivity. Qed.

Lemma append_nil_r (a : string) : a ++ "" = a.
Proof. induction a as [|x r IH]; cbn; [reflexivity|]. rewrite IH. reflexivity. Qed.

Lemma toLowerCase_app (a b : string) :
  toLowerCase (a ++ b) = toLowerCase a ++ toLowerCase b.
Proof. induction a as [|x r IH]; cbn; [reflexivity|]. rewrite IH. reflexivity. Qed.

(** *** Character facts, by enumeration of the 256 code points *)

Lemma toLowerChar_slash (c : ascii) :
  isSlash (toLowerChar c) = isSlash c.
Proof. destruct c as [[] [] [] [] [] [] [] []]; reflexivity. Qed.

Lemma toLowerChar_plain (c : ascii) :
  plainChar (toLowerChar c) = plainChar c.
Proof. destruct c as [[] [] [] [] [] [] [] []]; reflexivity. Qed.

Lemma slash_plain (c : ascii) : isSlash c = true -> plainChar c = true.
Proof.
  destruct c as [[] [] [] [] [] [] [] []]; vm_compute; intros H;
    (reflexivity || discriminate).
Qed.

(** *** Plain strings pass the first steps unchanged *)

Lemma plain_app (a b : string) : plain (a ++ b) = plain a && plain b.
Proof.
  induction a as [|x r IH]; cbn; [reflexivity|].
  rewrite IH. apply andb_assoc.
Qed.

Lemma plain_slashes (k : nat) : plain (slashes k) = true.
Proof. induction k; [reflexivity|exact IHk]. Qed.

Lemma plain_toLowerCase (s : string) : plain (toLowerCase s) = plain s.
Proof.
  induction s as [|x r IH]; cbn; [reflexivity|].
  rewrite toLowerChar_plain, IH. reflexivity.
Qed.

Lemma toLowerCase_slashes (k : nat) : toLowerCase (slashes k) = slashes k.
Proof. induction k; cbn; [reflexivity|]. rewrite IHk. reflexivity. Qed.

Lemma plainChar_parts (c : ascii) :
  plainChar c = true ->
  isWhiteSpace c = false /\ Ascii.eqb c "?" = false /\ Ascii.eqb c "#" = false.
Proof.
  unfold plainChar. intros H.
  apply andb_prop in H as [H H3]. apply andb_prop in H as [H1 H2].
  repeat split; apply negb_true_iff; assumption.
Qed.

Lemma splitHead_query (x q : string) :
  plain x = true -> isQuery q = true ->
  splitHead "#" (splitHead "?" (x ++ q)) = x.
Proof.
  intros P Q. induction x as [|c r IH]; cbn [append].
  - destruct q as [|d t]; [reflexivity|]. cbn in Q.
    cbn [splitHead]. destruct (Ascii.eqb d "?") eqn:E; [reflexivity|].
    cbn in Q. cbn [splitHead]. rewrite Q. reflexivity.
  - cbn in P. apply andb_prop in P as [Pc Pr].
    destruct (plainChar_parts _ Pc) as (_ & E1 & E2).
    cbn [splitHead]. rewrite E1. cbn [splitHead]. rewrite E2.
    rewrite (IH Pr). reflexivity.
Qed.

Lemma trimEnd_plain (x : string) : plain x = true -> trimEnd x = x.
Proof.
  induction x as [|c r IH]; [reflexivity|]. cbn [plain trimEnd].
  intros P. apply andb_prop in P as [Pc Pr].
  destruct (plainChar_parts _ Pc) as (W & _ & _).
  rewrite (IH Pr), W. destruct r; reflexivity.
Qed.

Lemma trim_plain (x : string) : plain x = true -> trim x = x.
Proof.
  intros P. unfold trim.
  assert (S : trimStart x = x).
  { destruct x as [|c r]; [reflexivity|]. cbn in P |- *.
    apply andb_prop in P as [Pc _].
    destruct (plainChar_parts _ Pc) as (W & _ & _). rewrite W. reflexivity. }
  rewrite S. apply trimEnd_plain. exact P.
Qed.

(** *** Trailing slashes *)

Lemma allSlashes_slashes (k : nat) : allSlashes (slashes k) = true.
Proof. induction k; [reflexivity|exact IHk]. Qed.

Lemma allSlashes_app (a b : string) :
  allSlashes (a ++ b) = allSlashes a && allSlashes b.
Proof.
  induction a as [|x r IH]; cbn; [reflexivity|].
  rewrite IH. apply andb_assoc.
Qed.

Lemma replaceTrailingSlashes_all (t : string) :
  allSlashes t = true -> replaceTrailingSlashes t = "".
Proof.
  destruct t as [|c r]; [reflexivity|]. intros H.
  cbn [replaceTrailingSlashes]. rewrite H. reflexivity.
Qed.

Lemma replaceTrailingSlashes_app (n t : string) :
  allSlashes t = true ->
  replaceTrailingSlashes (n ++ t) = replaceTrailingSlashes n.
Proof.
  intros T. induction n as [|c r IH]; cbn [append].
  - rewrite (replaceTrailingSlashes_all _ T). reflexivity.
  - cbn [replaceTrailingSlashes].
    change (allSlashes (String c (r ++ t)))
      with (isSlash c && allSlashes (r ++ t)).
    change (allSlashes (String c r)) with (isSlash c && allSlashes r).
    rewrite allSlashes_app, T, andb_true_r, IH. reflexivity.
Qed.

Lemma untilSlash_all (t : string) : allSlashes t = true -> untilSlash t = "".
Proof.
  destruct t as [|c r]; [reflexivity|]. cbn.
  intros H. apply andb_prop in H as [H _]. rewrite H. reflexivity.
Qed.

Lemma untilSlash_app_slashes (r t : string) :
  allSlashes t = true -> untilSlash (r ++ t) = untilSlash r.
Proof.
  intros T. induction r as [|c r IH]; cbn [append untilSlash].
  - apply untilSlash_all. exact T.
  - rewrite IH. reflexivity.
Qed.

Lemma stripPrefix_app (p s t r : string) :
  stripPrefix p s = Some r -> stripPrefix p (s ++ t) = Some (r ++ t).
Proof.
  revert s. induction p as [|a p IH]; intros s; cbn [stripPrefix].
  - intros H. injection H as <-. reflexivity.
  - destruct s as [|b s]; [discriminate|]. cbn [append stripPrefix].
    destruct (Ascii.eqb a b); [apply IH|discriminate].
Qed.

Lemma stripPrefix_slashes (p t r : string) :
  allSlashes t = true -> stripPrefix p t = Some r -> allSlashes r = true.
Proof.
  revert t. induction p as [|a p IH]; intros t T; cbn [stripPrefix].
  - intros H. injection H as <-. exact T.
  - destruct t as [|b t]; [discriminate|].
    cbn in T. apply andb_prop in T as [_ T].
    destruct (Ascii.eqb a b); [apply IH; exact T|discriminate].
Qed.

(** A prefix that fails on [s] either still fails on [s] followed by
    slashes or leaves only slashes. *)
Lemma stripPrefix_none_app (p s t : string) :
  allSlashes t = true -> stripPrefix p s = None ->
  match stripPrefix p (s ++ t) with
  | Some r => allSlashes r = true
  | None => True
  end.
Proof.
  intros T. revert s. induction p as [|a p IH]; intros s H.
  - discriminate.
  - destruct s as [|b s].
    + cbn [append].
      destruct (stripPrefix (String a p) t) as [r|] eqn:E; [|exact I].
      exact (stripPrefix_slashes _ _ _ T E).
    + cbn [append stripPrefix] in H |- *.
      destruct (Ascii.eqb a b); [apply IH; exact H|exact I].
Qed.

Lemma matchCompanyHere_app (s t : string) :
  allSlashes t = true -> matchCompanyHere (s ++ t) = matchCompanyHere s.
Proof.
  intros T. unfold matchCompanyHere.
  destruct (stripPrefix "linkedin.com/company/" s) as [r|] eqn:E.
  - rewrite (stripPrefix_app _ _ t _ E).
    rewrite (untilSlash_app_slashes _ _ T). reflexivity.
  - pose proof (stripPrefix_none_app _ _ _ T E) as H.
    destruct (stripPrefix "linkedin.com/company/" (s ++ t)) as [r|];
      [|reflexivity].
    rewrite (untilSlash_all _ H). reflexivity.
Qed.

Lemma matchCompany_slashes (t : string) :
  allSlashes t = true -> matchCompany t = None.
Proof.
  induction t as [|c r IH]; [reflexivity|]. intros T.
  cbn [matchCompany].
  pose proof (matchCompanyHere_app "" (String c r) T) as H.
  cbn [append] in H. rewrite H. cbn.
  cbn in T. apply andb_prop in T as [_ T]. exact (IH T).
Qed.

Lemma matchCompany_app (n t : string) :
  allSlashes t = true -> matchCompany (n ++ t) = matchCompany n.
Proof.
  intros T. induction n as [|c r IH]; cbn [append].
  - rewrite (matchCompany_slashes _ T). reflexivity.
  - cbn [matchCompany].
    pose proof (matchCompanyHere_app (String c r) t T) as H.
    cbn [append] in H. rewrite H, IH. reflexivity.
Qed.

(** *** The end of [normalizeUrl] *)

(** The test [includes] is implied by a successful match. *)
Lemma canonicalize_match (n : string) :
  canonicalize n =
  match matchCompany n with
  | Some slug => Some ("linkedin.com/company/" ++ slug)
  | None => orNull (replaceTrailingSlashes n)
  end.
Proof.
  unfold canonicalize, orNull.
  destruct (matchCompany n) as [g|] eqn:M.
  - rewrite (StrFacts.matchCompany_includes _ _ M). reflexivity.
  - destruct (includes "linkedin.com/company/" n);
      destruct (replaceTrailingSlashes n); reflexivity.
Qed.

Lemma canonicalize_app (n t : string) :
  allSlashes t = true -> canonicalize (n ++ t) = canonicalize n.
Proof.
  intros T. rewrite !canonicalize_match.
  rewrite (matchCompany_app _ _ T), (replaceTrailingSlashes_app _ _ T).
  reflexivity.
Qed.

(** *** The prefix replacements *)

Lemma noSlash_stripPrefix_app (p n t : string) :
  noSlash p = true -> allSlashes t = true ->
  stripPrefix p n = None -> stripPrefix p (n ++ t) = None.
Proof.
  intros P T. revert n. induction p as [|a p IH]; intros n;
    cbn [stripPrefix]; [discriminate|].
  cbn in P. apply andb_prop in P as [Pa Pp].
  destruct n as [|b n]; cbn [append].
  - intros _. destruct t as [|d t]; [reflexivity|].
    cbn in T. apply andb_prop in T as [Td _].
    cbn [stripPrefix]. destruct (Ascii.eqb a d) eqn:E; [|reflexivity].
    apply Ascii.eqb_eq in E. subst d. rewrite Td in Pa. discriminate.
  - cbn [stripPrefix]. destruct (Ascii.eqb a b); [apply IH; exact Pp|reflexivity].
Qed.

Lemma replaceWww_app (n t : string) :
  startsWith "www." n = false -> allSlashes t = true ->
  replaceWww (n ++ t) = n ++ t.
Proof.
  unfold startsWith, replaceWww. intros H T.
  destruct (stripPrefix "www." n) eqn:E; [discriminate|].
  rewrite (noSlash_stripPrefix_app "www." n t eq_refl T E). reflexivity.
Qed.

(** *** Normal form of an assembled URL *)

Lemma normalizeUrl_urlOf (https www : bool) (body : string) (k : nat)
      (q : string) :
  plain body = true ->
  startsWith "www." (toLowerCase body) = false ->
  isQuery q = true ->
  normalizeUrl (VString (urlOf https www body k q))
  = canonicalize (toLowerCase body).
Proof.
  intros P W Q.
  set (x := (if www then "www." else "") ++ body ++ slashes k).
  assert (Px : plain x = true).
  { unfold x. rewrite !plain_app, P, plain_slashes.
    destruct www; reflexivity. }
  assert (E : urlOf https www body k q
              = (if https then "https://" else "http://") ++ x ++ q).
  { unfold urlOf, x. rewrite !append_assoc. reflexivity. }
  rewrite E. clear E.
  assert (N : toLowerCase x
              = (if www then "www." else "") ++ toLowerCase body ++ slashes k).
  { unfold x. rewrite !toLowerCase_app, toLowerCase_slashes.
    destruct www; reflexivity. }
  assert (R : replaceWww (toLowerCase x) = toLowerCase body ++ slashes k).
  { rewrite N. destruct www.
    - reflexivity.
    - cbn [append]. apply replaceWww_app; [exact W|apply allSlashes_slashes]. }
  assert (S : forall p, plain p = true ->
              toLowerCase (trim (splitHead "#" (splitHead "?" (p ++ x ++ q))))
              = toLowerCase p ++ toLowerCase x).
  { intros p Pp. rewrite <- append_assoc.
    rewrite splitHead_query; [|rewrite plain_app, Pp, Px; reflexivity|exact Q].
    rewrite trim_plain; [|rewrite plain_app, Pp, Px; reflexivity].
    apply toLowerCase_app. }
  unfold normalizeUrl.
  destruct https.
  - change (negb (truthy (VString ("https://" ++ x ++ q)))
            || strictEqStr (VString ("https://" ++ x ++ q)) "N/A"
            || negb (isString (VString ("https://" ++ x ++ q)))) with false.
    cbv iota. rewrite (S "https://" eq_refl).
    change (replaceProtocol (toLowerCase "https://" ++ toLowerCase x))
      with (toLowerCase x).
    rewrite R. apply canonicalize_app. apply allSlashes_slashes.
  - change (negb (truthy (VString ("http://" ++ x ++ q)))
            || strictEqStr (VString ("http://" ++ x ++ q)) "N/A"
            || negb (isString (VString ("http://" ++ x ++ q)))) with false.
    cbv iota. rewrite (S "http://" eq_refl).
    change (replaceProtocol (toLowerCase "http://" ++ toLowerCase x))
      with (toLowerCase x).
    rewrite R. apply canonicalize_app. apply allSlashes_slashes.
Qed.

End UrlFacts.

Module UrlTheorems.

Import Str Spec Matcher UrlFacts.

Lemma noSlash_toLowerCase (s : string) : noSlash (toLowerCase s) = noSlash s.
Proof.
  induction s as [|c r IH]; cbn; [reflexivity|].
  rewrite toLowerChar_slash, IH. reflexivity.
Qed.

Lemma isSubPath_app_slashes (sub : string) (k : nat) :
  isSubPath sub = true -> isSubPath (toLowerCase sub ++ slashes k) = true.
Proof.
  destruct sub as [|c r]; cbn.
  - intros _. destruct k; reflexivity.
  - rewrite toLowerChar_slash. auto.
Qed.

Lemma untilSlash_app_sub (a b : string) :
  noSlash a = true -> isSubPath b = true -> untilSlash (a ++ b) = a.
Proof.
  intros A B. induction a as [|c r IH]; cbn [append].
  - destruct b as [|d t]; [reflexivity|]. cbn in B |- *. rewrite B. reflexivity.
  - cbn in A. apply andb_prop in A as [Ac Ar]. apply negb_true_iff in Ac.
    cbn [untilSlash]. rewrite Ac, (IH Ar). reflexivity.
Qed.

Lemma matchCompany_detail (slug rest : string) :
  slug <> "" -> noSlash slug = true -> isSubPath rest = true ->
  matchCompany ("linkedin.com/company/" ++ slug ++ rest) = Some slug.
Proof.
  intros NE NS SP.
  change ("linkedin.com/company/" ++ slug ++ rest)
    with (String "l" ("inkedin.com/company/" ++ slug ++ rest)).
  cbn [matchCompany].
  change (String "l" ("inkedin.com/company/" ++ slug ++ rest))
    with ("linkedin.com/company/" ++ slug ++ rest).
  unfold matchCompanyHere.
  change (stripPrefix "linkedin.com/company/"
                      ("linkedin.com/company/" ++ slug ++ rest))
    with (Some (slug ++ rest)).
  cbv iota beta. rewrite (untilSlash_app_sub _ _ NS SP).
  destruct slug; [contradiction|reflexivity].
Qed.

(** C6 (as amended).  Take a URL body without white space, ['?'] or ['#']
    whose lower-case form does not itself begin with ["www."].  All URLs
    assembled from it with either protocol, with or without one leading
    ["www."], with any number of trailing slashes and any query or
    fragment normalize identically.  When the body is a detail page of
    the target domain, whatever sub-path follows the slug, the result is
    the canonical ["linkedin.com/company/<slug>"]; when the body does not
    mention the target domain's company pages, the result is the
    lower-cased body without its trailing slashes, sub-path kept. *)
Theorem normalizeUrl_variants (body : string) :
  Spec.plain body = true ->
  Str.startsWith "www." (Str.toLowerCase body) = false ->
  (forall h1 w1 k1 q1 h2 w2 k2 q2,
      Spec.isQuery q1 = true -> Spec.isQuery q2 = true ->
      Matcher.normalizeUrl (VString (Spec.urlOf h1 w1 body k1 q1))
      = Matcher.normalizeUrl (VString (Spec.urlOf h2 w2 body k2 q2)))
  /\ (forall slug sub,
         body = "linkedin.com/company/" ++ slug ++ sub ->
         slug <> "" -> Spec.noSlash slug = true ->
         Spec.isSubPath sub = true ->
         forall h w k q, Spec.isQuery q = true ->
           Matcher.normalizeUrl (VString (Spec.urlOf h w body k q))
           = Some ("linkedin.com/company/" ++ Str.toLowerCase slug))
  /\ (Str.includes "linkedin.com/company/" (Str.toLowerCase body) = false ->
      forall h w k q, Spec.isQuery q = true ->
        Matcher.normalizeUrl (VString (Spec.urlOf h w body k q))
        = Spec.orNull (Str.replaceTrailingSlashes (Str.toLowerCase body))).
Proof.
  intros P W. split; [|split].
  - intros h1 w1 k1 q1 h2 w2 k2 q2 Q1 Q2.
    rewrite !normalizeUrl_urlOf by assumption. reflexivity.
  - intros slug sub -> NE NS SP h w k q Q.
    rewrite normalizeUrl_urlOf by assumption.
    rewrite canonicalize_match.
    rewrite !toLowerCase_app.
    change (toLowerCase "linkedin.com/company/") with "linkedin.com/company/".
    pose proof (isSubPath_app_slashes sub 0 SP) as SP'.
    cbn [slashes] in SP'. rewrite append_nil_r in SP'.
    rewrite matchCompany_detail; [reflexivity| |rewrite noSlash_toLowerCase; exact NS|exact SP'].
    destruct slug; [contradiction|discriminate].
  - intros I h w k q Q.
    rewrite normalizeUrl_urlOf by assumption.
    rewrite canonicalize_match.
    rewrite (StrFacts.includes_false_matchCompany _ I). reflexivity.
Qed.

Lemma normalizeUrl_variants_witness :
  Spec.plain "linkedin.com/company/Acme-Corp/about/" = true
  /\ Str.startsWith "www."
       (Str.toLowerCase "linkedin.com/company/Acme-Corp/about/") = false
  /\ Matcher.normalizeUrl
       (VString "https://www.linkedin.com/company/Acme-Corp/about/?trk=x")
     = Matcher.normalizeUrl
         (VString "http://linkedin.com/company/Acme-Corp/about///").
Proof.
  split; [reflexivity|]. split; [reflexivity|].
  exact (proj1 (normalizeUrl_variants
                  "linkedin.com/company/Acme-Corp/about/" eq_refl eq_refl)
               true true 0 "?trk=x" false false 2 "" eq_refl eq_refl).
Defined.

(** C6 (counterexample).  Two URLs that differ only by a leading ["www."]
    normalize differently when the rest begins with ["www."] itself: only
    one prefix is removed.  Two URLs that differ only by a trailing slash
    normalize differently when the slash follows a space: the string is
    trimmed before the slashes are removed. *)
Lemma double_www_not_identified :
  Matcher.normalizeUrl (VString "https://www.www.example.com")
  = Some "www.example.com"
  /\ Matcher.normalizeUrl (VString "https://www.example.com")
     = Some "example.com"
  /\ Matcher.normalizeUrl (VString ("https://" ++ "www." ++ "www.example.com"))
     <> Matcher.normalizeUrl (VString ("https://" ++ "www.example.com"))
  /\ Matcher.normalizeUrl (VString ("https://example.com " ++ "/"))
     <> Matcher.normalizeUrl (VString "https://example.com ").
Proof. repeat split; discriminate. Qed.

(** Protocols alone never matter, whatever follows. *)
Lemma normalizeUrl_protocol (r : string) :
  Matcher.normalizeUrl (VString ("http://" ++ r))
  = Matcher.normalizeUrl (VString ("https://" ++ r)).
Proof.
  unfold normalizeUrl.
  change (negb (truthy (VString ("http://" ++ r)))
          || strictEqStr (VString ("http://" ++ r)) "N/A"
          || negb (isString (VString ("http://" ++ r)))) with false.
  change (negb (truthy (VString ("https://" ++ r)))
          || strictEqStr (VString ("https://" ++ r)) "N/A"
          || negb (isString (VString ("https://" ++ r)))) with false.
  cbv iota.
  assert (S : forall p, plain p = true -> p <> "" ->
              toLowerCase (trim (splitHead "#" (splitHead "?" (p ++ r))))
              = toLowerCase p
                ++ toLowerCase (trimEnd (splitHead "#" (splitHead "?" r)))).
  { intros p Pp NE. rewrite <- toLowerCase_app. f_equal.
    induction p as [|c p IH]; [contradiction|].
    cbn in Pp. apply andb_prop in Pp as [Pc Pp].
    destruct (plainChar_parts _ Pc) as (Wc & E1 & E2).
    cbn [append splitHead]. rewrite E1. cbn [splitHead]. rewrite E2.
    unfold trim. cbn [trimStart]. rewrite Wc.
    destruct p as [|d p].
    - cbn [append]. cbn [trimEnd]. rewrite Wc.
      destruct (trimEnd (splitHead "#" (splitHead "?" r))); reflexivity.
    - assert (H : trim (splitHead "#" (splitHead "?" (String d p ++ r)))
                  = String d p
                    ++ trimEnd (splitHead "#" (splitHead "?" r)))
        by (apply IH; [exact Pp|discriminate]).
      cbn in Pp. apply andb_prop in Pp as [Pd Pp].
      destruct (plainChar_parts _ Pd) as (Wd & D1 & D2).
      unfold trim in H. cbn [append splitHead] in H. rewrite D1 in H.
      cbn [splitHead] in H. rewrite D2 in H. cbn [trimStart] in H.
      rewrite Wd in H.
      cbn [append splitHead]. rewrite D1. cbn [splitHead]. rewrite D2.
      cbn [trimEnd] in H |- *. cbn [append]. rewrite H. reflexivity. }
  rewrite (S "http://" eq_refl), (S "https://" eq_refl) by discriminate.
  reflexivity.
Qed.

End UrlTheorems.

Module RateLimitTheorems.

Local Open Scope Z_scope.

(** Within the delay period, [RateLimiter.wait] sleeps for the remainder. *)
Lemma wait_remainder (r : RateLimiter.t) (delay now after : Z) :
  now - RateLimiter.lastRequestTime r < delay ->
  snd (RateLimiter.wait r delay now after)
  = delay - (now - RateLimiter.lastRequestTime r)
  /\ 0 < snd (RateLimiter.wait r delay now after).
Proof.
  intros H. cbn [RateLimiter.wait snd]. unfold RateLimiter.actualDelay.
  destruct (Z.ltb_spec (now - RateLimiter.lastRequestTime r) delay); lia.
Qed.

(** After an idle period, [RateLimiter.wait] does not sleep at all. *)
Lemma wait_after_idle (r : RateLimiter.t) (delay now after : Z) :
  delay <= now - RateLimiter.lastRequestTime r ->
  snd (RateLimiter.wait r delay now after) = 0.
Proof.
  intros H. cbn [RateLimiter.wait snd]. unfold RateLimiter.actualDelay.
  destruct (Z.ltb_spec (now - RateLimiter.lastRequestTime r) delay); lia.
Qed.

(** The coordinator's own [waitWithRateLimit] does keep a floor: for a
    sampled delay of at least 2000 ms (its limits are fixed at 5000 and
    10000 ms, jitter 10%), it waits the remainder within the delay
    period and exactly 2000 ms after an idle period. *)
Lemma waitWithRateLimit_floor (r : Coordinator.Limiter) (delay now after : Z) :
  2000 <= delay ->
  let elapsed := now - Coordinator.lastRequestTime r in
  let actual := snd (Coordinator.waitWithRateLimit r delay now after) in
  (elapsed < delay -> actual = delay - elapsed)
  /\ (delay <= elapsed -> actual = 2000)
  /\ 0 < actual.
Proof.
  intros H elapsed actual. subst elapsed actual.
  cbn [Coordinator.waitWithRateLimit snd]. unfold Coordinator.actualDelay.
  destruct (Z.ltb_spec (now - Coordinator.lastRequestTime r) delay); lia.
Qed.

(** [Math.min(delay, 2000)] is a cap, not a floor: were the sampled delay
    below 2000 ms, the wait after an idle period would be that delay. *)
Lemma waitWithRateLimit_cap (r : Coordinator.Limiter) (delay now after : Z) :
  delay <= now - Coordinator.lastRequestTime r ->
  snd (Coordinator.waitWithRateLimit r delay now after) = Z.min delay 2000.
Proof.
  intros H. cbn [Coordinator.waitWithRateLimit snd].
  unfold Coordinator.actualDelay.
  destruct (Z.ltb_spec (now - Coordinator.lastRequestTime r) delay); lia.
Qed.

(** C5 (the code at the failing input).  The first [wait()] of a fresh
    [RateLimiter], with a sampled delay of 7000 ms: the time since the
    last request (the epoch) exceeds the delay and the wait is 0 ms,
    where the coordinator's [waitWithRateLimit] waits 2000 ms on the same
    input. *)
Theorem rateLimiter_first_wait_is_zero :
  RateLimiter.lastRequestTime RateLimiter.create
  = Coordinator.lastRequestTime Coordinator.initialLimiter
  /\ snd (RateLimiter.wait RateLimiter.create
                           7000 1700000000000 1700000000000) = 0
  /\ snd (Coordinator.waitWithRateLimit Coordinator.initialLimiter
                                        7000 1700000000000 1700000000000)
     = 2000.
Proof.
  split; [reflexivity|]. split.
  - apply wait_after_idle. cbn. lia.
  - destruct (waitWithRateLimit_floor Coordinator.initialLimiter
                7000 1700000000000 1700000000000) as (_ & F & _); [lia|].
    apply F. cbn. lia.
Qed.

(** Both limiters record the clock reading taken after the wait. *)
Lemma wait_updates_timestamp (r : RateLimiter.t) (delay now after : Z) :
  RateLimiter.lastRequestTime (fst (RateLimiter.wait r delay now after)) = after.
Proof. reflexivity. Qed.

End RateLimitTheorems.

Module CoordinatorFacts.

Import Coordinator Spec.

(** *** Lists of activations *)

Lemma nth_error_setNth {A} (l : list A) (n : nat) (x y : A) :
  nth_error l n = Some x -> nth_error (setNth n y l) n = Some y.
Proof.
  revert n. induction l as [|a r IH]; intros [|n]; cbn; try discriminate.
  - reflexivity.
  - apply IH.
Qed.

Lemma setNth_same {A} (l : list A) (n : nat) (x : A) :
  nth_error l n = Some x -> setNth n x l = l.
Proof.
  revert n. induction l as [|a r IH]; intros [|n]; cbn; try discriminate.
  - intros H. injection H as ->. reflexivity.
  - intros H. rewrite (IH _ H). reflexivity.
Qed.

Lemma setNth_setNth {A} (l : list A) (n : nat) (x y : A) :
  setNth n y (setNth n x l) = setNth n y l.
Proof.
  revert n. induction l as [|a r IH]; intros [|n]; cbn; try reflexivity.
  rewrite IH. reflexivity.
Qed.

Lemma forallb_setNth {A} (f : A -> bool) (l : list A) (n : nat) (y : A) :
  forallb f l = true -> f y = true -> forallb f (setNth n y l) = true.
Proof.
  revert n. induction l as [|a r IH]; intros [|n]; cbn; try reflexivity.
  - intros H Y. apply andb_prop in H as [_ H]. rewrite Y, H. reflexivity.
  - intros H Y. apply andb_prop in H as [Ha H]. rewrite Ha. cbn. apply IH; assumption.
Qed.

(** *** Projections of the helpers *)

Lemma st_closeActiveTab (c : Config) : st (closeActiveTab c) = st c.
Proof.
  unfold closeActiveTab. destruct (activeTabId c) as [t|]; [|reflexivity].
  destruct (t =? 0)%nat; reflexivity.
Qed.

Lemma tasks_closeActiveTab (c : Config) : tasks (closeActiveTab c) = tasks c.
Proof.
  unfold closeActiveTab. destruct (activeTabId c) as [t|]; [|reflexivity].
  destruct (t =? 0)%nat; reflexivity.
Qed.

Lemma storage_closeActiveTab (c : Config) :
  storage (closeActiveTab c) = storage c.
Proof.
  unfold closeActiveTab. destruct (activeTabId c) as [t|]; [|reflexivity].
  destruct (t =? 0)%nat; reflexivity.
Qed.

Lemma pagesEntered_app (a b : list effect) :
  pagesEntered (a ++ b) = pagesEntered a + pagesEntered b.
Proof.
  unfold pagesEntered. rewrite filter_app, length_app. reflexivity.
Qed.

Lemma pagesEntered_emit (e : effect) (c : Config) :
  isPageEntry e = false ->
  pagesEntered (trace (emit e c)) = pagesEntered (trace c).
Proof.
  intros E. cbn [emit trace]. rewrite pagesEntered_app.
  unfold pagesEntered at 2. cbn [filter]. rewrite E. cbn. lia.
Qed.

Lemma pagesEntered_closeActiveTab (c : Config) :
  pagesEntered (trace (closeActiveTab c)) = pagesEntered (trace c).
Proof.
  unfold closeActiveTab. destruct (activeTabId c) as [t|]; [|reflexivity].
  destruct (t =? 0)%nat; [reflexivity|].
  exact (pagesEntered_emit (TabsRemove t) c eq_refl).
Qed.

Lemma st_completeScraping (c : Config) :
  st (completeScraping c) = setFlags false false (st c).
Proof.
  unfold completeScraping. cbn [notifyUI emit saveState withStorage st].
  rewrite st_closeActiveTab. reflexivity.
Qed.

Lemma tasks_completeScraping (c : Config) :
  tasks (completeScraping c) = tasks c.
Proof.
  unfold completeScraping. cbn [notifyUI emit saveState withStorage tasks].
  rewrite tasks_closeActiveTab. reflexivity.
Qed.

(** *** Updates that leave the page counters and the activations alone *)

Lemma quiet_refl (c : Config) : quiet c c.
Proof. repeat split. Qed.

Lemma quiet_withSt (f : State -> State) (c x : Config) :
  (forall s, currentPage (f s) = currentPage s) ->
  (forall s, startPage (f s) = startPage s) ->
  (forall s, maxPages (f s) = maxPages s) ->
  quiet c x -> quiet c (withSt f x).
Proof.
  intros F1 F2 F3 (T & A & B & C & E). unfold quiet.
  cbn [withSt st tasks trace].
  rewrite F1, F2, F3. auto.
Qed.

Lemma quiet_emit (e : effect) (c x : Config) :
  isPageEntry e = false -> quiet c x -> quiet c (emit e x).
Proof.
  intros N (T & A & B & C & E). unfold quiet.
  rewrite (pagesEntered_emit e x N). auto.
Qed.

Lemma quiet_notifyUI (m : message) (c x : Config) :
  isPageEntry (Notify m) = false -> quiet c x -> quiet c (notifyUI m x).
Proof. apply quiet_emit. Qed.

Lemma quiet_saveState (c x : Config) : quiet c x -> quiet c (saveState x).
Proof. intros H. exact H. Qed.

Lemma quiet_withStorage (s : Storage) (c x : Config) :
  quiet c x -> quiet c (withStorage s x).
Proof. intros H. exact H. Qed.

Lemma quiet_withActiveTab (t : option nat) (c x : Config) :
  quiet c x -> quiet c (withActiveTab t x).
Proof. intros H. exact H. Qed.

Lemma quiet_closeActiveTab (c x : Config) :
  quiet c x -> quiet c (closeActiveTab x).
Proof.
  intros H. unfold quiet.
  rewrite st_closeActiveTab, tasks_closeActiveTab,
    pagesEntered_closeActiveTab. exact H.
Qed.

Lemma quiet_completeScraping (c x : Config) :
  quiet c x -> quiet c (completeScraping x).
Proof.
  intros H. unfold completeScraping.
  apply quiet_notifyUI; [reflexivity|]. apply quiet_saveState.
  apply quiet_closeActiveTab. apply quiet_withSt; try reflexivity. exact H.
Qed.

Ltac quiet :=
  repeat lazymatch goal with
    | H : quiet ?c ?x |- quiet ?c ?x => exact H
    | |- quiet ?c ?c => apply quiet_refl
    | |- quiet _ (notifyUI _ _) => apply quiet_notifyUI; [reflexivity|]
    | |- quiet _ (emit _ _) => apply quiet_emit; [reflexivity|]
    | |- quiet _ (saveState _) => apply quiet_saveState
    | |- quiet _ (withStorage _ _) => apply quiet_withStorage
    | |- quiet _ (withActiveTab _ _) => apply quiet_withActiveTab
    | |- quiet _ (closeActiveTab _) => apply quiet_closeActiveTab
    | |- quiet _ (completeScraping _) => apply quiet_completeScraping
    | |- quiet _ (withSt _ _) =>
        apply quiet_withSt;
        [ intros; reflexivity | intros; reflexivity | intros; reflexivity | ]
    end.

(** *** Shapes of the handlers *)

Lemma shape_setTask (tid : nat) (p q : pc) (c x : Config) :
  quiet c x ->
  (isDrivePc p = false -> isDrivePc q = false) ->
  match q with AwaitClick | AwaitNavigation => False | _ => True end ->
  stepShape tid p q c (setTask tid q x).
Proof.
  intros (T & A & B & C & E) D Q. unfold stepShape.
  cbn [setTask withTasks st tasks trace].
  rewrite T. split; [reflexivity|]. split; [exact D|]. split; [exact C|].
  split; [exact B|]. split; [|left; exact E].
  left. split; [exact A|]. split; intros ->; contradiction.
Qed.

Lemma shape_intro (tid : nat) (p q : pc) (c c' : Config) :
  stepShape tid p q c c' ->
  exists p', stepShape tid p p' c c'.
Proof. intros H. exists q. exact H. Qed.

Lemma shape_afterQueue (tid : nat) (p : pc) (c x : Config) :
  quiet c x -> isDrivePc p = true ->
  exists p', stepShape tid p p' c (afterQueue tid x).
Proof.
  intros Q D. unfold afterQueue.
  destruct (isRunning (st x) && negb (isPaused (st x))
            && (pagesProcessed (st x) <? maxPages (st x))%Z) eqn:E.
  - exists AwaitClick. destruct Q as (T & A & B & C & N).
    unfold stepShape. cbn [setTask withTasks st tasks trace].
    rewrite T. split; [reflexivity|]. split; [intros; congruence|].
    split; [exact C|]. split; [exact B|]. split; [|left; exact N].
    left. split; [exact A|]. split; [|discriminate]. intros _. right.
    apply andb_prop in E as [_ E]. apply Z.ltb_lt in E.
    unfold pagesProcessed in *. rewrite A, B, C in E. exact E.
  - exists Finished. apply shape_setTask; [quiet|reflexivity|exact I].
Qed.

Lemma shape_pageFailure (tid : nat) (p : pc) (msg : string) (c x : Config) :
  quiet c x -> exists p', stepShape tid p p' c (pageFailure tid msg x).
Proof.
  intros Q. exists Finished. unfold pageFailure.
  apply shape_setTask; [quiet|reflexivity|exact I].
Qed.

Lemma shape_paginationFailure (tid : nat) (p : pc) (msg : string)
      (c x : Config) :
  quiet c x -> exists p', stepShape tid p p' c (paginationFailure tid msg x).
Proof.
  intros Q. exists Finished. unfold paginationFailure.
  apply shape_setTask; [quiet|reflexivity|exact I].
Qed.

Lemma shape_companyFailure (tid : nat) (p : pc) (o : owner) (i : nat)
      (u msg : string) (c x : Config) :
  quiet c x -> (isDrivePc p = false -> o = Resumed) ->
  exists p', stepShape tid p p' c (companyFailure tid o i u msg x).
Proof.
  intros Q O. exists (LoopTop o (S i)). unfold companyFailure.
  apply shape_setTask; [quiet| |exact I].
  intros D. rewrite (O D). reflexivity.
Qed.

Lemma shape_loopExit (tid : nat) (p : pc) (o : owner) (c x : Config) :
  quiet c x -> (isDrivePc p = true <-> o = Drive) ->
  exists p', stepShape tid p p' c (loopExit tid o x).
Proof.
  intros Q O. destruct o; cbn [loopExit].
  - apply shape_afterQueue; [exact Q|]. apply O. reflexivity.
  - exists Finished. apply shape_setTask; [quiet|reflexivity|exact I].
Qed.

Lemma shape_loopThrow (tid : nat) (p : pc) (o : owner) (msg : string)
      (c x : Config) :
  quiet c x -> exists p', stepShape tid p p' c (loopThrow tid o msg x).
Proof.
  intros Q. destruct o; cbn [loopThrow].
  - apply shape_pageFailure. exact Q.
  - exists Finished. apply shape_setTask; [quiet|reflexivity|exact I].
Qed.

Lemma shape_enterPage (tid : nat) (c : Config) :
  exists p', stepShape tid AwaitNavigation p' c (enterPage tid c).
Proof.
  unfold enterPage.
  destruct (negb (isRunning (st c)) || isPaused (st c)).
  - exists Finished. apply shape_setTask; [quiet|reflexivity|exact I].
  - exists AwaitUrls. unfold stepShape.
    cbn [setTask withTasks notifyUI emit st tasks trace].
    split; [reflexivity|]. split; [discriminate|].
    split; [reflexivity|]. split; [reflexivity|]. split.
    + left. split; [reflexivity|]. split; discriminate.
    + right. split; [reflexivity|]. split; [reflexivity|].
      rewrite pagesEntered_app. cbn. lia.
Qed.

Lemma shape_onTick (tid : nat) (o : owner) (i : nat) (p : pc) (c : Config) :
  (isDrivePc p = true <-> o = Drive) ->
  exists p', stepShape tid p p' c (onTick tid o i c).
Proof.
  intros O. unfold onTick.
  destruct (nth_error (companyQueue (st c)) i) as [u|];
    [|apply shape_loopExit; [quiet|exact O]].
  destruct (negb (isRunning (st c)) || isPaused (st c));
    [apply shape_loopExit; [quiet|exact O]|].
  destruct (Matcher.isDuplicateCompany _ _) as [[|]|e].
  - exists (LoopTop o (S i)). apply shape_setTask; [quiet| |exact I].
    intros D. destruct o; [|reflexivity].
    pose proof (proj2 O eq_refl) as T. congruence.
  - exists (AwaitTab o i u). apply shape_setTask; [quiet| |exact I].
    intros D. destruct o; [|reflexivity].
    pose proof (proj2 O eq_refl) as T. congruence.
  - apply shape_loopThrow. quiet.
Qed.

(** What one delivery may do to the page counters and to the activation
    it resumes. *)
Lemma deliver_shape (tid : nat) (i : input) (c : Config) (p : pc) :
  nth_error (tasks c) tid = Some p ->
  exists p', stepShape tid p p' c (deliver tid i c).
Proof.
  intros H. unfold deliver. rewrite H.
  assert (Same : exists p', stepShape tid p p' c c).
  { exists p. unfold stepShape. rewrite (setNth_same _ _ _ H).
    split; [reflexivity|]. split; [auto|]. split; [reflexivity|].
    split; [reflexivity|]. split; [|left; reflexivity].
    left. split; [reflexivity|]. split; auto. }
  destruct p as [|fresh|o k|o k u|o k u t| | |], i as [r| |r|r|r|r];
    try exact Same; clear Same.
  - (* links of the page *)
    unfold onUrls. destruct r as [error| |[|l ls]].
    + apply shape_pageFailure. quiet.
    + apply shape_pageFailure. quiet.
    + apply shape_afterQueue; [quiet|reflexivity].
    + destruct (prefilter _ _) as [[fresh skipped]|e].
      * exists (AwaitSaved (length fresh)).
        apply shape_setTask; [|cbn; congruence|exact I].
        destruct skipped; quiet.
      * apply shape_pageFailure. quiet.
  - (* state saved, queue about to be processed *)
    unfold onSaved. destruct (0 <? fresh)%nat.
    + apply shape_onTick. split; reflexivity.
    + apply shape_afterQueue; [quiet|reflexivity].
  - (* top of the loop *)
    apply shape_onTick. destruct o; cbn; split; congruence.
  - (* tab requested *)
    unfold onCreate. destruct r as [tab|msg].
    + exists (AwaitDetail o k u tab).
      apply shape_setTask; [quiet| |exact I].
      destruct o; cbn; congruence.
    + apply shape_companyFailure; [quiet|].
      destruct o; cbn; congruence.
  - (* detail page *)
    assert (O : isDrivePc (AwaitDetail o k u t) = false -> o = Resumed)
      by (destruct o; cbn; congruence).
    unfold onDetail. destruct r as [msg| |data rm].
    + apply shape_companyFailure; [quiet|exact O].
    + apply shape_companyFailure; [quiet|exact O].
    + destruct (Store.saveCompanyData data (storage c)) as [[added s']|e].
      * destruct rm as [msg|].
        -- apply shape_companyFailure; [|exact O].
           destruct added; quiet.
        -- exists (LoopTop o (S k)).
           apply shape_setTask; [| |exact I].
           ++ destruct added; quiet.
           ++ destruct o; cbn; congruence.
      * apply shape_companyFailure; [quiet|exact O].
  - (* click on the next-page button *)
    unfold onClick. destruct r as [msg| |].
    + apply shape_paginationFailure. quiet.
    + destruct ((length (companyQueue (st c)) =? 0)%nat
                && (processedCompanies (st c) =? 0)%Z).
      * apply shape_paginationFailure. quiet.
      * exists Finished. apply shape_setTask; [quiet|reflexivity|exact I].
    + exists AwaitNavigation. unfold stepShape.
      cbn [setTask withTasks saveState withStorage withSt st tasks trace
           setCurrentPage currentPage startPage maxPages].
      split; [reflexivity|]. split; [auto|]. split; [reflexivity|].
      split; [reflexivity|]. split; [|left; reflexivity].
      right. repeat split.
  - (* navigation *)
    unfold onNav. destruct r as [|msg].
    + apply shape_enterPage.
    + apply shape_paginationFailure. quiet.
Qed.

End CoordinatorFacts.

Module BudgetTheorems.

Import Coordinator Spec CoordinatorFacts.

Lemma quiet_budgetInv (n p0 : Z) (c x : Config) :
  quiet c x -> budgetInv n p0 c -> budgetInv n p0 x.
Proof.
  intros (T & A & B & C & N) (M & S & P & V & d & rest & E & R & K & W).
  unfold budgetInv, pagesProcessed in *. rewrite T, A, B, C, N.
  split; [exact M|]. split; [exact S|]. split; [exact P|]. split; [exact V|].
  exists d, rest. repeat split; assumption.
Qed.

Lemma resumed_not_click (rest : list pc) :
  forallb (fun q => negb (isDrivePc q)) rest = true ->
  existsb (fun p => match p with AwaitClick => true | _ => false end) rest
  = false.
Proof.
  induction rest as [|q r IH]; [reflexivity|]. cbn [forallb existsb].
  intros H. apply andb_prop in H as [Hq Hr]. rewrite (IH Hr).
  destruct q; try reflexivity. discriminate.
Qed.

Lemma deliver_budgetInv (n p0 : Z) (tid : nat) (i : input) (c : Config) :
  budgetInv n p0 c -> budgetInv n p0 (deliver tid i c).
Proof.
  intros Inv.
  destruct (nth_error (tasks c) tid) as [p|] eqn:H.
  2:{ unfold deliver. rewrite H. destruct i; exact Inv. }
  destruct (deliver_shape tid i c p H)
    as (p' & T & D & M' & S' & Cases & Entries).
  destruct Inv as (M & S & P & V & d & rest & E & R & K & W).
  unfold budgetInv, pagesProcessed in *.
  rewrite M', S', M, S. rewrite E in H, T.
  split; [reflexivity|]. split; [reflexivity|].
  destruct tid as [|m]; cbn [nth_error setNth] in H, T.
  - injection H as ->.
    destruct Cases as [(C & A)|(-> & -> & C)]; rewrite C.
    + destruct Entries as [N|(-> & -> & N)]; rewrite N.
      * split; [lia|]. split; [lia|].
        exists p', rest. split; [exact T|]. split; [exact R|]. split.
        -- intros ->. destruct A as (A & _). destruct (A eq_refl) as [->|L];
             [specialize (K eq_refl); lia|lia].
        -- intros ->. destruct A as (_ & A).
           specialize (W (A eq_refl)). lia.
      * specialize (W eq_refl). split; [lia|]. split; [lia|].
        exists AwaitUrls, rest. split; [exact T|]. split; [exact R|].
        split; discriminate.
    + specialize (K eq_refl).
      destruct Entries as [N|(F & _)]; [|discriminate]. rewrite N.
      split; [lia|]. split; [lia|].
      exists AwaitNavigation, rest. split; [exact T|]. split; [exact R|].
      split; [discriminate|]. intros _. lia.
  - assert (Np : isDrivePc p = false).
    { rewrite forallb_forall in R. apply negb_true_iff. apply R.
      exact (nth_error_In _ _ H). }
    destruct Cases as [(C & A)|(-> & _)]; [|discriminate].
    destruct Entries as [N|(-> & _)]; [|discriminate].
    rewrite C, N. split; [lia|]. split; [lia|].
    exists d, (setNth m p' rest). split; [exact T|]. split.
    + apply forallb_setNth; [exact R|]. rewrite (D Np). reflexivity.
    + split; [intros Ed; specialize (K Ed); lia|].
      intros Ed. specialize (W Ed). lia.
Qed.

Lemma step_budgetInv (n p0 : Z) (c : Config) (e : event) :
  noStart [e] = true -> budgetInv n p0 c -> budgetInv n p0 (step c e).
Proof.
  intros NS Inv. destruct e as [tab ok req det| | | |l| |tid i];
    cbn [step]; try discriminate.
  - apply (quiet_budgetInv n p0 c); [|exact Inv].
    unfold pauseScraping. quiet.
  - unfold resumeScraping.
    set (x := notifyUI ScrapingResumed (saveState (withSt (setPaused false) c))).
    assert (Ix : budgetInv n p0 x).
    { apply (quiet_budgetInv n p0 c); [|exact Inv]. unfold x. quiet. }
    destruct (isRunning (st x)); [|exact Ix].
    destruct Ix as (M & S & P & V & d & rest & E & R & K & W).
    unfold budgetInv. cbn [spawn withTasks st tasks trace].
    split; [exact M|]. split; [exact S|]. split; [exact P|].
    split; [exact V|].
    exists d, (rest ++ [LoopTop Resumed 0])%list. rewrite E.
    split; [reflexivity|]. split; [|split; assumption].
    rewrite forallb_app, R. reflexivity.
  - apply (quiet_budgetInv n p0 c); [|exact Inv].
    unfold stopScraping. quiet.
  - apply (quiet_budgetInv n p0 c); [|exact Inv]. quiet.
  - apply (quiet_budgetInv n p0 c); [|exact Inv]. quiet.
  - apply deliver_budgetInv. exact Inv.
Qed.

Lemma run_budgetInv (n p0 : Z) (es : list event) (c : Config) :
  noStart es = true -> budgetInv n p0 c -> budgetInv n p0 (run c es).
Proof.
  unfold run. revert c. induction es as [|e r IH]; intros c NS Inv;
    [exact Inv|].
  cbn [fold_left]. apply IH.
  - destruct e; try exact NS. discriminate.
  - apply step_budgetInv; [|exact Inv]. destruct e; try reflexivity.
    discriminate.
Qed.

Lemma start_budgetInv (s : Storage) (tab : nat) (n p0 : Z) :
  (1 <= n)%Z ->
  budgetInv n p0 (step (initial s) (Start tab true n p0)).
Proof.
  intros N. cbn [step]. unfold startScraping.
  assert (Z : (n =? 0)%Z = false) by (apply Z.eqb_neq; lia).
  rewrite Z. cbn. unfold budgetInv, pagesProcessed. cbn.
  split; [reflexivity|]. split; [reflexivity|]. split; [lia|]. split; [lia|].
  exists AwaitUrls, []. repeat split; discriminate.
Qed.

(** The first run of a coordinator, as long as it is not started again.
    Started with page budget [n >= 1] on page [p0], whatever the
    environment answers and whichever commands arrive: the budget and
    the start page stay as set; the number of listing pages reached,
    [currentPage - startPage + 1], stays between 1 and [n], and no more
    than that many listing pages are ever entered; the navigator is asked
    for a next page only while that number is below [n]; and when the
    queue of the page that makes it equal to [n] is exhausted, the drive
    loop completes the run (not running, [scrapingComplete] sent) without
    moving the current page or asking for another one. *)
Theorem page_budget_respected
        (s : Storage) (tab : nat) (n p0 : Z) (es : list Coordinator.event) :
  (1 <= n)%Z -> Spec.noStart es = true ->
  let c := Coordinator.run (Coordinator.initial s)
                           (Coordinator.Start tab true n p0 :: es) in
  maxPages (Coordinator.st c) = n
  /\ startPage (Coordinator.st c) = p0
  /\ (1 <= Coordinator.pagesProcessed (Coordinator.st c) <= n)%Z
  /\ (Z.of_nat (Spec.pagesEntered (Coordinator.trace c)) <= n)%Z
  /\ (Spec.advancing c = true ->
      (Coordinator.pagesProcessed (Coordinator.st c) < n)%Z)
  /\ (Coordinator.pagesProcessed (Coordinator.st c) = n ->
      forall tid,
        (exists i,
            nth_error (Coordinator.tasks c) tid
            = Some (Coordinator.LoopTop Coordinator.Drive i)
            /\ nth_error (companyQueue (Coordinator.st c)) i = None)
        \/ nth_error (Coordinator.tasks c) tid
           = Some (Coordinator.AwaitSaved 0) ->
        let c' := Coordinator.step c (Coordinator.Deliver tid Coordinator.InTick) in
        isRunning (Coordinator.st c') = false
        /\ nth_error (Coordinator.tasks c') tid = Some Coordinator.Finished
        /\ Spec.advancing c' = false
        /\ currentPage (Coordinator.st c') = currentPage (Coordinator.st c)
        /\ exists t,
            Coordinator.trace c'
            = (t ++ [Coordinator.Notify
                       (Coordinator.ScrapingComplete
                          (Coordinator.stats (Coordinator.st c')))])%list).
Proof.
  intros N NS c.
  assert (Inv : budgetInv n p0 c).
  { subst c. change (run (initial s) (Start tab true n p0 :: es))
      with (run (step (initial s) (Start tab true n p0)) es).
    apply run_budgetInv; [exact NS|]. apply start_budgetInv. exact N. }
  destruct Inv as (M & S & P & V & d & rest & E & R & K & W).
  split; [exact M|]. split; [exact S|]. split; [exact P|]. split; [lia|].
  split.
  { unfold advancing. rewrite E. cbn [existsb].
    rewrite (resumed_not_click _ R), orb_false_r.
    destruct d; try discriminate. intros _. apply K. reflexivity. }
  intros Full tid Hpc c'.
  assert (Done : exists x,
             quiet c x /\ c' = setTask tid Finished (completeScraping x)).
  { assert (A : forall x, quiet c x ->
                  afterQueue tid x = setTask tid Finished (completeScraping x)).
    { intros x (_ & Qa & Qb & Qc & _). unfold afterQueue.
      assert (L : (pagesProcessed (st x) <? maxPages (st x))%Z = false).
      { apply Z.ltb_ge. unfold pagesProcessed in *. rewrite Qa, Qb, Qc. lia. }
      rewrite L, andb_false_r. reflexivity. }
    subst c'. cbn [step]. unfold deliver.
    destruct Hpc as [(i & Hi & Q)|Hs].
    - rewrite Hi. unfold onTick. rewrite Q. cbn [loopExit].
      exists c. split; [apply quiet_refl|]. apply A. apply quiet_refl.
    - rewrite Hs. unfold onSaved. cbn [Nat.ltb Nat.leb].
      eexists. split; [|apply A]; quiet. }
  destruct Done as (x & Q & ->).
  assert (Tid : tid = 0%nat).
  { destruct tid as [|m]; [reflexivity|]. exfalso.
    rewrite E in Hpc. cbn [nth_error] in Hpc.
    rewrite forallb_forall in R.
    destruct Hpc as [(i & Hi & _)|Hs].
    - apply nth_error_In, R in Hi. discriminate.
    - apply nth_error_In, R in Hs. discriminate. }
  subst tid.
  assert (Tx : tasks (completeScraping x) = d :: rest).
  { rewrite tasks_completeScraping. destruct Q as (T & _). congruence. }
  assert (Ty : tasks (setTask 0 Finished (completeScraping x))
               = Finished :: rest).
  { cbn [setTask withTasks tasks]. rewrite Tx. reflexivity. }
  assert (Sy : st (setTask 0 Finished (completeScraping x))
               = setFlags false false (st x)).
  { cbn [setTask withTasks st]. apply st_completeScraping. }
  rewrite Sy, Ty.
  split; [reflexivity|]. split; [reflexivity|]. split.
  { unfold advancing. rewrite Ty. cbn [existsb].
    apply (resumed_not_click _ R). }
  split.
  { destruct Q as (_ & Qa & _). exact Qa. }
  unfold completeScraping. cbn [setTask withTasks notifyUI emit trace].
  eexists. f_equal. f_equal. f_equal. f_equal.
  cbn [saveState withStorage st]. rewrite st_closeActiveTab. reflexivity.
Qed.

Lemma page_budget_respected_witness :
  let c := Coordinator.run (Coordinator.initial Examples.emptyStorage)
             [Coordinator.Start 7 true 2 3;
              Coordinator.Deliver 0 (Coordinator.InUrls (Coordinator.UrlsOk []));
              Coordinator.Deliver 0 (Coordinator.InClick Coordinator.Clicked);
              Coordinator.Deliver 0 (Coordinator.InNav Coordinator.OnResults);
              Coordinator.Deliver 0 (Coordinator.InUrls (Coordinator.UrlsOk []))] in
  (1 <= 2)%Z
  /\ (1 <= Coordinator.pagesProcessed (Coordinator.st c) <= 2)%Z.
Proof.
  split; [lia|].
  exact (proj1 (proj2 (proj2
           (page_budget_respected
              Examples.emptyStorage 7 2 3
              [Coordinator.Deliver 0 (Coordinator.InUrls (Coordinator.UrlsOk []));
               Coordinator.Deliver 0 (Coordinator.InClick Coordinator.Clicked);
               Coordinator.Deliver 0 (Coordinator.InNav Coordinator.OnResults);
               Coordinator.Deliver 0 (Coordinator.InUrls (Coordinator.UrlsOk []))]
              ltac:(lia) eq_refl)))).
Defined.

(** C3 (the code at the failing input).  A run with a budget of two pages
    is stopped while its activation waits for the answer to the click on
    the next-page button, and a new run with a budget of two pages is
    started from page 1.  The new run processes page 1 and page 2.  The
    activation of the stopped run is still there: when its click is
    answered it advances the current page of the new run and, finding
    the run running again, processes page 3.  The new run, still running,
    stands at [currentPage - startPage + 1 = 3] with [maxPages = 2], three
    listing pages have been entered since it was started, and it is
    reported complete with three pages. *)
Theorem restart_exceeds_page_budget :
  let c1 := Coordinator.run (Coordinator.initial Examples.emptyStorage)
                            Cases.stoppedRun in
  let c2 := Coordinator.run c1 Cases.restartedRun in
  let c3 := Coordinator.run c2 Cases.bothFinish in
  isRunning (Coordinator.st c1) = false
  /\ Coordinator.tasks c1 = [Coordinator.AwaitClick]
  /\ isRunning (Coordinator.st c2) = true
  /\ isPaused (Coordinator.st c2) = false
  /\ maxPages (Coordinator.st c2) = 2%Z
  /\ startPage (Coordinator.st c2) = 1%Z
  /\ currentPage (Coordinator.st c2) = 3%Z
  /\ Coordinator.pagesProcessed (Coordinator.st c2) = 3%Z
  /\ Activations.enteredPages (Coordinator.trace c2)
     = (Activations.enteredPages (Coordinator.trace c1)
        ++ [1%Z; 2%Z; 3%Z])%list
  /\ Spec.pagesEntered (Coordinator.trace c2)
     = Spec.pagesEntered (Coordinator.trace c1) + 3
  /\ In (Coordinator.Notify
           (Coordinator.ScrapingComplete (Coordinator.mkStats 0 0 3 0)))
        (Coordinator.trace c3).
Proof.
  vm_compute. repeat split.
  repeat (first [left; reflexivity | right]).
Qed.

End BudgetTheorems.

Module QueueTheorems.

Import Coordinator Spec CoordinatorFacts.

Lemma closed_app (a b : list effect) :
  closed (a ++ b) = (closed a ++ closed b)%list.
Proof.
  induction a as [|e r IH]; [reflexivity|].
  cbn [app closed]. destruct e; rewrite IH; reflexivity.
Qed.

Lemma opened_app (a b : list effect) :
  opened (a ++ b) = (opened a ++ opened b)%list.
Proof.
  induction a as [|e r IH]; [reflexivity|].
  cbn [app opened]. destruct e; rewrite IH; reflexivity.
Qed.

(** The check made before a tab is opened compares URLs only (the name of
    the candidate is empty), so it never raises. *)
Lemma precheck_total (u : string) (cs : list Company) :
  exists b, Matcher.isDuplicateCompany (Some (candidate u "")) cs = Return b.
Proof.
  unfold Matcher.isDuplicateCompany, Matcher.isDuplicateBody.
  cbn [candidate name url Matcher.normalizeName truthy negb String.eqb orb bind].
  destruct (Matcher.normalizeUrl (VString u)) as [cu|].
  - destruct (cu =? "").
    + cbn [bind Matcher.found].
      destruct (Matcher.extractCompanySlug (VString u)) as [g|];
        [|eexists; reflexivity].
      destruct (g =? ""); [eexists; reflexivity|].
      destruct (DuplicateFacts.find_spec
                  (Matcher.matchesBySlug Matcher.extractCompanySlug g) cs)
        as (o2 & -> & _).
      { intros x _. apply DuplicateFacts.matchesBySlug_total. }
      cbn [bind]. destruct (Matcher.found o2); eexists; reflexivity.
    + destruct (DuplicateFacts.find_spec
                  (Matcher.matchesByUrl Matcher.extractCompanySlug cu
                     (Matcher.extractCompanySlug (VString u))) cs)
        as (o1 & -> & _).
      { intros x _. apply DuplicateFacts.matchesByUrl_total. }
      cbn [bind]. destruct (Matcher.found o1); [eexists; reflexivity|].
      destruct (Matcher.extractCompanySlug (VString u)) as [g|];
        [|eexists; reflexivity].
      destruct (g =? ""); [eexists; reflexivity|].
      destruct (DuplicateFacts.find_spec
                  (Matcher.matchesBySlug Matcher.extractCompanySlug g) cs)
        as (o2 & -> & _).
      { intros x _. apply DuplicateFacts.matchesBySlug_total. }
      cbn [bind]. destruct (Matcher.found o2); eexists; reflexivity.
  - cbn [bind Matcher.found].
    destruct (Matcher.extractCompanySlug (VString u)) as [g|];
      [|eexists; reflexivity].
    destruct (g =? ""); [eexists; reflexivity|].
    destruct (DuplicateFacts.find_spec
                (Matcher.matchesBySlug Matcher.extractCompanySlug g) cs)
      as (o2 & -> & _).
    { intros x _. apply DuplicateFacts.matchesBySlug_total. }
    cbn [bind]. destruct (Matcher.found o2); eexists; reflexivity.
Qed.

(** At the top of the loop, a run that is neither stopped nor paused takes
    up the item under the cursor: it is visited, or skipped as known. *)
Lemma loop_takes_next_item (x : Config) (tid : nat) (o : owner) (k : nat) :
  nth_error (tasks x) tid = Some (LoopTop o k) -> takesNext tid o k x.
Proof.
  intros T u Q R P y. subst y. cbn [step]. unfold deliver. rewrite T.
  unfold onTick. rewrite Q, R, P. cbn [negb orb].
  cbn [withSt storage].
  destruct (precheck_total u (Store.getCompanies (storage x))) as ([|] & ->).
  - right. cbn [setTask withTasks tasks saveState withStorage notifyUI emit
                withSt].
    apply (nth_error_setNth _ _ _ _ T).
  - left. cbn [setTask withTasks tasks notifyUI emit withSt].
    apply (nth_error_setNth _ _ _ _ T).
Qed.

(** The catch block of [processCompany]. *)
Lemma companyFailure_effect (x : Config) (tid : nat) (p : pc) (o : owner)
      (i : nat) (u msg : string) :
  nth_error (tasks x) tid = Some p ->
  let y := companyFailure tid o i u msg x in
  nth_error (tasks y) tid = Some (LoopTop o (S i))
  /\ st y = pushError (CompanyError u msg) (st x)
  /\ storage y = storage x
  /\ match activeTabId x with
     | Some (S t) =>
         activeTabId y = None
         /\ trace y = (trace x ++ [TabsRemove (S t)])%list
     | _ => activeTabId y = activeTabId x /\ trace y = trace x
     end.
Proof.
  intros T y. subst y. unfold companyFailure.
  cbn [setTask withTasks st tasks storage activeTabId trace].
  rewrite st_closeActiveTab, tasks_closeActiveTab, storage_closeActiveTab.
  cbn [withSt st tasks storage].
  split; [apply (nth_error_setNth _ _ _ _ T)|].
  split; [reflexivity|]. split; [reflexivity|].
  unfold closeActiveTab. cbn [withSt activeTabId].
  destruct (activeTabId x) as [[|t]|] eqn:A; cbn; auto.
Qed.

(** An item whose tab is about to be opened, with no other tab open, and
    whose answers arrive before any other activation runs.
    If opening fails, one error is recorded, nothing is left open and the
    loop goes on with the next item.  If the tab opens, then whatever
    follows (load failure, extraction failure, or extracted data) the
    tab is closed, the loop goes on with the next item, and a failure
    records exactly one error and changes neither the counter of
    processed items nor the store. *)
Theorem item_failure_isolated
        (c : Coordinator.Config) (tid : nat) (o : Coordinator.owner)
        (i : nat) (u : string) :
  nth_error (Coordinator.tasks c) tid = Some (Coordinator.AwaitTab o i u) ->
  Coordinator.activeTabId c = None ->
  (forall msg,
      let c1 := Coordinator.step c
                  (Coordinator.Deliver tid
                     (Coordinator.InCreate (Coordinator.CreateFailed msg))) in
      errors (Coordinator.st c1)
      = (errors (Coordinator.st c) ++ [CompanyError u msg])%list
      /\ nth_error (Coordinator.tasks c1) tid
         = Some (Coordinator.LoopTop o (S i))
      /\ Coordinator.activeTabId c1 = None
      /\ Coordinator.closed (Coordinator.trace c1)
         = Coordinator.closed (Coordinator.trace c)
      /\ isRunning (Coordinator.st c1) = isRunning (Coordinator.st c)
      /\ isPaused (Coordinator.st c1) = isPaused (Coordinator.st c)
      /\ companyQueue (Coordinator.st c1) = companyQueue (Coordinator.st c)
      /\ Spec.takesNext tid o (S i) c1)
  /\ (forall tab r,
         tab <> 0 ->
         let c1 := Coordinator.step c
                     (Coordinator.Deliver tid
                        (Coordinator.InCreate (Coordinator.Created tab))) in
         let c2 := Coordinator.step c1
                     (Coordinator.Deliver tid (Coordinator.InDetail r)) in
         nth_error (Coordinator.tasks c2) tid
         = Some (Coordinator.LoopTop o (S i))
         /\ Coordinator.activeTabId c2 = None
         /\ (exists more,
                Coordinator.closed (Coordinator.trace c2)
                = (Coordinator.closed (Coordinator.trace c) ++ tab :: more)%list)
         /\ isRunning (Coordinator.st c2) = isRunning (Coordinator.st c)
         /\ isPaused (Coordinator.st c2) = isPaused (Coordinator.st c)
         /\ companyQueue (Coordinator.st c2) = companyQueue (Coordinator.st c)
         /\ Spec.takesNext tid o (S i) c2
         /\ (forall msg,
                Spec.detailFailure r = Some msg ->
                errors (Coordinator.st c2)
                = (errors (Coordinator.st c) ++ [CompanyError u msg])%list
                /\ processedCompanies (Coordinator.st c2)
                   = processedCompanies (Coordinator.st c)
                /\ linkedin_scraper_data (Coordinator.storage c2)
                   = linkedin_scraper_data (Coordinator.storage c))).
Proof.
  intros T A. split.
  - intros msg c1. subst c1. cbn [step]. unfold deliver. rewrite T.
    unfold onCreate.
    set (x := emit (TabsCreate (aboutUrl u)) c).
    assert (Tx : nth_error (tasks x) tid = Some (AwaitTab o i u)) by exact T.
    destruct (companyFailure_effect x tid _ o i u msg Tx)
      as (F1 & F2 & F3 & F4).
    change (activeTabId x) with (activeTabId c) in F4. rewrite A in F4.
    destruct F4 as (F4 & F5).
    rewrite F2, F4, F5.
    split; [reflexivity|]. split; [exact F1|]. split; [reflexivity|]. split.
    { unfold x. cbn [emit trace]. rewrite closed_app. cbn. apply app_nil_r. }
    split; [reflexivity|]. split; [reflexivity|]. split; [reflexivity|].
    apply loop_takes_next_item. exact F1.
  - intros tab r NZ c1 c2.
    assert (E1 : c1 = setTask tid (AwaitDetail o i u tab)
                        (withActiveTab (Some tab)
                           (emit (TabsCreate (aboutUrl u)) c))).
    { subst c1. cbn [step]. unfold deliver. rewrite T. reflexivity. }
    assert (T1 : nth_error (tasks c1) tid = Some (AwaitDetail o i u tab)).
    { rewrite E1. cbn [setTask withTasks tasks].
      apply (nth_error_setNth _ _ _ _ T). }
    assert (E2 : c2 = onDetail tid o i u tab r c1).
    { subst c2. cbn [step]. unfold deliver. rewrite T1. reflexivity. }
    assert (St1 : st c1 = st c) by (rewrite E1; reflexivity).
    assert (Sg1 : storage c1 = storage c) by (rewrite E1; reflexivity).
    assert (Tr1 : closed (trace c1) = closed (trace c)).
    { rewrite E1. cbn [setTask withTasks withActiveTab emit trace].
      rewrite closed_app. cbn. apply app_nil_r. }
    assert (A1 : activeTabId c1 = Some tab) by (rewrite E1; reflexivity).
    clearbody c1 c2. subst c2. clear E1 T A.
    destruct tab as [|t]; [contradiction|]. clear NZ.
    (* the catch block, entered from a configuration that still has the tab *)
    assert (Fail : forall msg x more,
               nth_error (tasks x) tid = Some (AwaitDetail o i u (S t)) ->
               activeTabId x = Some (S t) ->
               closed (trace x) = (closed (trace c) ++ more)%list ->
               let y := companyFailure tid o i u msg x in
               nth_error (tasks y) tid = Some (LoopTop o (S i))
               /\ activeTabId y = None
               /\ closed (trace y)
                  = (closed (trace c) ++ more ++ [S t])%list
               /\ st y = pushError (CompanyError u msg) (st x)
               /\ storage y = storage x
               /\ takesNext tid o (S i) y).
    { intros msg x more Tx Ax Px y.
      destruct (companyFailure_effect x tid _ o i u msg Tx)
        as (F1 & F2 & F3 & F4).
      rewrite Ax in F4. destruct F4 as (F4 & F5).
      fold y in F1, F2, F3, F4, F5.
      split; [exact F1|]. split; [exact F4|]. split.
      { rewrite F5, closed_app, Px, <- app_assoc. reflexivity. }
      split; [exact F2|]. split; [exact F3|].
      apply loop_takes_next_item. exact F1. }
    assert (Plain : forall msg,
               let y := companyFailure tid o i u msg c1 in
               nth_error (tasks y) tid = Some (LoopTop o (S i))
               /\ activeTabId y = None
               /\ (exists more,
                      closed (trace y) = (closed (trace c) ++ S t :: more)%list)
               /\ isRunning (st y) = isRunning (st c)
               /\ isPaused (st y) = isPaused (st c)
               /\ companyQueue (st y) = companyQueue (st c)
               /\ takesNext tid o (S i) y
               /\ errors (st y) = (errors (st c) ++ [CompanyError u msg])%list
               /\ processedCompanies (st y) = processedCompanies (st c)
               /\ linkedin_scraper_data (storage y)
                  = linkedin_scraper_data (storage c)).
    { intros msg y.
      destruct (Fail msg c1 [] T1 A1) as (F1 & F2 & F3 & F4 & F5 & F6).
      { rewrite Tr1, app_nil_r. reflexivity. }
      fold y in F1, F2, F3, F4, F5, F6.
      rewrite F4, F5, St1, Sg1.
      split; [exact F1|]. split; [exact F2|]. split.
      { exists []. exact F3. }
      repeat (split; [reflexivity|]).
      split; [exact F6|]. repeat split. }
    unfold onDetail. destruct r as [msg| |data rm].
    + destruct (Plain msg) as (G1 & G2 & G3 & G4 & G5 & G6 & G7 & G8).
      repeat (split; [assumption|]).
      intros m E. cbn in E. injection E as <-. exact G8.
    + destruct (Plain "Failed to extract company data")
        as (G1 & G2 & G3 & G4 & G5 & G6 & G7 & G8).
      repeat (split; [assumption|]).
      intros m E. cbn in E. injection E as <-. exact G8.
    + destruct (Store.saveCompanyData data (storage c1)) as [[added s']|e].
      * set (x := emit (TabsRemove (S t)) _).
        assert (Tx : nth_error (tasks x) tid
                     = Some (AwaitDetail o i u (S t))).
        { unfold x. destruct added; exact T1. }
        assert (Ax : activeTabId x = Some (S t)).
        { unfold x. destruct added; exact A1. }
        assert (Px : closed (trace x) = (closed (trace c) ++ [S t])%list).
        { unfold x. cbn [emit trace]. rewrite closed_app.
          destruct added; cbn [notifyUI emit withSt withStorage trace];
            rewrite ?closed_app, Tr1; cbn; rewrite ?app_nil_r; reflexivity. }
        assert (Sx : isRunning (st x) = isRunning (st c)
                     /\ isPaused (st x) = isPaused (st c)
                     /\ companyQueue (st x) = companyQueue (st c)).
        { unfold x. destruct added;
            cbn [emit notifyUI withSt withStorage st setProcessed isRunning
                 isPaused companyQueue]; rewrite St1; repeat split. }
        destruct Sx as (R1 & R2 & R3).
        destruct rm as [msg|].
        -- destruct (Fail msg x [S t] Tx Ax Px) as (F1 & F2 & F3 & F4 & F5 & F6).
           rewrite F4. cbn [pushError isRunning isPaused companyQueue].
           split; [exact F1|]. split; [exact F2|]. split.
           { exists [S t]. exact F3. }
           split; [exact R1|]. split; [exact R2|]. split; [exact R3|].
           split; [exact F6|]. intros m E. discriminate.
        -- set (y := setTask tid (LoopTop o (S i)) _).
           assert (Ty : nth_error (tasks y) tid = Some (LoopTop o (S i))).
           { unfold y. cbn [setTask withTasks tasks saveState withStorage
                            withActiveTab].
             apply (nth_error_setNth _ _ _ _ Tx). }
           split; [exact Ty|]. split; [reflexivity|]. split.
           { exists []. exact Px. }
           split; [exact R1|]. split; [exact R2|]. split; [exact R3|].
           split; [apply loop_takes_next_item; exact Ty|].
           intros m E. discriminate.
      * destruct (Plain e) as (G1 & G2 & G3 & G4 & G5 & G6 & G7 & G8).
        repeat (split; [assumption|]).
        intros m E. discriminate.
Qed.

Lemma item_failure_isolated_witness :
  nth_error (Coordinator.tasks Examples.opening) 0
  = Some (Coordinator.AwaitTab Coordinator.Drive 0
            "https://www.linkedin.com/company/u0")
  /\ Coordinator.activeTabId Examples.opening = None
  /\ errors (Coordinator.st
               (Coordinator.step
                  (Coordinator.step Examples.opening
                     (Coordinator.Deliver 0
                        (Coordinator.InCreate (Coordinator.Created 42))))
                  (Coordinator.Deliver 0
                     (Coordinator.InDetail Coordinator.ExtractionFailed))))
     = [CompanyError "https://www.linkedin.com/company/u0"
                     "Failed to extract company data"].
Proof.
  split; [reflexivity|]. split; [reflexivity|].
  destruct (item_failure_isolated
              Examples.opening 0 Coordinator.Drive 0
              "https://www.linkedin.com/company/u0" eq_refl eq_refl)
    as (_ & H).
  assert (NZ : 42 <> 0) by discriminate.
  destruct (H 42 Coordinator.ExtractionFailed NZ)
    as (_ & _ & _ & _ & _ & _ & _ & F).
  exact (proj1 (F "Failed to extract company data" eq_refl)).
Defined.

(** C8 (the code at the failing input).  Item 0 of a page is loading in
    tab 43 when the run is paused and resumed at once.  The loop that
    [resumeScraping] starts takes up item 0 too and opens tab 44 for it,
    which [this.activeTabId] now names.  When the load in tab 43 fails,
    the catch block of the first activation records its error and goes on
    to item 1, but the tab it removes is the one [this.activeTabId]
    names: tab 44, in which the other activation is still loading.  Tab
    43 is never removed. *)
Theorem failing_item_closes_other_tab :
  let c0 := Coordinator.run (Coordinator.initial Examples.emptyStorage)
                            Cases.twoTabsOpen in
  let c := Coordinator.step c0 Cases.loadFails in
  Coordinator.tasks c0
  = [Coordinator.AwaitDetail Coordinator.Drive 0
       "https://www.linkedin.com/company/u0" 43;
     Coordinator.AwaitDetail Coordinator.Resumed 0
       "https://www.linkedin.com/company/u0" 44]
  /\ Coordinator.activeTabId c0 = Some 44
  /\ Coordinator.closed (Coordinator.trace c0) = []
  /\ errors (Coordinator.st c)
     = [CompanyError "https://www.linkedin.com/company/u0"
                     "Tab load timeout"]
  /\ Coordinator.tasks c
     = [Coordinator.LoopTop Coordinator.Drive 1;
        Coordinator.AwaitDetail Coordinator.Resumed 0
          "https://www.linkedin.com/company/u0" 44]
  /\ Coordinator.closed (Coordinator.trace c) = [44]
  /\ ~ In 43 (Coordinator.closed (Coordinator.trace c))
  /\ Coordinator.activeTabId c = None.
Proof.
  vm_compute. repeat split. intros [H|[]]. discriminate.
Qed.

End QueueTheorems.

Module ScenarioTheorems.

Import Coordinator Spec CoordinatorFacts QueueTheorems.
Import Matcher MatcherFacts DuplicateFacts.

(** A listing item whose slug is the slug of a stored record is a
    duplicate, whatever the names. *)
Lemma slug_known_duplicate (u n : string) (cs : list Company) :
  (exists e, In e cs /\ slugMatch (candidate u n) e = true) ->
  isDuplicateCompany (Some (candidate u n)) cs = Return true.
Proof.
  intros (e & He & M).
  unfold isDuplicateCompany, isDuplicateBody.
  assert (N : exists cn, normalizeName (name (candidate u n)) = Return cn).
  { cbn [candidate name]. unfold normalizeName.
    destruct (negb (truthy (VString n)) || strictEqStr (VString n) "N/A");
      eexists; reflexivity. }
  destruct N as (cn & ->). cbn [bind].
  destruct (extractCompanySlug (url (candidate u n))) as [g|] eqn:G.
  2:{ unfold slugMatch in M. rewrite G in M. discriminate. }
  assert (S1 : exists o,
             match normalizeUrl (url (candidate u n)) with
             | Some cu =>
                 if cu =? "" then Return None
                 else JS.find (matchesByUrl extractCompanySlug cu (Some g)) cs
             | None => Return None
             end = Return o).
  { destruct (normalizeUrl (url (candidate u n))) as [cu|];
      [|eexists; reflexivity].
    destruct (cu =? ""); [eexists; reflexivity|].
    destruct (find_spec (matchesByUrl extractCompanySlug cu (Some g)) cs)
      as (o & F & _).
    { intros x _. apply matchesByUrl_total. }
    exists o. exact F. }
  destruct S1 as (o1 & ->). cbn [bind].
  destruct (found o1); [reflexivity|].
  rewrite (eqb_nonempty _ (extractCompanySlug_nonempty _ _ G)).
  destruct (find_spec (matchesBySlug extractCompanySlug g) cs) as (o2 & -> & I).
  { intros x _. apply matchesBySlug_total. }
  cbn [bind].
  assert (F : found o2 = true).
  { apply I. exists e. split; [exact He|].
    apply (matchesBySlug_spec _ e g G). exact M. }
  rewrite F. reflexivity.
Qed.

(** An item that the pre-filter found new is new for the check made just
    before its tab is opened, as long as the store holds the same records:
    that check uses the URL alone. *)
Lemma precheck_of_new (u n : string) (cs : list Company) :
  isDuplicateCompany (Some (candidate u n)) cs = Return false ->
  isDuplicateCompany (Some (candidate u "")) cs = Return false.
Proof.
  unfold isDuplicateCompany, isDuplicateBody.
  cbn [candidate name url].
  destruct (normalizeName (VString n)) as [cn|]; [|discriminate].
  change (normalizeName (VString "")) with (@Return (option string) None).
  cbn [bind].
  destruct (match normalizeUrl (VString u) with
            | Some cu =>
                if cu =? "" then Return None
                else JS.find (matchesByUrl extractCompanySlug cu
                                (extractCompanySlug (VString u))) cs
            | None => Return None
            end) as [o1|]; [|discriminate].
  cbn [bind]. destruct (found o1); [discriminate|].
  destruct (match extractCompanySlug (VString u) with
            | Some slug =>
                if slug =? "" then Return None
                else JS.find (matchesBySlug extractCompanySlug slug) cs
            | None => Return None
            end) as [o2|]; [|discriminate].
  cbn [bind]. destruct (found o2); [discriminate|].
  intros _. reflexivity.
Qed.

(** C7.  A listing page yields [a], [b], [c]; the slugs of [a] and [c]
    are slugs of stored records, [b] is new, and the visit of [b] yields
    data that [saveCompanyData] accepts or refuses without raising.  A
    run with a budget of one page then queues [b] alone, reports three
    items found on the page, opens one detail tab, for [b], and completes
    with one item processed out of three found. *)
Theorem known_items_are_skipped
        (s : Storage) (a b c : Coordinator.Link) (d : Company)
        (tab search : nat) (p0 : Z) :
  (exists e, In e (Store.getCompanies s)
             /\ Spec.slugMatch
                  (Coordinator.candidate (Coordinator.linkUrl a)
                                         (Coordinator.linkName a)) e = true) ->
  (exists e, In e (Store.getCompanies s)
             /\ Spec.slugMatch
                  (Coordinator.candidate (Coordinator.linkUrl c)
                                         (Coordinator.linkName c)) e = true) ->
  Matcher.isDuplicateCompany
    (Some (Coordinator.candidate (Coordinator.linkUrl b)
                                 (Coordinator.linkName b)))
    (Store.getCompanies s) = Return false ->
  (exists added s', Store.saveCompanyData d s = Return (added, s')) ->
  let page :=
    Coordinator.run (Coordinator.initial s)
      [Coordinator.Start search true 1 p0;
       Coordinator.Deliver 0
         (Coordinator.InUrls (Coordinator.UrlsOk [a; b; c]))] in
  let final :=
    Coordinator.run page
      [Coordinator.Deliver 0 Coordinator.InTick;
       Coordinator.Deliver 0 (Coordinator.InCreate (Coordinator.Created tab));
       Coordinator.Deliver 0
         (Coordinator.InDetail (Coordinator.Extracted d None));
       Coordinator.Deliver 0 Coordinator.InTick] in
  companyQueue (Coordinator.st page) = [Coordinator.linkUrl b]
  /\ In (Coordinator.Notify (Coordinator.CompaniesFound 3 p0))
        (Coordinator.trace page)
  /\ Coordinator.opened (Coordinator.trace final)
     = [Coordinator.aboutUrl (Coordinator.linkUrl b)]
  /\ processedCompanies (Coordinator.st final) = 1%Z
  /\ totalCompaniesFound (Coordinator.st final) = 3%Z
  /\ isRunning (Coordinator.st final) = false
  /\ exists t,
      Coordinator.trace final
      = (t ++ [Coordinator.Notify
                 (Coordinator.ScrapingComplete
                    (Coordinator.mkStats 1 3 p0 0))])%list.
Proof.
  intros Ha Hc Hb (added & s' & Hd) page final.
  pose proof (slug_known_duplicate _ _ _ Ha) as Da.
  pose proof (slug_known_duplicate _ _ _ Hc) as Dc.
  pose proof (precheck_of_new _ _ _ Hb) as Pb.
  assert (F : prefilter (Store.getCompanies s) [a; b; c]
              = Return ([b], [a; c])).
  { cbn [prefilter]. rewrite Da, Hb, Dc. reflexivity. }
  assert (Ep : page
               = mkConfig
                   (mkState true false p0 p0 1 0 3 [linkUrl b] 0 [])
                   (mkStorage (linkedin_scraper_data s)
                      (Some (mkState true false p0 p0 1 0 3 [linkUrl b] 0 [])))
                   None (Some search) [AwaitSaved 1]
                   [Notify ScrapingStarted;
                    Notify (StatusUpdate (ProcessingPage p0));
                    Notify (CompaniesFound 3 p0);
                    Notify (StatusUpdate (PageSummary p0 1 2))]).
  { subst page. unfold run. cbn [fold_left step initial].
    unfold startScraping. cbn -[deliver].
    unfold deliver. cbn [tasks nth_error]. unfold onUrls.
    change (Store.getCompanies _) with (Store.getCompanies s).
    rewrite F. reflexivity. }
  clearbody page. subst page.
  assert (Dd : Matcher.isDuplicateCompany (Some d) (Store.getCompanies s)
               = Return (negb added)).
  { unfold Store.saveCompanyData in Hd.
    destruct (isDuplicateCompany (Some d) (Store.getCompanies s))
      as [[|]|e]; cbn [bind] in Hd; try discriminate;
      injection Hd as <- _; reflexivity. }
  assert (Z0 : (p0 - p0 + 1 <? 1)%Z = false) by (apply Z.ltb_ge; lia).
  subst final. unfold run. cbn [fold_left].
  set (S0 := mkState true false p0 p0 1 0 3 [linkUrl b] 0 []).
  set (S1 := mkState true false p0 p0 1 1 3 [linkUrl b] 0 []).
  set (S2 := mkState false false p0 p0 1 1 3 [linkUrl b] 0 []).
  set (t2 := [Notify ScrapingStarted;
              Notify (StatusUpdate (ProcessingPage p0));
              Notify (CompaniesFound 3 p0);
              Notify (StatusUpdate (PageSummary p0 1 2))]).
  set (c2 := mkConfig S0 (mkStorage (linkedin_scraper_data s) (Some S0))
                      None (Some search) [AwaitSaved 1] t2).
  set (t3 := (t2 ++ [Notify (StatusUpdate (ScrapingCompany 1))])%list).
  set (c3 := mkConfig S0 (mkStorage (linkedin_scraper_data s) (Some S0))
                      None (Some search) [AwaitTab Drive 0 (linkUrl b)] t3).
  set (t4 := (t3 ++ [TabsCreate (aboutUrl (linkUrl b))])%list).
  set (c4 := mkConfig S0 (mkStorage (linkedin_scraper_data s) (Some S0))
                      (Some tab) (Some search)
                      [AwaitDetail Drive 0 (linkUrl b) tab] t4).
  set (data5 := if added
                then Some (Store.getCompanies s ++ [d])%list
                else linkedin_scraper_data s).
  set (t5 := ((if added
               then (t4 ++ [Notify (CompanyScraped d 1)])%list
               else t4) ++ [TabsRemove tab])%list).
  set (c5 := mkConfig S1 (mkStorage data5 (Some S1)) None (Some search)
                      [LoopTop Drive 1] t5).
  set (c6 := mkConfig S2 (mkStorage data5 (Some S2)) None (Some search)
                      [Finished]
                      (t5 ++ [Notify (ScrapingComplete (mkStats 1 3 p0 0))])%list).
  assert (E3 : step c2 (Deliver 0 InTick) = c3).
  { cbn [step]. unfold deliver. cbn [tasks c2 nth_error]. unfold onSaved.
    cbn [Nat.ltb Nat.leb]. unfold onTick.
    cbn [st c2 S0 companyQueue nth_error isRunning isPaused negb orb withSt
         storage].
    change (Store.getCompanies _) with (Store.getCompanies s).
    rewrite Pb. reflexivity. }
  assert (E4 : step c3 (Deliver 0 (InCreate (Created tab))) = c4)
    by reflexivity.
  assert (E5 : step c4 (Deliver 0 (InDetail (Extracted d None))) = c5).
  { cbn [step]. unfold deliver. cbn [tasks c4 nth_error]. unfold onDetail.
    cbn [storage c4]. unfold Store.saveCompanyData.
    change (Store.getCompanies _) with (Store.getCompanies s).
    rewrite Dd. cbn [bind]. unfold c5, data5, t5.
    destruct added; reflexivity. }
  assert (E6 : step c5 (Deliver 0 InTick) = c6).
  { cbn [step]. unfold deliver. cbn [tasks c5 nth_error]. unfold onTick.
    cbn [st c5 S1 companyQueue nth_error]. cbn [loopExit]. unfold afterQueue.
    change (pagesProcessed (st c5) <? maxPages (st c5))%Z
      with (p0 - p0 + 1 <? 1)%Z.
    rewrite Z0. reflexivity. }
  rewrite E3, E4, E5, E6.
  split; [reflexivity|].
  split; [right; right; left; reflexivity|].
  split.
  { cbn [c6 trace]. unfold t5, t4, t3, t2. rewrite !opened_app.
    destruct added; reflexivity. }
  split; [reflexivity|]. split; [reflexivity|]. split; [reflexivity|].
  eexists. reflexivity.
Qed.

Lemma known_items_are_skipped_witness :
  Matcher.isDuplicateCompany
    (Some (Coordinator.candidate (Coordinator.linkUrl Examples.linkB)
                                 (Coordinator.linkName Examples.linkB)))
    (Store.getCompanies Examples.knownAC) = Return false
  /\ Coordinator.opened
       (Coordinator.trace
          (Coordinator.run
             (Coordinator.run (Coordinator.initial Examples.knownAC)
                [Coordinator.Start 7 true 1 1;
                 Coordinator.Deliver 0
                   (Coordinator.InUrls
                      (Coordinator.UrlsOk
                         [Examples.linkA; Examples.linkB; Examples.linkC]))])
             [Coordinator.Deliver 0 Coordinator.InTick;
              Coordinator.Deliver 0
                (Coordinator.InCreate (Coordinator.Created 42));
              Coordinator.Deliver 0
                (Coordinator.InDetail
                   (Coordinator.Extracted Examples.dataB None));
              Coordinator.Deliver 0 Coordinator.InTick]))
     = [Coordinator.aboutUrl (Coordinator.linkUrl Examples.linkB)].
Proof.
  assert (Ha : exists e, In e (Store.getCompanies Examples.knownAC)
                         /\ Spec.slugMatch
                              (Coordinator.candidate
                                 (Coordinator.linkUrl Examples.linkA)
                                 (Coordinator.linkName Examples.linkA)) e
                            = true).
  { eexists. split; [left; reflexivity|vm_compute; reflexivity]. }
  assert (Hc : exists e, In e (Store.getCompanies Examples.knownAC)
                         /\ Spec.slugMatch
                              (Coordinator.candidate
                                 (Coordinator.linkUrl Examples.linkC)
                                 (Coordinator.linkName Examples.linkC)) e
                            = true).
  { eexists. split; [right; left; reflexivity|vm_compute; reflexivity]. }
  assert (Hb : Matcher.isDuplicateCompany
                 (Some (Coordinator.candidate
                          (Coordinator.linkUrl Examples.linkB)
                          (Coordinator.linkName Examples.linkB)))
                 (Store.getCompanies Examples.knownAC) = Return false).
  { vm_compute. reflexivity. }
  assert (Hd : exists added s',
             Store.saveCompanyData Examples.dataB Examples.knownAC
             = Return (added, s')).
  { eexists. eexists. vm_compute. reflexivity. }
  split; [exact Hb|].
  exact (proj1 (proj2 (proj2
           (known_items_are_skipped
              Examples.knownAC Examples.linkA Examples.linkB Examples.linkC
              Examples.dataB 42 7 1 Ha Hc Hb Hd)))).
Defined.

End ScenarioTheorems.

Module PauseTheorems.

Import Coordinator Spec CoordinatorFacts QueueTheorems.

(** [pauseScraping] only raises the flag: no activation is touched, no tab
    is opened or closed, nothing is counted or stored. *)
Lemma pause_does_not_preempt (c : Config) :
  let c' := step c Pause in
  isPaused (st c') = true
  /\ tasks c' = tasks c
  /\ activeTabId c' = activeTabId c
  /\ processedCompanies (st c') = processedCompanies (st c)
  /\ currentCompanyIndex (st c') = currentCompanyIndex (st c)
  /\ linkedin_scraper_data (storage c') = linkedin_scraper_data (storage c)
  /\ opened (trace c') = opened (trace c)
  /\ closed (trace c') = closed (trace c).
Proof.
  cbn [step]. unfold pauseScraping.
  cbn [notifyUI emit saveState withStorage withSt st tasks activeTabId
       storage trace setPaused setFlags isPaused processedCompanies
       currentCompanyIndex linkedin_scraper_data].
  rewrite opened_app, closed_app. cbn. rewrite !app_nil_r. repeat split.
Qed.

Lemma opened_closeActiveTab (c : Config) :
  opened (trace (closeActiveTab c)) = opened (trace c).
Proof.
  unfold closeActiveTab. destruct (activeTabId c) as [t|]; [|reflexivity].
  destruct (t =? 0)%nat; [reflexivity|].
  cbn [withActiveTab emit trace]. rewrite opened_app. cbn. apply app_nil_r.
Qed.

Lemma opened_completeScraping (c : Config) :
  opened (trace (completeScraping c)) = opened (trace c).
Proof.
  unfold completeScraping. cbn [notifyUI emit saveState withStorage trace].
  rewrite opened_app, opened_closeActiveTab. cbn. apply app_nil_r.
Qed.

(** At the top of the loop a paused run leaves the loop: no item is
    visited and nothing is counted.  The drive loop then falls through
    to the end of [processCurrentPage], whose test of the page budget
    fails on the same flag, and the run is completed. *)
Lemma paused_loop_stops (c : Config) (tid : nat) (o : owner) (i : nat) :
  isPaused (st c) = true ->
  nth_error (tasks c) tid = Some (LoopTop o i) ->
  let c' := step c (Deliver tid InTick) in
  nth_error (tasks c') tid = Some Finished
  /\ opened (trace c') = opened (trace c)
  /\ processedCompanies (st c') = processedCompanies (st c)
  /\ (o = Drive -> isRunning (st c') = false /\ isPaused (st c') = false).
Proof.
  intros P T c'. subst c'. cbn [step]. unfold deliver. rewrite T.
  unfold onTick.
  rewrite P, orb_true_r.
  assert (L : match nth_error (companyQueue (st c)) i with
              | Some _ => loopExit tid o c
              | None => loopExit tid o c
              end = loopExit tid o c)
    by (destruct (nth_error (companyQueue (st c)) i); reflexivity).
  rewrite L. clear L.
  destruct o; cbn [loopExit].
  - unfold afterQueue. rewrite P. cbn [negb andb].
    rewrite andb_false_r. cbn [andb].
    cbn [setTask withTasks tasks st trace].
    rewrite tasks_completeScraping, st_completeScraping,
      opened_completeScraping.
    split; [apply (nth_error_setNth _ _ _ _ T)|].
    repeat split; discriminate.
  - cbn [setTask withTasks tasks st trace].
    split; [apply (nth_error_setNth _ _ _ _ T)|].
    repeat split; discriminate.
Qed.

(** [resumeScraping] enters [processCompanyQueue] anew: the activation it
    creates starts at index 0, whatever the cursor was. *)
Lemma resume_restarts_at_zero (c : Config) :
  isRunning (st c) = true ->
  let c' := step c Resume in
  tasks c' = (tasks c ++ [LoopTop Resumed 0])%list
  /\ isPaused (st c') = false
  /\ currentCompanyIndex (st c') = currentCompanyIndex (st c).
Proof.
  intros R. cbn [step]. unfold resumeScraping.
  cbn [notifyUI emit saveState withStorage withSt st setPaused setFlags
       isRunning].
  rewrite R. repeat split.
Qed.

(** Once the run is over, [resumeScraping] starts nothing. *)
Lemma resume_after_completion (c : Config) :
  isRunning (st c) = false ->
  tasks (step c Resume) = tasks c.
Proof.
  intros R. cbn [step]. unfold resumeScraping.
  cbn [notifyUI emit saveState withStorage withSt st setPaused setFlags
       isRunning].
  rewrite R. reflexivity.
Qed.

(** C4 (the code at the failing inputs).  A page of three new items.
    (1) Pause while item 0 is being visited, resume after it has finished:
    the item is stored, the loop leaves at its next turn, the run is
    reported complete, and the resume finds it over: items 1 and 2 are
    never visited.  (2) Pause and resume while item 1 is being visited
    (cursor at 1): the loop started by the resume begins at item 0, counts
    it a second time, and asks for a second tab for item 1 while the
    first is still loading. *)
Theorem resume_does_not_continue_from_cursor :
  (let c := Coordinator.run (Coordinator.initial Examples.emptyStorage)
                            Examples.pauseThenResume in
   isRunning (Coordinator.st c) = false
   /\ Coordinator.tasks c = [Coordinator.Finished]
   /\ Coordinator.opened (Coordinator.trace c)
      = ["https://www.linkedin.com/company/u0/about/"]
   /\ processedCompanies (Coordinator.st c) = 1%Z
   /\ In (Coordinator.Notify
            (Coordinator.ScrapingComplete (Coordinator.mkStats 1 3 1 0)))
         (Coordinator.trace c))
  /\ (let c := Coordinator.run (Coordinator.initial Examples.emptyStorage)
                               Examples.resumeInFlight in
      Coordinator.tasks c
      = [Coordinator.AwaitDetail Coordinator.Drive 1
           "https://www.linkedin.com/company/u1" 43;
         Coordinator.AwaitTab Coordinator.Resumed 1
           "https://www.linkedin.com/company/u1"]
      /\ processedCompanies (Coordinator.st c) = 2%Z
      /\ length (Store.getCompanies (Coordinator.storage c)) = 1).
Proof.
  split.
  - vm_compute. repeat split.
    repeat (first [left; reflexivity | right]).
  - vm_compute. repeat split.
Qed.

End PauseTheorems.

(* ================================================================= *)
(** ** CSV lines: escaping and parsing *)

Module CsvFacts.

Import Csv Exchange.

Lemma startsWith_char (c : ascii) (s : string) :
  Str.startsWith (String c "") s
  = match s with
    | "" => false
    | String a _ => Ascii.eqb c a
    end.
Proof.
  unfold Str.startsWith. destruct s as [|a r]; cbn; [reflexivity|].
  destruct (Ascii.eqb c a); reflexivity.
Qed.

Lemma includes_char (c a : ascii) (r : string) :
  Str.includes (String c "") (String a r)
  = Ascii.eqb c a || Str.includes (String c "") r.
Proof.
  cbn [Str.includes]. rewrite startsWith_char.
  destruct (Ascii.eqb c a); reflexivity.
Qed.

Lemma includes_char_nil (c : ascii) : Str.includes (String c "") "" = false.
Proof. reflexivity. Qed.

Lemma includes_char_app (c : ascii) (a b : string) :
  Str.includes (String c "") (a ++ b)
  = Str.includes (String c "") a || Str.includes (String c "") b.
Proof.
  induction a as [|x a IH].
  - reflexivity.
  - change (String x a ++ b) with (String x (a ++ b)).
    rewrite !includes_char, IH, orb_assoc. reflexivity.
Qed.

(** Reading an opening quote. *)
Lemma parseLoop_open (rest : string) (values : list string)
      (current : string) :
  parseLoop (String quote rest) values current false
  = parseLoop rest values current true.
Proof. cbn. destruct rest; reflexivity. Qed.

(** Reading a field that needed no quoting. *)
Lemma parseLoop_bare (f tail : string) (values : list string)
      (current : string) :
  Str.includes (String comma "") f = false ->
  Str.includes (String quote "") f = false ->
  parseLoop (f ++ tail) values current false
  = parseLoop tail values (current ++ f) false.
Proof.
  revert current. induction f as [|c f IH]; intros current Hc Hq.
  - rewrite UrlFacts.append_nil_r. reflexivity.
  - rewrite includes_char in Hc, Hq.
    apply orb_false_elim in Hc as [Hc Hc'].
    apply orb_false_elim in Hq as [Hq Hq'].
    change (String c f ++ tail) with (String c (f ++ tail)).
    cbn [parseLoop].
    rewrite Ascii.eqb_sym in Hq. rewrite Hq.
    rewrite Ascii.eqb_sym in Hc. rewrite Hc. cbn [andb].
    rewrite IH by assumption.
    rewrite UrlFacts.append_assoc. reflexivity.
Qed.

(** Reading the body of a quoted field and its closing quote. *)
Lemma parseLoop_quoted (f tail : string) (values : list string)
      (current : string) :
  noQuoteAhead tail = true ->
  parseLoop (doubleQuotes f ++ String quote tail) values current true
  = parseLoop tail values (current ++ f) false.
Proof.
  intros T. revert current. induction f as [|c f IH]; intros current.
  - rewrite UrlFacts.append_nil_r. cbn [doubleQuotes append parseLoop].
    rewrite Ascii.eqb_refl.
    destruct tail as [|n t]; [reflexivity|].
    cbn in T. apply negb_true_iff in T. rewrite T. reflexivity.
  - cbn [doubleQuotes]. destruct (Ascii.eqb c quote) eqn:E.
    + apply Ascii.eqb_eq in E. subst c.
      change (String quote (String quote (doubleQuotes f))
              ++ String quote tail)
        with (String quote
                (String quote (doubleQuotes f ++ String quote tail))).
      cbn [parseLoop]. rewrite Ascii.eqb_refl. cbn [andb].
      rewrite IH, UrlFacts.append_assoc. reflexivity.
    + change (String c (doubleQuotes f) ++ String quote tail)
        with (String c (doubleQuotes f ++ String quote tail)).
      cbn [parseLoop]. rewrite E. rewrite andb_false_r.
      rewrite IH, UrlFacts.append_assoc. reflexivity.
Qed.

(** Reading one escaped field. *)
Lemma parseLoop_escaped (f tail : string) (values : list string)
      (current : string) :
  noQuoteAhead tail = true ->
  parseLoop (escapeText f ++ tail) values current false
  = parseLoop tail values (current ++ f) false.
Proof.
  intros T. unfold escapeText.
  destruct (Str.includes (String comma "") f
            || Str.includes (String quote "") f
            || Str.includes (String newline "") f) eqn:E.
  - change (String quote (doubleQuotes f ++ String quote "") ++ tail)
      with (String quote ((doubleQuotes f ++ String quote "") ++ tail)).
    rewrite UrlFacts.append_assoc.
    change (String quote "" ++ tail) with (String quote tail).
    rewrite parseLoop_open. apply parseLoop_quoted. exact T.
  - apply orb_false_elim in E as [E _].
    apply orb_false_elim in E as [Ec Eq].
    apply parseLoop_bare; assumption.
Qed.

Lemma parseLoop_fields (f : string) (fs values : list string) :
  parseLoop (join (String comma "") (map escapeText (f :: fs))) values "" false
  = (values ++ f :: fs)%list.
Proof.
  revert f values. induction fs as [|g fs IH]; intros f values.
  - cbn [map join]. rewrite <- (UrlFacts.append_nil_r (escapeText f)).
    rewrite parseLoop_escaped by reflexivity. reflexivity.
  - change (join (String comma "") (map escapeText (f :: g :: fs)))
      with (escapeText f
            ++ String comma
                 (join (String comma "") (map escapeText (g :: fs)))).
    rewrite parseLoop_escaped by reflexivity.
    cbn [parseLoop append]. cbn [Ascii.eqb Bool.eqb quote comma andb negb].
    change (Ascii.eqb comma quote) with false. cbv iota.
    change (Ascii.eqb comma comma) with true. cbn [andb negb].
    rewrite IH, <- app_assoc. reflexivity.
Qed.

(** The loop always ends by pushing the current field. *)
Lemma parseLoop_last (n : nat) :
  forall line values current inQuotes,
    String.length line <= n ->
    exists front last,
      parseLoop line values current inQuotes = (front ++ [last])%list.
Proof.
  induction n as [|n IH]; intros line values current inQuotes L.
  - destruct line; [|cbn in L; lia]. cbn. eauto.
  - destruct line as [|c rest]; [cbn; eauto|].
    cbn in L. cbn [parseLoop].
    destruct (Ascii.eqb c quote).
    + destruct rest as [|c' rest']; [cbn; eauto|].
      destruct (inQuotes && Ascii.eqb c' quote).
      * apply IH. cbn in L. lia.
      * apply IH. lia.
    + destruct (Ascii.eqb c comma && negb inQuotes); apply IH; lia.
Qed.

(** On a line without quotes the loop splits at the commas. *)
Lemma parseLoop_split (line : string) (values : list string)
      (current : string) :
  Str.includes (String quote "") line = false ->
  parseLoop line values current false
  = match split comma line with
    | h :: t => (values ++ (current ++ h)%string :: t)%list
    | [] => values
    end.
Proof.
  revert values current.
  induction line as [|c line IH]; intros values current Q.
  - cbn. rewrite UrlFacts.append_nil_r. reflexivity.
  - rewrite includes_char in Q. apply orb_false_elim in Q as [Q Q'].
    cbn [parseLoop split]. rewrite Ascii.eqb_sym in Q. rewrite Q.
    destruct (Ascii.eqb c comma) eqn:E; cbn [andb negb].
    + rewrite IH by exact Q'. rewrite UrlFacts.append_nil_r.
      destruct (split comma line) as [|h t] eqn:S.
      * destruct line; cbn in S; [discriminate|].
        destruct (Ascii.eqb a comma); [discriminate|].
        destruct (split comma line); discriminate.
      * rewrite <- app_assoc. reflexivity.
    + rewrite IH by exact Q'.
      destruct (split comma line) as [|h t] eqn:S.
      * destruct line; cbn in S; [discriminate|].
        destruct (Ascii.eqb a comma); [discriminate|].
        destruct (split comma line); discriminate.
      * rewrite UrlFacts.append_assoc. reflexivity.
Qed.


(** *** Lines of a text *)

Lemma split_cons (sep : ascii) (s : string) :
  exists h t, split sep s = h :: t.
Proof.
  destruct s as [|c r]; cbn; [eauto|].
  destruct (Ascii.eqb c sep); [eauto|].
  destruct (split sep r); eauto.
Qed.

Lemma split_none (sep : ascii) (s : string) :
  Str.includes (String sep "") s = false -> split sep s = [s].
Proof.
  induction s as [|c r IH]; intros H; [reflexivity|].
  rewrite includes_char in H. apply orb_false_elim in H as [H H'].
  cbn [split]. rewrite Ascii.eqb_sym in H. rewrite H, (IH H'). reflexivity.
Qed.

Lemma split_app (sep : ascii) (s rest : string) :
  Str.includes (String sep "") s = false ->
  split sep (s ++ String sep rest) = s :: split sep rest.
Proof.
  induction s as [|c r IH]; intros H.
  - cbn [append split]. rewrite Ascii.eqb_refl. reflexivity.
  - rewrite includes_char in H. apply orb_false_elim in H as [H H'].
    change (String c r ++ String sep rest)
      with (String c (r ++ String sep rest)).
    cbn [split]. rewrite Ascii.eqb_sym in H. rewrite H, (IH H'). reflexivity.
Qed.

(** [split] undoes [join] when no line holds the separator. *)
Lemma split_join (sep : ascii) (l : string) (ls : list string) :
  forallb (fun x => negb (Str.includes (String sep "") x)) (l :: ls) = true ->
  split sep (join (String sep "") (l :: ls)) = l :: ls.
Proof.
  revert l. induction ls as [|m ls IH]; intros l H.
  - cbn in H. rewrite andb_true_r in H. apply negb_true_iff in H.
    cbn [join]. apply split_none. exact H.
  - cbn [forallb] in H. apply andb_prop in H as [H H'].
    apply negb_true_iff in H.
    change (join (String sep "") (l :: m :: ls))
      with (l ++ String sep (join (String sep "") (m :: ls))).
    rewrite split_app by exact H. rewrite IH by exact H'. reflexivity.
Qed.

Lemma includes_char_doubleQuotes (c : ascii) (f : string) :
  Str.includes (String c "") (doubleQuotes f) = Str.includes (String c "") f.
Proof.
  induction f as [|x f IH]; [reflexivity|].
  cbn [doubleQuotes]. destruct (Ascii.eqb x quote) eqn:E.
  - apply Ascii.eqb_eq in E. subst x.
    rewrite !includes_char, IH. destruct (Ascii.eqb c quote); reflexivity.
  - rewrite !includes_char, IH. reflexivity.
Qed.

Lemma noNewline_escapeText (f : string) :
  noNewline (escapeText f) = noNewline f.
Proof.
  unfold noNewline, escapeText.
  destruct (Str.includes (String comma "") f
            || Str.includes (String quote "") f
            || Str.includes (String newline "") f); [|reflexivity].
  rewrite includes_char, includes_char_app, includes_char_doubleQuotes.
  cbn. rewrite orb_false_r. reflexivity.
Qed.

Lemma noNewline_join (l : list string) :
  forallb noNewline l = true -> noNewline (join (String comma "") l) = true.
Proof.
  induction l as [|x l IH]; intros H; [reflexivity|].
  cbn [forallb] in H. apply andb_prop in H as [H H'].
  destruct l as [|y l]; [exact H|].
  change (join (String comma "") (x :: y :: l))
    with (x ++ String comma (join (String comma "") (y :: l))).
  unfold noNewline in *. rewrite includes_char_app, includes_char.
  apply negb_true_iff in H. rewrite H.
  specialize (IH H'). apply negb_true_iff in IH. rewrite IH. reflexivity.
Qed.

(** *** Blank lines *)

Lemma trimEnd_head (c : ascii) (r : string) :
  Str.isWhiteSpace c = false -> Str.trimEnd (String c r) <> "".
Proof.
  intros H. cbn [Str.trimEnd]. rewrite H.
  destruct (Str.trimEnd r); discriminate.
Qed.

Lemma notBlank_head (c : ascii) (r : string) :
  Str.isWhiteSpace c = false -> notBlank (String c r) = true.
Proof.
  intros H. unfold notBlank, Str.trim. cbn [Str.trimStart]. rewrite H.
  apply negb_true_iff. apply String.eqb_neq. apply trimEnd_head. exact H.
Qed.

Lemma trimmed_head (c : ascii) (r : string) :
  trimmed (String c r) = true -> Str.isWhiteSpace c = false.
Proof.
  unfold trimmed, Str.trim. intros H. apply String.eqb_eq in H.
  destruct (Str.isWhiteSpace c) eqn:W; [|reflexivity]. exfalso.
  cbn [Str.trimStart] in H. rewrite W in H.
  assert (L : forall s, String.length (Str.trimEnd s) <= String.length s).
  { induction s as [|x s IH]; [cbn; lia|].
    cbn [Str.trimEnd]. destruct (Str.trimEnd s) eqn:E.
    - destruct (Str.isWhiteSpace x); cbn; lia.
    - cbn in *. lia. }
  assert (L' : forall s, String.length (Str.trimStart s) <= String.length s).
  { induction s as [|x s IH]; [cbn; lia|].
    cbn [Str.trimStart]. destruct (Str.isWhiteSpace x); cbn in *; lia. }
  specialize (L (Str.trimStart r)). specialize (L' r).
  rewrite H in L. cbn in L. lia.
Qed.

End CsvFacts.

(* ================================================================= *)
(** ** The CSV file: what is exported is what is imported *)

Module CsvRoundTrip.

Import Csv Exchange CsvFacts.

Lemma cellText_inv (v : value) :
  cellText v = true ->
  exists s, v = VString s /\ (s =? "") = false /\ Str.trim s = s
            /\ noNewline s = true.
Proof.
  destruct v as [| |b|n|s]; try discriminate. cbn [cellText]. intros H.
  apply andb_prop in H as [H N]. apply andb_prop in H as [E T].
  exists s. repeat split; [now apply negb_true_iff | now apply String.eqb_eq
                           | exact N].
Qed.

Lemma urlText_inv (v : value) :
  urlText v = true ->
  exists s, v = VString s /\ Str.trim s = s /\ noNewline s = true
            /\ (Str.startsWith "http" s
                || negb (Str.includes "linkedin.com/company/" s)) = true.
Proof.
  destruct v as [| |b|n|s]; try discriminate. cbn [urlText]. intros H.
  apply andb_prop in H as [H U]. apply andb_prop in H as [T N].
  exists s. repeat split; [now apply String.eqb_eq | exact N | exact U].
Qed.

Section Fields.

Variable numberToString : Z -> string.


(** A cell written through [v || ''] and read back. *)
Lemma cell_plain (v : value) (d : string) :
  cellText v = true ->
  VString (Csv.textOr numberToString
             (VString (Str.trim (Csv.toString numberToString (orEmpty v))))
             d)
  = v.
Proof.
  intros H. destruct (cellText_inv v H) as (s & -> & E & T & _).
  unfold orEmpty, Csv.textOr. cbn [truthy Csv.toString]. rewrite E. cbn [negb].
  cbn [Csv.toString]. rewrite T. cbn [truthy]. rewrite E. cbn [negb].
  cbn [Csv.toString]. rewrite T. reflexivity.
Qed.

(** A cell written through [v && v !== 'N/A' ? v : ''] and read back. *)
Lemma cell_sentinel (v : value) :
  cellText v = true ->
  VString (Csv.textOr numberToString
             (VString (Str.trim (Csv.toString numberToString
                                              (unlessSentinel v))))
             "N/A")
  = v.
Proof.
  intros H. destruct (cellText_inv v H) as (s & -> & E & T & _).
  unfold unlessSentinel, Csv.textOr. cbn [truthy strictEqStr]. rewrite E.
  cbn [negb andb]. destruct (s =? "N/A") eqn:S.
  - apply String.eqb_eq in S. subst s. reflexivity.
  - cbn [negb Csv.toString]. rewrite T. cbn [truthy]. rewrite E.
    cbn [negb Csv.toString]. rewrite T. reflexivity.
Qed.

(** The URL cell written and read back. *)
Lemma cell_url (v : value) :
  urlText v = true ->
  VString (completeUrl
             (Csv.textOr numberToString
                (VString (Str.trim (Csv.toString numberToString (orEmpty v))))
                ""))
  = v.
Proof.
  intros H. destruct (urlText_inv v H) as (s & -> & T & _ & U).
  unfold orEmpty, Csv.textOr. cbn [truthy].
  destruct (s =? "") eqn:E.
  - apply String.eqb_eq in E. subst s. reflexivity.
  - cbn [negb Csv.toString]. rewrite T. cbn [truthy]. rewrite E.
    cbn [negb Csv.toString]. rewrite T.
    unfold completeUrl. rewrite E. cbn [negb andb].
    destruct (Str.startsWith "http" s); [reflexivity|].
    cbn [negb orb] in U. apply negb_true_iff in U. rewrite U. reflexivity.
Qed.

Lemma noNewline_plain (v : value) :
  cellText v = true -> noNewline (escapeCSV numberToString (orEmpty v)) = true.
Proof.
  intros H. destruct (cellText_inv v H) as (s & -> & E & _ & N).
  unfold escapeCSV. rewrite noNewline_escapeText.
  unfold orEmpty. cbn [truthy]. rewrite E. exact N.
Qed.

Lemma noNewline_sentinel (v : value) :
  cellText v = true ->
  noNewline (escapeCSV numberToString (unlessSentinel v)) = true.
Proof.
  intros H. destruct (cellText_inv v H) as (s & -> & E & _ & N).
  unfold escapeCSV. rewrite noNewline_escapeText.
  unfold unlessSentinel. cbn [truthy strictEqStr]. rewrite E. cbn [negb andb].
  destruct (s =? "N/A"); [reflexivity|exact N].
Qed.

Lemma noNewline_url (v : value) :
  urlText v = true -> noNewline (escapeCSV numberToString (orEmpty v)) = true.
Proof.
  intros H. destruct (urlText_inv v H) as (s & -> & _ & N & _).
  unfold escapeCSV. rewrite noNewline_escapeText.
  unfold orEmpty. cbn [truthy]. destruct (s =? ""); [reflexivity|exact N].
Qed.

Local Notation "'rowLine'" :=
  (fun company => join (String comma "") (csvRow numberToString company)).

Lemma exportable_inv (c : Company) :
  exportable c = true ->
  cellText (name c) = true /\ cellText (website c) = true
  /\ cellText (industry c) = true /\ cellText (phone c) = true
  /\ cellText (headquarters c) = true /\ urlText (url c) = true
  /\ cellText (timestamp c) = true.
Proof.
  unfold exportable. intros H.
  repeat (apply andb_prop in H as [H ?]). repeat split; assumption.
Qed.

Lemma rowLine_noNewline (c : Company) :
  exportable c = true -> noNewline (rowLine c) = true.
Proof.
  intros H. apply exportable_inv in H as (A & B & C & D & E & F & G).
  apply noNewline_join. cbn [csvRow forallb].
  rewrite (noNewline_plain _ A), (noNewline_sentinel _ B),
    (noNewline_sentinel _ C), (noNewline_sentinel _ D),
    (noNewline_sentinel _ E), (noNewline_url _ F), (noNewline_plain _ G).
  reflexivity.
Qed.

Lemma escapeText_head (c0 : ascii) (r : string) :
  Str.isWhiteSpace c0 = false ->
  exists c1 r1, escapeText (String c0 r) = String c1 r1
                /\ Str.isWhiteSpace c1 = false.
Proof.
  intros W. unfold escapeText.
  destruct (Str.includes (String comma "") (String c0 r)
            || Str.includes (String quote "") (String c0 r)
            || Str.includes (String newline "") (String c0 r)).
  - eexists _, _. split; reflexivity.
  - eauto.
Qed.

Lemma rowLine_notBlank (c : Company) :
  exportable c = true -> notBlank (rowLine c) = true.
Proof.
  intros H. apply exportable_inv in H as (A & _).
  destruct (cellText_inv _ A) as (s & N & E & T & _).
  cbv beta. unfold csvRow. rewrite N.
  unfold escapeCSV at 1, orEmpty at 1. cbn [truthy]. rewrite E. cbn [negb].
  cbn [Csv.toString].
  destruct s as [|c0 r]; [discriminate|].
  assert (W : Str.isWhiteSpace c0 = false).
  { apply trimmed_head with r. unfold trimmed. rewrite T.
    apply String.eqb_refl. }
  destruct (escapeText_head c0 r W) as (c1 & r1 & -> & W1).
  cbn [join append]. apply notBlank_head. exact W1.
Qed.

(** A row of the export, parsed against the export's header, is an
    object that the validation turns back into the record. *)
Lemma parseRow_exportable (c : Company) :
  exportable c = true ->
  exists c',
    parseRow (mkHeaderMap (Some 0) (Some 1) (Some 2) (Some 3) (Some 4)
                          (Some 5) (Some 6)) (rowLine c) = Some c'
    /\ truthy (name c') = true
    /\ forall t, normalizeCompany numberToString t c' = c.
Proof.
  intros H. pose proof (exportable_inv c H) as (A & B & C & D & E & F & G).
  unfold parseRow.
  assert (P : parseCSVLine (rowLine c)
              = [Csv.toString numberToString (orEmpty (name c));
                 Csv.toString numberToString (unlessSentinel (website c));
                 Csv.toString numberToString (unlessSentinel (industry c));
                 Csv.toString numberToString (unlessSentinel (phone c));
                 Csv.toString numberToString (unlessSentinel (headquarters c));
                 Csv.toString numberToString (orEmpty (url c));
                 Csv.toString numberToString (orEmpty (timestamp c))]).
  { exact (parseLoop_fields
             (Csv.toString numberToString (orEmpty (name c)))
             [Csv.toString numberToString (unlessSentinel (website c));
              Csv.toString numberToString (unlessSentinel (industry c));
              Csv.toString numberToString (unlessSentinel (phone c));
              Csv.toString numberToString (unlessSentinel (headquarters c));
              Csv.toString numberToString (orEmpty (url c));
              Csv.toString numberToString (orEmpty (timestamp c))] []). }
  cbv beta. rewrite P. cbv zeta.
  cbn [cell nth_error nameColumn websiteColumn industryColumn phoneColumn
       headquartersColumn urlColumn timestampColumn name url].
  assert (N : truthy (VString (Str.trim (Csv.toString
                                            numberToString (orEmpty (name c)))))
              = true).
  { destruct (cellText_inv _ A) as (s & -> & E0 & T & _).
    unfold orEmpty. cbn [truthy]. rewrite E0. cbn [negb Csv.toString].
    rewrite T. rewrite E0. reflexivity. }
  rewrite N. cbn [orb]. eexists. split; [reflexivity|]. split.
  - exact N.
  - intros t. unfold normalizeCompany.
    cbn [name website industry phone headquarters url timestamp].
    rewrite (cell_plain _ _ A), (cell_sentinel _ B), (cell_sentinel _ C),
      (cell_sentinel _ D), (cell_sentinel _ E), (cell_url _ F),
      (cell_plain _ _ G).
    destruct c; reflexivity.
Qed.

Lemma rows_round_trip (now : nat -> string) (cs : list Company) :
  forallb exportable cs = true ->
  forall i,
    validateFrom numberToString now i
      (map Some
           (parseRows (mkHeaderMap (Some 0) (Some 1) (Some 2) (Some 3)
                                   (Some 4) (Some 5) (Some 6))
                      (map rowLine cs)))
    = Return cs.
Proof.
  induction cs as [|c cs IH]; intros H i; [reflexivity|].
  cbn [forallb] in H. apply andb_prop in H as [Hc Hcs].
  cbn [map parseRows].
  destruct (parseRow_exportable c Hc) as (c' & -> & N & V).
  cbn [map validateFrom]. rewrite N. cbn [negb andb].
  rewrite (IH Hcs). cbn [bind]. rewrite V. reflexivity.
Qed.

Lemma filter_all {A} (f : A -> bool) (l : list A) :
  forallb f l = true -> filter f l = l.
Proof.
  induction l as [|x l IH]; intros H; [reflexivity|].
  cbn [forallb] in H. apply andb_prop in H as [H H'].
  cbn [filter]. rewrite H, (IH H'). reflexivity.
Qed.

Lemma forallb_map {A B} (f : B -> bool) (g : A -> B) (l : list A) :
  forallb f (map g l) = forallb (fun x => f (g x)) l.
Proof. induction l as [|x l IH]; cbn; [|rewrite IH]; reflexivity. Qed.

Lemma forallb_impl {A} (f g : A -> bool) (l : list A) :
  (forall x, f x = true -> g x = true) ->
  forallb f l = true -> forallb g l = true.
Proof.
  intros I. induction l as [|x l IH]; intros H; [reflexivity|].
  cbn [forallb] in *. apply andb_prop in H as [H H'].
  rewrite (I _ H), (IH H'). reflexivity.
Qed.

Lemma parseCSV_csvContent (cs : list Company) :
  forallb exportable cs = true ->
  parseCSV (csvContent numberToString cs)
  = parseRows (mkHeaderMap (Some 0) (Some 1) (Some 2) (Some 3) (Some 4)
                           (Some 5) (Some 6))
              (map rowLine cs).
Proof.
  intros H. unfold parseCSV, csvContent.
  rewrite split_join.
  - cbn [filter].
    replace (notBlank (join (String comma "") headers)) with true
      by (vm_compute; reflexivity).
    rewrite filter_all.
    + replace (mapHeaders noColumns
                 (parseCSVLine (join (String comma "") headers)) 0)
        with (mkHeaderMap (Some 0) (Some 1) (Some 2) (Some 3) (Some 4)
                          (Some 5) (Some 6))
        by (vm_compute; reflexivity).
      reflexivity.
    + rewrite forallb_map. revert H. apply forallb_impl.
      intros c. apply rowLine_notBlank.
  - cbn [forallb]. apply andb_true_intro. split; [vm_compute; reflexivity|].
    rewrite forallb_map. revert H. apply forallb_impl.
    intros c Hc. apply (rowLine_noNewline c Hc).
Qed.

End Fields.

End CsvRoundTrip.

Module CsvTheorems.

Import Csv Exchange CsvFacts CsvRoundTrip.

(** X1.  Escaping and parsing are inverse on a line: whatever the fields
    hold (commas, quotes, line breaks, values that are not strings),
    [parseCSVLine] gives back the texts that [escapeCSV] wrote and
    [join(',')] assembled. *)
Theorem parseCSVLine_escapeCSV (numberToString : Z -> string)
        (field : value) (fields : list value) :
  parseCSVLine (join (String comma "")
                     (map (escapeCSV numberToString) (field :: fields)))
  = map (toString numberToString) (field :: fields).
Proof.
  unfold parseCSVLine.
  change (map (escapeCSV numberToString) (field :: fields))
    with (map (fun v => escapeText (toString numberToString v))
              (field :: fields)).
  rewrite <- (map_map (toString numberToString) escapeText).
  cbn [map]. apply parseLoop_fields.
Qed.

(** X2.  [parseCSVLine] returns at least one field for every line, so the
    test [values.length === 0] of [parseCSV] never holds; on a line
    without a double quote it is [line.split(',')]. *)
Theorem parseCSVLine_fields (line : string) :
  parseCSVLine line <> []
  /\ (Str.includes (String quote "") line = false ->
      parseCSVLine line = split comma line).
Proof.
  split.
  - unfold parseCSVLine.
    destruct (parseLoop_last (String.length line) line [] "" false (le_n _))
      as (front & last & ->).
    destruct front; discriminate.
  - intros Q. unfold parseCSVLine. rewrite parseLoop_split by exact Q.
    destruct (split comma line); reflexivity.
Qed.

Lemma parseCSVLine_fields_witness :
  parseCSVLine "a,b,,c" = ["a"; "b"; ""; "c"].
Proof.
  exact (proj2 (parseCSVLine_fields "a,b,,c") eq_refl).
Defined.

(** X3.  The CSV export followed by the CSV import gives back the
    collection: for records whose fields are non-empty strings without
    line break and without surrounding white space (the URL may be empty,
    and either starts with ["http"] or does not point to a company page),
    parsing and validating the exported text returns the records, in
    their order, the sentinel fields ["N/A"] included. *)
Theorem csv_export_import (numberToString : Z -> string)
        (now : nat -> string) (companies : list Company) :
  forallb exportable companies = true ->
  validateAndNormalizeCompanies numberToString now
    (map Some (parseCSV (csvContent numberToString companies)))
  = Return companies.
Proof.
  intros H. unfold validateAndNormalizeCompanies.
  rewrite parseCSV_csvContent by exact H.
  apply rows_round_trip. exact H.
Qed.

Lemma csv_export_import_witness :
  forallb Exchange.exportable Samples.twoRecords = true
  /\ Csv.validateAndNormalizeCompanies
       Samples.noNumbers Samples.importTime
       (map Some (Csv.parseCSV
                    (Csv.csvContent Samples.noNumbers Samples.twoRecords)))
     = Return Samples.twoRecords.
Proof.
  split; [reflexivity|].
  apply (CsvTheorems.csv_export_import
           Samples.noNumbers Samples.importTime Samples.twoRecords).
  reflexivity.
Defined.

End CsvTheorems.

(* ================================================================= *)
(** ** Validation and import of records *)

Module ImportFacts.

Import Csv Exchange Spec MatcherFacts DuplicateFacts DuplicateTheorems.

Lemma allStrings_nameTyped (c : Company) :
  allStrings c = true -> nameTyped c = true.
Proof.
  unfold allStrings, nameTyped. intros H.
  repeat (apply andb_prop in H as [H _]).
  destruct (name c); try discriminate.
  unfold Matcher.normalizeName.
  destruct (negb (truthy (VString s)) || strictEqStr (VString s) "N/A");
    reflexivity.
Qed.

Lemma forallb_app_true {A} (f : A -> bool) (a b : list A) :
  forallb f a = true -> forallb f b = true -> forallb f (a ++ b) = true.
Proof. intros Ha Hb. rewrite forallb_app, Ha, Hb. reflexivity. Qed.

(** On records whose names are strings or missing the matcher returns. *)
Lemma isDuplicate_returns (cs : list Company) (c : Company) :
  nameTyped c = true -> forallb nameTyped cs = true ->
  exists b, SidePanel.isDuplicate cs (Some c) = Return b.
Proof.
  intros Tc Tcs. rewrite sidePanel_isDuplicate.
  destruct (isDuplicate_relational c cs Tc Tcs) as (b & E & _). eauto.
Qed.

(** A duplicate stays one when the collection grows. *)
Lemma isDuplicate_monotone (cs more : list Company) (c : Company) :
  nameTyped c = true -> forallb nameTyped cs = true ->
  forallb nameTyped more = true ->
  Matcher.isDuplicateCompany (Some c) cs = Return true ->
  Matcher.isDuplicateCompany (Some c) (cs ++ more) = Return true.
Proof.
  intros Tc Tcs Tm D.
  destruct (isDuplicate_relational c cs Tc Tcs) as (b & E & I).
  rewrite D in E. injection E as <-.
  destruct (isDuplicate_relational c (cs ++ more) Tc
              (forallb_app_true _ _ _ Tcs Tm)) as (b' & E' & I').
  rewrite E'. f_equal. apply I'.
  destruct (proj1 I eq_refl) as (e & In_e & M).
  exists e. split; [apply in_or_app; left; exact In_e | exact M].
Qed.

(** The loop of [importCompanies] on records whose names are strings or
    missing: it returns, every record is counted once, and the records
    pushed come from the batch. *)
Lemma importLoop_typed (batch cs : list Company) (a k : nat) :
  forallb nameTyped cs = true -> forallb nameTyped batch = true ->
  exists new a' k',
    SidePanel.importLoop cs batch a k = ((cs ++ new)%list, Return (a', k'))
    /\ a' = a + length new
    /\ a' + k' = a + k + length batch
    /\ incl new batch
    /\ forallb nameTyped new = true.
Proof.
  revert cs a k. induction batch as [|x batch IH]; intros cs a k Tcs Tb.
  - exists [], a, k. cbn. rewrite app_nil_r.
    repeat split; try lia. intros y [].
  - cbn [forallb] in Tb. apply andb_prop in Tb as [Tx Tb].
    cbn [SidePanel.importLoop].
    destruct (isDuplicate_returns cs x Tx Tcs) as ([|] & ->).
    + destruct (IH cs a (S k) Tcs Tb) as (new & a' & k' & E & Ea & Ek & I & T).
      exists new, a', k'. rewrite E. cbn [length].
      repeat split; try lia; [|exact T].
      intros y Hy. right. exact (I y Hy).
    + assert (Tcs' : forallb nameTyped (cs ++ [x]) = true).
      { apply forallb_app_true; [exact Tcs|]. cbn. rewrite Tx. reflexivity. }
      destruct (IH (cs ++ [x])%list (S a) k Tcs' Tb)
        as (new & a' & k' & E & Ea & Ek & I & T).
      exists (x :: new), a', k'. rewrite E, <- app_assoc. cbn [app length].
      repeat split; try lia.
      * intros y [<-|Hy]; [left; reflexivity | right; exact (I y Hy)].
      * cbn [forallb]. rewrite Tx, T. reflexivity.
Qed.

(** When the loop has returned, every record of the batch that carries an
    identity is a duplicate of the panel's array. *)
Lemma importLoop_covers (batch cs : list Company) (a k : nat) :
  forallb nameTyped cs = true -> forallb nameTyped batch = true ->
  forall x,
    In x batch -> hasIdentity x = true ->
    Matcher.isDuplicateCompany
      (Some x) (fst (SidePanel.importLoop cs batch a k)) = Return true.
Proof.
  revert cs a k. induction batch as [|y batch IH]; intros cs a k Tcs Tb x Hx Ix.
  - destruct Hx.
  - cbn [forallb] in Tb. apply andb_prop in Tb as [Ty Tb].
    cbn [SidePanel.importLoop].
    destruct (isDuplicate_returns cs y Ty Tcs) as ([|] & D); rewrite D.
    + destruct Hx as [<-|Hx]; [|apply IH; assumption].
      destruct (importLoop_typed batch cs a (S k) Tcs Tb)
        as (new & a' & k' & E & _ & _ & _ & T).
      rewrite E. cbn [fst]. rewrite sidePanel_isDuplicate in D.
      apply isDuplicate_monotone; assumption.
    + assert (Tcs' : forallb nameTyped (cs ++ [y]) = true).
      { apply forallb_app_true; [exact Tcs|]. cbn. rewrite Ty. reflexivity. }
      destruct Hx as [<-|Hx]; [|apply IH; assumption].
      destruct (importLoop_typed batch (cs ++ [y])%list (S a) k Tcs' Tb)
        as (new & a' & k' & E & _ & _ & _ & T).
      rewrite E. cbn [fst]. rewrite <- app_assoc. cbn [app].
      rewrite sidePanel_isDuplicate in D.
      apply StoreTheorems.self_match_after_insertion; assumption.
Qed.

(** A batch of duplicates is skipped as a whole. *)
Lemma importLoop_skips (batch cs : list Company) (a k : nat) :
  (forall x, In x batch ->
             Matcher.isDuplicateCompany (Some x) cs = Return true) ->
  SidePanel.importLoop cs batch a k = (cs, Return (a, k + length batch)).
Proof.
  revert k. induction batch as [|x batch IH]; intros k H.
  - cbn. rewrite Nat.add_0_r. reflexivity.
  - cbn [SidePanel.importLoop]. rewrite sidePanel_isDuplicate.
    rewrite (H x (or_introl eq_refl)).
    rewrite IH by (intros y Hy; apply H; right; exact Hy).
    cbn [length]. rewrite Nat.add_succ_r. reflexivity.
Qed.

Section Validation.

Variable numberToString : Z -> string.

Lemma normalizeCompany_allStrings (t : string) (c : Company) :
  allStrings (normalizeCompany numberToString t c) = true.
Proof. reflexivity. Qed.

(** The validation keeps the records with a truthy name or URL, in their
    order, each one normalized. *)
Lemma validateFrom_spec (now : nat -> string) (raw : list (option Company))
      (i : nat) (validated : list Company) :
  validateFrom numberToString now i raw = Return validated ->
  forallb allStrings validated = true
  /\ length validated
     = length (filter (fun o => match o with
                                | Some c => identified c
                                | None => false
                                end) raw)
  /\ ~ In None raw.
Proof.
  revert i validated. induction raw as [|[c|] raw IH]; intros i validated E.
  - injection E as <-. repeat split. intros [].
  - cbn [validateFrom] in E. cbn [filter]. unfold identified at 1.
    destruct (truthy (name c)) eqn:N; cbn [negb andb orb] in E |- *.
    + destruct (validateFrom numberToString now (S i) raw) as [v|] eqn:V;
        [|discriminate]. cbn [bind] in E. injection E as <-.
      destruct (IH _ _ V) as (A & L & I). cbn [forallb length].
      rewrite A, L. repeat split. intros [H|H]; [discriminate|auto].
    + destruct (truthy (url c)) eqn:U; cbn [negb] in E |- *.
      * destruct (validateFrom numberToString now (S i) raw) as [v|] eqn:V;
          [|discriminate]. cbn [bind] in E. injection E as <-.
        destruct (IH _ _ V) as (A & L & I). cbn [forallb length].
        rewrite A, L. repeat split. intros [H|H]; [discriminate|auto].
      * destruct (IH _ _ E) as (A & L & I).
        repeat split; [exact A | exact L |].
        intros [H|H]; [discriminate|auto].
  - discriminate.
Qed.

(** Without a [null] entry the validation returns. *)
Lemma validateFrom_returns (now : nat -> string) (cs : list Company) (i : nat) :
  exists validated,
    validateFrom numberToString now i (map Some cs) = Return validated.
Proof.
  revert i. induction cs as [|c cs IH]; intros i; [cbn; eauto|].
  cbn [map validateFrom]. destruct (IH (S i)) as (v & ->).
  destruct (negb (truthy (name c)) && negb (truthy (url c))); cbn; eauto.
Qed.

End Validation.

End ImportFacts.

Module ImportTheorems.

Import Csv Exchange Spec MatcherFacts ImportFacts.

Lemma importLoop_general (batch cs : list Company) (a k : nat) :
  exists new,
    fst (SidePanel.importLoop cs batch a k) = (cs ++ new)%list
    /\ incl new batch
    /\ match snd (SidePanel.importLoop cs batch a k) with
       | Return (a', k') =>
           a' = a + length new /\ a' + k' = a + k + length batch
       | Throw _ => True
       end.
Proof.
  revert cs a k. induction batch as [|x batch IH]; intros cs a k.
  - exists []. cbn. rewrite app_nil_r. repeat split; try lia. intros y [].
  - cbn [SidePanel.importLoop].
    destruct (SidePanel.isDuplicate cs (Some x)) as [[|]|e].
    + destruct (IH cs a (S k)) as (new & E & I & R).
      exists new. split; [exact E|]. split.
      * intros y Hy. right. exact (I y Hy).
      * destruct (snd (SidePanel.importLoop cs batch a (S k))) as [[a' k']|];
          [|trivial]. cbn [length]. lia.
    + destruct (IH (cs ++ [x])%list (S a) k) as (new & E & I & R).
      exists (x :: new). rewrite E, <- app_assoc. split; [reflexivity|]. split.
      * intros y [<-|Hy]; [left; reflexivity | right; exact (I y Hy)].
      * destruct (snd (SidePanel.importLoop (cs ++ [x]) batch (S a) k))
          as [[a' k']|]; [|trivial]. cbn [length]. lia.
    + exists []. cbn. rewrite app_nil_r. repeat split. intros y [].
Qed.

(** X4.  [importCompanies] accounts for every record of the batch: when
    it returns, [added + skipped] is the size of the batch, the panel's
    array has grown by [added] records taken from the batch, and the
    storage holds the panel's array.  When the matcher raises, the records
    pushed so far stay in the panel's array and the storage is not
    written. *)
Theorem importCompanies_accounting
        (companies : list Company) (s : Storage) (batch : list Company) :
  match SidePanel.importCompanies companies s batch with
  | (companies', s', Return (added, skipped)) =>
      added + skipped = length batch
      /\ length companies' = length companies + added
      /\ (exists new, companies' = (companies ++ new)%list /\ incl new batch)
      /\ Store.getCompanies s' = companies'
      /\ scraper_state s' = scraper_state s
  | (companies', s', Throw _) =>
      s' = s
      /\ exists new, companies' = (companies ++ new)%list /\ incl new batch
  end.
Proof.
  unfold SidePanel.importCompanies.
  destruct (importLoop_general batch companies 0 0) as (new & E & I & R).
  destruct (SidePanel.importLoop companies batch 0 0) as [cs' [[a' k']|e]];
    cbn [fst snd] in E, R; subst cs'.
  - destruct R as [-> R]. repeat split.
    + lia.
    + rewrite length_app. reflexivity.
    + exists new. split; [reflexivity|exact I].
  - split; [reflexivity|]. exists new. split; [reflexivity|exact I].
Qed.

(** X5.  What [validateAndNormalizeCompanies] returns can be imported:
    every field of every validated record is a string, as many records
    are kept as have a truthy name or URL, and on a collection whose names
    are strings or missing [importCompanies] returns for them, with every
    validated record either added or skipped. *)
Theorem validated_records_import
        (numberToString : Z -> string) (now : nat -> string)
        (raw : list (option Company)) (validated companies : list Company)
        (s : Storage) :
  validateAndNormalizeCompanies numberToString now raw = Return validated ->
  forallb nameTyped companies = true ->
  forallb allStrings validated = true
  /\ length validated
     = length (filter (fun o => match o with
                                | Some c => identified c
                                | None => false
                                end) raw)
  /\ exists new added skipped,
       SidePanel.importCompanies companies s validated
       = ((companies ++ new)%list,
          Store.updateCompanies (companies ++ new)%list s,
          Return (added, skipped))
       /\ added = length new
       /\ added + skipped = length validated.
Proof.
  intros V T. destruct (validateFrom_spec _ _ _ _ _ V) as (A & L & _).
  split; [exact A|]. split; [exact L|].
  assert (Tv : forallb nameTyped validated = true).
  { revert A. apply CsvRoundTrip.forallb_impl. apply allStrings_nameTyped. }
  destruct (importLoop_typed validated companies 0 0 T Tv)
    as (new & a' & k' & E & Ea & Ek & _).
  exists new, a', k'. unfold SidePanel.importCompanies. rewrite E.
  repeat split; lia.
Qed.

Lemma validated_records_import_witness :
  Csv.validateAndNormalizeCompanies
    Samples.noNumbers Samples.importTime Samples.rawRecords
  = Return Samples.validatedRecords
  /\ forallb Spec.nameTyped [Examples.acme] = true
  /\ forallb Exchange.allStrings Samples.validatedRecords = true
  /\ length Samples.validatedRecords = 2.
Proof.
  split; [reflexivity|]. split; [reflexivity|].
  destruct (ImportTheorems.validated_records_import
              Samples.noNumbers Samples.importTime Samples.rawRecords
              Samples.validatedRecords [Examples.acme] Examples.emptyStorage
              eq_refl eq_refl) as (A & L & _).
  split; [exact A|exact L].
Defined.

(** X6.  Importing a batch a second time adds nothing: when the names are
    strings or missing and every record of the batch carries an identity
    (a URL that normalizes, or a usable name), a second
    [importCompanies] of the same batch skips all of it and leaves the
    panel's array and the storage as the first one left them. *)
Theorem import_twice_adds_nothing
        (companies : list Company) (s : Storage) (batch : list Company) :
  forallb nameTyped companies = true ->
  forallb nameTyped batch = true ->
  forallb hasIdentity batch = true ->
  exists companies' added skipped,
    SidePanel.importCompanies companies s batch
    = (companies', Store.updateCompanies companies' s,
       Return (added, skipped))
    /\ SidePanel.importCompanies
         companies' (Store.updateCompanies companies' s) batch
       = (companies', Store.updateCompanies companies' s,
          Return (0, length batch)).
Proof.
  intros Tc Tb Ib.
  destruct (importLoop_typed batch companies 0 0 Tc Tb)
    as (new & a' & k' & E & _ & _ & _ & Tn).
  exists (companies ++ new)%list, a', k'.
  unfold SidePanel.importCompanies. rewrite E. split; [reflexivity|].
  rewrite importLoop_skips; [reflexivity|].
  intros x Hx.
  pose proof (importLoop_covers batch companies 0 0 Tc Tb x Hx) as C.
  rewrite E in C. apply C.
  rewrite forallb_forall in Ib. exact (Ib x Hx).
Qed.

Lemma import_twice_adds_nothing_witness :
  forallb Spec.nameTyped [Examples.sentinelOnly] = true
  /\ forallb Spec.nameTyped Samples.twoRecords = true
  /\ forallb Spec.hasIdentity Samples.twoRecords = true
  /\ exists companies' added skipped,
       SidePanel.importCompanies [Examples.sentinelOnly]
                                 Examples.emptyStorage Samples.twoRecords
       = (companies', Store.updateCompanies companies' Examples.emptyStorage,
          Return (added, skipped))
       /\ SidePanel.importCompanies
            companies'
            (Store.updateCompanies companies' Examples.emptyStorage)
            Samples.twoRecords
          = (companies',
             Store.updateCompanies companies' Examples.emptyStorage,
             Return (0, length Samples.twoRecords)).
Proof.
  split; [reflexivity|]. split; [reflexivity|]. split; [reflexivity|].
  apply (ImportTheorems.import_twice_adds_nothing
           [Examples.sentinelOnly] Examples.emptyStorage Samples.twoRecords);
    reflexivity.
Defined.

Lemma normalizeName_string (x : string) :
  exists o, Matcher.normalizeName (VString x) = Return o.
Proof.
  unfold Matcher.normalizeName.
  destruct (negb (truthy (VString x)) || strictEqStr (VString x) "N/A");
    eauto.
Qed.

Lemma parseRows_identified (m : HeaderMap) (lines : list string) :
  forallb identified (parseRows m lines) = true
  /\ forallb nameTyped (parseRows m lines) = true.
Proof.
  induction lines as [|l lines [IH1 IH2]]; [split; reflexivity|].
  cbn [parseRows]. unfold parseRow.
  destruct (parseCSVLine l) as [|v vs]; [split; assumption|].
  match goal with
  | |- context [if ?b then _ else _] => destruct b eqn:B
  end; [|split; assumption].
  cbn [forallb]. rewrite IH1, IH2. unfold identified. rewrite B.
  split; [reflexivity|].
  rewrite andb_true_r. unfold nameTyped. cbn [name].
  unfold cell. destruct (nameColumn m) as [i|]; [|reflexivity].
  destruct (nth_error (v :: vs) i) as [x|]; [|reflexivity].
  destruct (normalizeName_string (Str.trim x)) as (o & ->). reflexivity.
Qed.

Lemma parseCSV_identified (text : string) :
  forallb identified (parseCSV text) = true.
Proof.
  unfold parseCSV. destruct (filter notBlank (split newline text));
    [reflexivity|]. apply parseRows_identified.
Qed.

Lemma filter_identified (cs : list Company) :
  forallb identified cs = true ->
  length (filter (fun o => match o with
                           | Some c => identified c
                           | None => false
                           end) (map Some cs))
  = length cs.
Proof.
  induction cs as [|c cs IH]; intros H; [reflexivity|].
  cbn [forallb] in H. apply andb_prop in H as [H H'].
  cbn [map filter]. rewrite H. cbn [length]. rewrite (IH H'). reflexivity.
Qed.

(** X7.  A CSV import never fails on the records: every row that
    [parseCSV] returns has a name or a URL, so the validation keeps all of
    them, and on a collection whose names are strings or missing the
    handler ends either with no companies found in the file and nothing
    changed, or with an import in which the valid records are all the
    records of the file and each is added or skipped. *)
Theorem handleImportCSV_outcome
        (numberToString : Z -> string) (now : nat -> string)
        (companies : list Company) (s : Storage) (text : string) :
  forallb nameTyped companies = true ->
  (parseCSV text = []
   /\ handleImportCSV numberToString now companies s text
      = (companies, s, NoCompanies))
  \/ (exists new added skipped,
        handleImportCSV numberToString now companies s text
        = ((companies ++ new)%list,
           Store.updateCompanies (companies ++ new)%list s,
           ImportComplete (length (parseCSV text)) (length (parseCSV text))
                          added skipped)
        /\ 0 < length (parseCSV text)
        /\ added = length new
        /\ added + skipped = length (parseCSV text)).
Proof.
  intros T. unfold handleImportCSV, importRecords.
  pose proof (parseCSV_identified text) as Id.
  destruct (parseCSV text) as [|c cs]; [left; split; reflexivity|].
  right.
  destruct (validateFrom_returns numberToString now (c :: cs) 0)
    as (validated & V).
  assert (L : length validated = length (c :: cs)).
  { destruct (validateFrom_spec _ _ _ _ _ V) as (_ & L & _).
    rewrite L. apply filter_identified. exact Id. }
  unfold validateAndNormalizeCompanies. rewrite V.
  destruct (validateFrom_spec _ _ _ _ _ V) as (A & _ & _).
  assert (Tv : forallb nameTyped validated = true).
  { revert A. apply CsvRoundTrip.forallb_impl. apply allStrings_nameTyped. }
  destruct (importLoop_typed validated companies 0 0 T Tv)
    as (new & a' & k' & E & Ea & Ek & _).
  cbn [map].
  destruct validated as [|v vs]; [discriminate|].
  exists new, a', k'. unfold SidePanel.importCompanies. rewrite E.
  change (Some c :: map Some cs) with (map Some (c :: cs)).
  rewrite length_map, L. repeat split; try lia.
  cbn. lia.
Qed.

Lemma handleImportCSV_outcome_witness :
  forallb Spec.nameTyped [Examples.acme] = true
  /\ length (Csv.parseCSV Samples.csvText) = 2
  /\ ((Csv.parseCSV Samples.csvText = []
       /\ Csv.handleImportCSV Samples.noNumbers Samples.importTime
                              [Examples.acme] Examples.emptyStorage
                              Samples.csvText
          = ([Examples.acme], Examples.emptyStorage, Csv.NoCompanies))
      \/ (exists new added skipped,
            Csv.handleImportCSV Samples.noNumbers Samples.importTime
                                [Examples.acme] Examples.emptyStorage
                                Samples.csvText
            = (([Examples.acme] ++ new)%list,
               Store.updateCompanies ([Examples.acme] ++ new)%list
                                     Examples.emptyStorage,
               Csv.ImportComplete
                 (length (Csv.parseCSV Samples.csvText))
                 (length (Csv.parseCSV Samples.csvText)) added skipped)
            /\ 0 < length (Csv.parseCSV Samples.csvText)
            /\ added = length new
            /\ added + skipped = length (Csv.parseCSV Samples.csvText))).
Proof.
  split; [reflexivity|]. split; [reflexivity|].
  apply (ImportTheorems.handleImportCSV_outcome
           Samples.noNumbers Samples.importTime [Examples.acme]
           Examples.emptyStorage Samples.csvText).
  reflexivity.
Defined.

End ImportTheorems.

(* ================================================================= *)
(** ** The collection during a run *)

Module RunFacts.

Import Coordinator Run.

Lemma scraped_app (a b : list effect) :
  scraped (a ++ b) = (scraped a ++ scraped b)%list.
Proof.
  induction a as [|e a IH]; [reflexivity|].
  destruct e as [[]| |]; cbn; rewrite ?IH; reflexivity.
Qed.

Lemma still_refl (c : Config) : still c c.
Proof.
  split; [|reflexivity]. exists []. rewrite app_nil_r. split; reflexivity.
Qed.

Lemma still_emit (e : effect) (c x : Config) :
  scraped [e] = [] -> still c x -> still c (emit e x).
Proof.
  intros E [(l & T & S) D]. split; [|exact D].
  exists (l ++ [e])%list. cbn [emit trace]. rewrite T, app_assoc.
  split; [reflexivity|]. rewrite scraped_app, S, E. reflexivity.
Qed.

Lemma still_notifyUI (m : message) (c x : Config) :
  scraped [Notify m] = [] -> still c x -> still c (notifyUI m x).
Proof. apply still_emit. Qed.

Lemma still_withSt (f : State -> State) (c x : Config) :
  still c x -> still c (withSt f x).
Proof. intros H. exact H. Qed.

Lemma still_withActiveTab (t : option nat) (c x : Config) :
  still c x -> still c (withActiveTab t x).
Proof. intros H. exact H. Qed.

Lemma still_withTasks (l : list pc) (c x : Config) :
  still c x -> still c (withTasks l x).
Proof. intros H. exact H. Qed.

Lemma still_setTask (tid : nat) (p : pc) (c x : Config) :
  still c x -> still c (setTask tid p x).
Proof. intros H. exact H. Qed.

Lemma still_spawn (p : pc) (c x : Config) :
  still c x -> still c (spawn p x).
Proof. intros H. exact H. Qed.

Lemma still_saveState (c x : Config) : still c x -> still c (saveState x).
Proof. intros H. exact H. Qed.

Lemma still_closeActiveTab (c x : Config) :
  still c x -> still c (closeActiveTab x).
Proof.
  intros H. unfold closeActiveTab. destruct (activeTabId x) as [t|]; [|exact H].
  destruct (t =? 0)%nat; [exact H|].
  apply still_withActiveTab. apply still_emit; [reflexivity|exact H].
Qed.

Lemma still_completeScraping (c x : Config) :
  still c x -> still c (completeScraping x).
Proof.
  intros H. unfold completeScraping.
  apply still_notifyUI; [reflexivity|]. apply still_saveState.
  apply still_closeActiveTab. apply still_withSt. exact H.
Qed.

Lemma still_stopScraping (c x : Config) :
  still c x -> still c (stopScraping x).
Proof.
  intros H. unfold stopScraping.
  apply still_notifyUI; [reflexivity|]. apply still_saveState.
  apply still_closeActiveTab. apply still_withSt. exact H.
Qed.

Ltac still :=
  repeat lazymatch goal with
    | H : still ?c ?x |- still ?c ?x => exact H
    | |- still ?c ?c => apply still_refl
    | |- still _ (notifyUI _ _) => apply still_notifyUI; [reflexivity|]
    | |- still _ (emit _ _) => apply still_emit; [reflexivity|]
    | |- still _ (saveState _) => apply still_saveState
    | |- still _ (withActiveTab _ _) => apply still_withActiveTab
    | |- still _ (withTasks _ _) => apply still_withTasks
    | |- still _ (setTask _ _ _) => apply still_setTask
    | |- still _ (spawn _ _) => apply still_spawn
    | |- still _ (closeActiveTab _) => apply still_closeActiveTab
    | |- still _ (completeScraping _) => apply still_completeScraping
    | |- still _ (stopScraping _) => apply still_stopScraping
    | |- still _ (withSt _ _) => apply still_withSt
    end.

Lemma still_afterQueue (tid : nat) (c x : Config) :
  still c x -> still c (afterQueue tid x).
Proof.
  intros H. unfold afterQueue.
  destruct (isRunning (st x) && negb (isPaused (st x))
            && (pagesProcessed (st x) <? maxPages (st x))%Z); still.
Qed.

Lemma still_pageFailure (tid : nat) (msg : string) (c x : Config) :
  still c x -> still c (pageFailure tid msg x).
Proof. intros H. unfold pageFailure. still. Qed.

Lemma still_paginationFailure (tid : nat) (msg : string) (c x : Config) :
  still c x -> still c (paginationFailure tid msg x).
Proof. intros H. unfold paginationFailure. still. Qed.

Lemma still_companyFailure (tid : nat) (o : owner) (i : nat) (u msg : string)
      (c x : Config) :
  still c x -> still c (companyFailure tid o i u msg x).
Proof. intros H. unfold companyFailure. still. Qed.

Lemma still_loopExit (tid : nat) (o : owner) (c x : Config) :
  still c x -> still c (loopExit tid o x).
Proof.
  intros H. destruct o; cbn [loopExit]; [apply still_afterQueue; exact H|still].
Qed.

Lemma still_loopThrow (tid : nat) (o : owner) (msg : string) (c x : Config) :
  still c x -> still c (loopThrow tid o msg x).
Proof.
  intros H. destruct o; cbn [loopThrow];
    [apply still_pageFailure; exact H|still].
Qed.

Lemma still_enterPage (tid : nat) (c x : Config) :
  still c x -> still c (enterPage tid x).
Proof.
  intros H. unfold enterPage.
  destruct (negb (isRunning (st x)) || isPaused (st x)); still.
Qed.

Lemma still_onTick (tid : nat) (o : owner) (i : nat) (c : Config) :
  still c (onTick tid o i c).
Proof.
  unfold onTick.
  destruct (nth_error (companyQueue (st c)) i) as [u|];
    [|apply still_loopExit; still].
  destruct (negb (isRunning (st c)) || isPaused (st c));
    [apply still_loopExit; still|].
  destruct (Matcher.isDuplicateCompany _ _) as [[|]|e].
  - still.
  - still.
  - apply still_loopThrow. still.
Qed.

Lemma still_onUrls (tid : nat) (r : urlsResponse) (c : Config) :
  still c (onUrls tid r c).
Proof.
  unfold onUrls. destruct r as [error| |[|l ls]].
  - apply still_pageFailure. still.
  - apply still_pageFailure. still.
  - apply still_afterQueue. still.
  - destruct (prefilter _ _) as [[fresh skipped]|e].
    + destruct skipped; still.
    + apply still_pageFailure. still.
Qed.

Lemma still_onSaved (tid fresh : nat) (c : Config) :
  still c (onSaved tid fresh c).
Proof.
  unfold onSaved. destruct (0 <? fresh)%nat.
  - apply still_onTick.
  - apply still_afterQueue. still.
Qed.

Lemma still_onCreate (tid : nat) (o : owner) (i : nat) (u : string)
      (r : createResult) (c : Config) :
  still c (onCreate tid o i u r c).
Proof.
  unfold onCreate. destruct r as [tab|msg].
  - still.
  - apply still_companyFailure. still.
Qed.

Lemma still_onClick (tid : nat) (r : clickResult) (c : Config) :
  still c (onClick tid r c).
Proof.
  unfold onClick. destruct r as [msg| |].
  - apply still_paginationFailure. still.
  - destruct ((length (companyQueue (st c)) =? 0)%nat
              && (processedCompanies (st c) =? 0)%Z).
    + apply still_paginationFailure. still.
    + still.
  - still.
Qed.

Lemma still_onNav (tid : nat) (r : navResult) (c : Config) :
  still c (onNav tid r c).
Proof.
  unfold onNav. destruct r as [|msg].
  - apply still_enterPage. still.
  - apply still_paginationFailure. still.
Qed.

Lemma still_announces (c x : Config) : still c x -> announces c x [].
Proof.
  intros [(l & T & S) D]. exists l. split; [exact T|]. split; [exact S|].
  unfold Store.getCompanies. rewrite D, app_nil_r. reflexivity.
Qed.

(** A record is stored by [processCompany] exactly when it is announced:
    what a delivery to a detail page does. *)
Lemma onDetail_announces (tid : nat) (o : owner) (i : nat) (u : string)
      (t : nat) (r : detailResult) (c : Config) :
  still c (onDetail tid o i u t r c)
  \/ exists d,
       Matcher.isDuplicateCompany (Some d) (Store.getCompanies (storage c))
       = Return false
       /\ announces c (onDetail tid o i u t r c) [d].
Proof.
  unfold onDetail. destruct r as [msg| |data rm].
  - left. apply still_companyFailure. still.
  - left. apply still_companyFailure. still.
  - unfold Store.saveCompanyData.
    destruct (Matcher.isDuplicateCompany
                (Some data) (Store.getCompanies (storage c)))
      as [[|]|e] eqn:D; cbn [bind].
    + left. assert (S : still c (withStorage (storage c) c)).
      { split; [|reflexivity]. exists []. rewrite app_nil_r.
        split; reflexivity. }
      destruct rm as [msg|]; [apply still_companyFailure|]; still.
    + right. exists data. split; [exact D|].
      set (x := notifyUI _ _).
      assert (A : announces c x [data]).
      { exists [Notify (CompanyScraped
                          data (processedCompanies (st c) + 1)%Z)].
        repeat split. }
      assert (K : forall y, still x y -> announces c y [data]).
      { intros y [(l & T & S) E]. destruct A as (l0 & T0 & S0 & G0).
        exists (l0 ++ l)%list. rewrite T, T0, <- app_assoc.
        split; [reflexivity|]. rewrite scraped_app, S0, S.
        split; [reflexivity|].
        unfold Store.getCompanies in *. rewrite E. exact G0. }
      destruct rm as [msg|]; apply K;
        [apply still_companyFailure|]; still.
    + left. apply still_companyFailure. still.
Qed.

(** One event of the service worker's side. *)
Lemma step_announces (c : Config) (e : event) :
  workerOnly [e] = true ->
  still c (step c e)
  \/ exists d,
       Matcher.isDuplicateCompany (Some d) (Store.getCompanies (storage c))
       = Return false
       /\ announces c (step c e) [d].
Proof.
  intros W. destruct e as [tab ok n p0| | | |l| |tid i]; try discriminate;
    cbn [step].
  - left. destruct ok; [|apply still_refl].
    unfold startScraping. apply still_enterPage.
    apply still_notifyUI; [reflexivity|]. apply still_saveState.
    split; [|reflexivity]. exists []. cbn [trace]. rewrite app_nil_r.
    split; reflexivity.
  - left. unfold pauseScraping. still.
  - left. unfold resumeScraping.
    match goal with
    | |- still _ (if ?b then _ else _) => destruct b
    end; still.
  - left. still.
  - unfold deliver.
    destruct (nth_error (tasks c) tid) as [[|fresh|o k|o k u|o k u t| | |]|];
      destruct i as [r| |r|r|r|r]; try (left; apply still_refl).
    + left. apply still_onUrls.
    + left. apply still_onSaved.
    + left. apply still_onTick.
    + left. apply still_onCreate.
    + apply onDetail_announces.
    + left. apply still_onClick.
    + left. apply still_onNav.
Qed.

End RunFacts.

(* ================================================================= *)
(** ** One activation at a time *)

Module ActivationFacts.

Import Coordinator Run Activations CoordinatorFacts.

Lemma live_setNth (tid : nat) (p q : pc) (l : list pc) :
  nth_error l tid = Some p -> live p = true ->
  length (filter live (setNth tid q l)) <= length (filter live l).
Proof.
  revert tid. induction l as [|x l IH]; intros [|tid] H L;
    cbn [nth_error] in H; try discriminate.
  - injection H as ->. cbn [setNth filter]. rewrite L.
    destruct (live q); cbn [length]; lia.
  - cbn [setNth filter]. specialize (IH tid H L).
    destruct (live x); cbn [length]; lia.
Qed.

Lemma deliver_tasks (tid : nat) (i : input) (c : Config) :
  length (filter live (tasks (deliver tid i c)))
  <= length (filter live (tasks c)).
Proof.
  destruct (nth_error (tasks c) tid) as [p|] eqn:H.
  - destruct (live p) eqn:L.
    + destruct (deliver_shape tid i c p H) as (p' & -> & _).
      apply (live_setNth tid p p'); assumption.
    + destruct p; try discriminate. unfold deliver. rewrite H.
      destruct i; apply Nat.le_refl.
  - unfold deliver. rewrite H. apply Nat.le_refl.
Qed.

(** Without a new start and without a resume no activation is added. *)
Lemma solo_step (c : Config) (e : event) :
  noRestart [e] = true -> solo c = true -> solo (step c e) = true.
Proof.
  unfold solo. intros N S. apply Nat.leb_le in S. apply Nat.leb_le.
  destruct e as [tab ok n p0| | | |l| |tid i]; try discriminate;
    cbn [step].
  - exact S.
  - unfold stopScraping. cbn [notifyUI emit saveState withStorage tasks].
    rewrite tasks_closeActiveTab. exact S.
  - exact S.
  - exact S.
  - pose proof (deliver_tasks tid i c). lia.
Qed.

Lemma noRestart_cons (e : event) (es : list event) :
  noRestart (e :: es) = true ->
  noRestart [e] = true /\ noRestart es = true.
Proof. destruct e; cbn; intros H; try discriminate; auto. Qed.

Lemma solo_run (es : list event) (c : Config) :
  noRestart es = true -> solo c = true -> solo (run c es) = true.
Proof.
  revert c. induction es as [|e es IH]; intros c N S; [exact S|].
  apply noRestart_cons in N as [Ne Nes].
  change (run c (e :: es)) with (run (step c e) es).
  apply IH; [exact Nes|]. apply solo_step; assumption.
Qed.

End ActivationFacts.

Module RunTheorems.

Import Coordinator Run RunFacts Activations ActivationFacts.

Lemma workerOnly_cons (e : event) (es : list event) :
  workerOnly (e :: es) = true ->
  workerOnly [e] = true /\ workerOnly es = true.
Proof. destruct e; cbn; intros H; try discriminate; auto. Qed.

(** The collection along a run of the service worker: only appended to,
    by the records announced. *)
Lemma run_announces (es : list event) (c : Config) :
  workerOnly es = true ->
  exists l,
    trace (run c es) = (trace c ++ l)%list
    /\ Store.getCompanies (storage (run c es))
       = (Store.getCompanies (storage c) ++ scraped l)%list.
Proof.
  revert c. induction es as [|e es IH]; intros c W.
  - exists []. cbn. rewrite !app_nil_r. split; reflexivity.
  - apply workerOnly_cons in W as [We Wes].
    change (run c (e :: es)) with (run (step c e) es).
    destruct (IH (step c e) Wes) as (l2 & T2 & G2).
    assert (A : exists ds, announces c (step c e) ds).
    { destruct (step_announces c e We) as [S|(d & _ & A)].
      - exists []. apply still_announces. exact S.
      - exists [d]. exact A. }
    destruct A as (ds & l1 & T1 & S1 & G1).
    exists (l1 ++ l2)%list. rewrite T2, T1, G2, G1, scraped_app, S1.
    rewrite <- !app_assoc. split; reflexivity.
Qed.

(** X8.  While one activation is in flight and none is added (no resume
    and no new start), and the collection is not replaced from outside,
    the run stays with one activation, so that no two saves of a record
    are interleaved; the stored collection is only appended to, and the
    records appended are exactly those announced to the panel by
    [companyScraped], in the same order. *)
Theorem stored_records_are_announced (c : Config) (es : list event) :
  solo c = true -> noRestart es = true -> workerOnly es = true ->
  solo (run c es) = true
  /\ exists l,
       trace (run c es) = (trace c ++ l)%list
       /\ Store.getCompanies (storage (run c es))
          = (Store.getCompanies (storage c) ++ scraped l)%list.
Proof.
  intros S N W. split.
  - apply solo_run; assumption.
  - apply run_announces. exact W.
Qed.

Lemma stored_records_are_announced_witness :
  Activations.solo Cases.started = true
  /\ Run.noRestart Cases.firstVisit = true
  /\ Run.workerOnly Cases.firstVisit = true
  /\ exists l,
       Coordinator.trace (Coordinator.run Cases.started Cases.firstVisit)
       = (Coordinator.trace Cases.started ++ l)%list
       /\ Store.getCompanies
            (Coordinator.storage
               (Coordinator.run Cases.started Cases.firstVisit))
          = (Store.getCompanies (Coordinator.storage Cases.started)
             ++ Run.scraped l)%list.
Proof.
  split; [reflexivity|]. split; [reflexivity|]. split; [reflexivity|].
  exact (proj2 (stored_records_are_announced
                  Cases.started Cases.firstVisit
                  eq_refl eq_refl eq_refl)).
Defined.

Lemma receive_app (a b : list effect) (p : Panel.t) :
  Panel.receive (a ++ b) p = (p' <- Panel.receive a p ;; Panel.receive b p').
Proof.
  revert p. induction a as [|e a IH]; intros p; [reflexivity|].
  destruct e as [m| |]; cbn [app Panel.receive]; try apply IH.
  destruct (Panel.handleServiceWorkerMessage m p) as [p1|msg];
    cbn [bind]; [apply IH|reflexivity].
Qed.

Lemma handle_other (m : message) (p : Panel.t) :
  scraped [Notify m] = [] ->
  exists p1, Panel.handleServiceWorkerMessage m p = Return p1
             /\ Panel.companies p1 = Panel.companies p.
Proof.
  destruct m; try discriminate; intros _;
    cbn [Panel.handleServiceWorkerMessage]; eauto.
Qed.

Lemma scraped_cons (e : effect) (l : list effect) :
  scraped (e :: l) = (scraped [e] ++ scraped l)%list.
Proof. exact (scraped_app [e] l). Qed.

Lemma receive_none (l : list effect) (p : Panel.t) :
  scraped l = [] ->
  exists p', Panel.receive l p = Return p'
             /\ Panel.companies p' = Panel.companies p.
Proof.
  revert p. induction l as [|e l IH]; intros p S; [cbn; eauto|].
  rewrite scraped_cons in S. apply app_eq_nil in S as [Se Sl].
  destruct e as [m| |]; cbn [Panel.receive]; try (apply IH; exact Sl).
  destruct (handle_other m p Se) as (p1 & -> & E1). cbn [bind].
  destruct (IH p1 Sl) as (p' & -> & E).
  exists p'. split; [reflexivity|]. rewrite E, E1. reflexivity.
Qed.

Lemma receive_one (l : list effect) (p : Panel.t) (d : Company) :
  scraped l = [d] ->
  SidePanel.isDuplicate (Panel.companies p) (Some d) = Return false ->
  exists p', Panel.receive l p = Return p'
             /\ Panel.companies p' = (Panel.companies p ++ [d])%list.
Proof.
  revert p. induction l as [|e l IH]; intros p S D; [discriminate|].
  destruct e as [m| |]; cbn [Panel.receive]; try (apply IH; assumption).
  destruct (scraped [Notify m]) as [|d0 ds] eqn:Sm.
  - rewrite scraped_cons, Sm in S. cbn [app] in S.
    destruct (handle_other m p Sm) as (p1 & -> & E1). cbn [bind].
    rewrite <- E1 in D. destruct (IH p1 S D) as (p' & -> & E).
    exists p'. split; [reflexivity|]. rewrite E, E1. reflexivity.
  - destruct m; try discriminate.
    cbn [scraped] in S. injection S as -> S.
    cbn [Panel.handleServiceWorkerMessage]. rewrite D. cbn [bind].
    destruct (receive_none l (Panel.mk (Panel.companies p ++ [d])%list
                                       (Panel.setProcessed
                                          processed (Panel.state p))) S)
      as (p' & -> & E).
    eauto.
Qed.

Lemma run_mirrors (es : list event) (c : Config) (p : Panel.t) :
  workerOnly es = true ->
  Panel.companies p = Store.getCompanies (storage c) ->
  exists l p',
    trace (run c es) = (trace c ++ l)%list
    /\ Panel.receive l p = Return p'
    /\ Panel.companies p' = Store.getCompanies (storage (run c es)).
Proof.
  revert c p. induction es as [|e es IH]; intros c p W M.
  - exists [], p. cbn. rewrite app_nil_r. auto.
  - apply workerOnly_cons in W as [We Wes].
    change (run c (e :: es)) with (run (step c e) es).
    assert (A : exists l1 p1,
               trace (step c e) = (trace c ++ l1)%list
               /\ Panel.receive l1 p = Return p1
               /\ Panel.companies p1
                  = Store.getCompanies (storage (step c e))).
    { destruct (step_announces c e We) as [S|(d & D & A)].
      - destruct (still_announces _ _ S) as (l1 & T1 & S1 & G1).
        destruct (receive_none l1 p S1) as (p1 & R & E).
        exists l1, p1. rewrite G1, app_nil_r, E. auto.
      - destruct A as (l1 & T1 & S1 & G1).
        rewrite <- M, <- DuplicateTheorems.sidePanel_isDuplicate in D.
        destruct (receive_one l1 p d S1 D) as (p1 & R & E).
        exists l1, p1. rewrite G1, E, M. auto. }
    destruct A as (l1 & p1 & T1 & R1 & M1).
    destruct (IH (step c e) p1 Wes M1) as (l2 & p2 & T2 & R2 & M2).
    exists (l1 ++ l2)%list, p2. rewrite T2, T1, <- app_assoc.
    split; [reflexivity|]. split; [|exact M2].
    rewrite receive_app, R1. exact R2.
Qed.

(** X9.  The panel shows what is stored: when the panel's array is the
    stored collection and the panel handles the notifications of the
    service worker in the order in which they are sent, then after a run
    with one activation in flight (no resume and no new start, the
    collection not replaced from outside) the handler has returned on
    each of them and the panel's array is the stored collection again. *)
Theorem panel_mirrors_store (es : list event) (c : Config) (p : Panel.t) :
  solo c = true -> noRestart es = true -> workerOnly es = true ->
  Panel.companies p = Store.getCompanies (storage c) ->
  solo (run c es) = true
  /\ exists l p',
       trace (run c es) = (trace c ++ l)%list
       /\ Panel.receive l p = Return p'
       /\ Panel.companies p' = Store.getCompanies (storage (run c es)).
Proof.
  intros S N W M. split.
  - apply solo_run; assumption.
  - apply run_mirrors; assumption.
Qed.

Lemma panel_mirrors_store_witness :
  Activations.solo Cases.started = true
  /\ Run.noRestart Cases.firstVisit = true
  /\ Run.workerOnly Cases.firstVisit = true
  /\ Panel.companies Panel.create
     = Store.getCompanies (Coordinator.storage Cases.started)
  /\ exists l p',
       Coordinator.trace (Coordinator.run Cases.started Cases.firstVisit)
       = (Coordinator.trace Cases.started ++ l)%list
       /\ Panel.receive l Panel.create = Return p'
       /\ Panel.companies p'
          = Store.getCompanies
              (Coordinator.storage
                 (Coordinator.run Cases.started Cases.firstVisit)).
Proof.
  split; [reflexivity|]. split; [reflexivity|]. split; [reflexivity|].
  split; [reflexivity|].
  exact (proj2 (panel_mirrors_store
                  Cases.firstVisit Cases.started Panel.create
                  eq_refl eq_refl eq_refl eq_refl)).
Defined.

(** *** The panel's own edits *)

Lemma removeAt_length {A} (i : nat) (l : list A) :
  i < length l -> length (Panel.removeAt i l) = length l - 1.
Proof.
  intros H. unfold Panel.removeAt.
  rewrite length_app, length_firstn, length_skipn. lia.
Qed.

Lemma removeAt_nth {A} (i j : nat) (l : list A) :
  i < length l ->
  nth_error (Panel.removeAt i l) j
  = nth_error l (if (j <? i)%nat then j else S j).
Proof.
  intros H. unfold Panel.removeAt.
  destruct (j <? i)%nat eqn:E.
  - apply Nat.ltb_lt in E.
    rewrite nth_error_app1 by (rewrite length_firstn; lia).
    rewrite nth_error_firstn.
    apply Nat.ltb_lt in E. rewrite E. reflexivity.
  - apply Nat.ltb_ge in E.
    rewrite nth_error_app2 by (rewrite length_firstn; lia).
    rewrite length_firstn, nth_error_skipn.
    f_equal. lia.
Qed.

(** X10.  Deleting a row removes exactly that record, in the panel and in
    the storage: for a valid index and a confirmed dialog the array loses
    the record at the index and keeps the others in their order, and the
    storage holds the new array; an index out of range or a declined
    dialog changes nothing.  After [handleClear] both are empty. *)
Theorem handleDeleteCompany_removes
        (index : Z) (confirmed : bool) (p : Panel.t) (s : Storage) :
  let r := Panel.handleDeleteCompany index confirmed p s in
  ((0 <= index < Z.of_nat (length (Panel.companies p)))%Z
   /\ confirmed = true ->
   length (Panel.companies (fst r)) = length (Panel.companies p) - 1
   /\ (forall j,
         nth_error (Panel.companies (fst r)) j
         = nth_error (Panel.companies p)
                     (if (j <? Z.to_nat index)%nat then j else S j))
   /\ Store.getCompanies (snd r) = Panel.companies (fst r))
  /\ (~ ((0 <= index < Z.of_nat (length (Panel.companies p)))%Z
         /\ confirmed = true) ->
      r = (p, s))
  /\ Panel.companies (fst (Panel.handleClear true p s)) = []
  /\ Store.getCompanies (snd (Panel.handleClear true p s)) = [].
Proof.
  cbv zeta. unfold Panel.handleDeleteCompany.
  destruct ((index <? 0)%Z
            || (Z.of_nat (length (Panel.companies p)) <=? index)%Z) eqn:R.
  - split; [|split; [reflexivity|split; reflexivity]].
    intros [[A B] _]. apply orb_prop in R as [R|R]; lia.
  - apply orb_false_elim in R as [R1 R2].
    apply Z.ltb_ge in R1. apply Z.leb_gt in R2.
    destruct confirmed; cbn [negb].
    + split; [|split; [|split; reflexivity]].
      * intros _. cbn [fst snd Panel.companies].
        assert (L : Z.to_nat index < length (Panel.companies p)) by lia.
        split; [apply removeAt_length; exact L|].
        split; [|reflexivity].
        intros j. apply removeAt_nth. exact L.
      * intros N. exfalso. apply N. split; [lia|reflexivity].
    + split; [|split; [reflexivity|split; reflexivity]].
      intros [_ C]. discriminate.
Qed.

Lemma handleDeleteCompany_removes_witness :
  Panel.companies
    (fst (Panel.handleDeleteCompany
            1 true
            (Panel.mk [Examples.acme; Examples.sentinelOnly; Examples.dataB]
                      (Panel.state Panel.create))
            Examples.emptyStorage))
  = [Examples.acme; Examples.dataB]
  /\ length
       (Panel.companies
          (fst (Panel.handleDeleteCompany
                  1 true
                  (Panel.mk [Examples.acme; Examples.sentinelOnly;
                             Examples.dataB]
                            (Panel.state Panel.create))
                  Examples.emptyStorage)))
     = 3 - 1.
Proof.
  split; [reflexivity|].
  refine (proj1 (proj1 (RunTheorems.handleDeleteCompany_removes
                          1 true
                          (Panel.mk [Examples.acme; Examples.sentinelOnly;
                                     Examples.dataB]
                                    (Panel.state Panel.create))
                          Examples.emptyStorage) _)).
  split; [cbn; lia|reflexivity].
Defined.

End RunTheorems.

(* ================================================================= *)
(** ** The persisted state *)

Module PersistFacts.

Import Coordinator Run Startup.

Lemma persisted_saveState (x : Config) : persisted (saveState x).
Proof.
  intros s H. cbn in H. injection H as <-. repeat split.
Qed.

Lemma persisted_emit (e : effect) (x : Config) :
  persisted x -> persisted (emit e x).
Proof. intros H. exact H. Qed.

Lemma persisted_withActiveTab (t : option nat) (x : Config) :
  persisted x -> persisted (withActiveTab t x).
Proof. intros H. exact H. Qed.

Lemma persisted_withTasks (l : list pc) (x : Config) :
  persisted x -> persisted (withTasks l x).
Proof. intros H. exact H. Qed.

Lemma persisted_withSt (f : State -> State) (x : Config) :
  (forall s, sameRun s (f s)) -> persisted x -> persisted (withSt f x).
Proof.
  intros F H s E. cbn [withSt storage st] in *.
  destruct (H s E) as (A & B & C & D & G).
  destruct (F (st x)) as (A' & B' & C' & D' & G').
  repeat split; congruence.
Qed.


Lemma persisted_closeActiveTab (x : Config) :
  persisted x -> persisted (closeActiveTab x).
Proof.
  intros H. unfold closeActiveTab. destruct (activeTabId x) as [t|]; [|exact H].
  destruct (t =? 0)%nat; exact H.
Qed.

Lemma persisted_completeScraping (x : Config) : persisted (completeScraping x).
Proof.
  unfold completeScraping. apply persisted_emit, persisted_saveState.
Qed.

Ltac persisted :=
  repeat lazymatch goal with
    | H : persisted ?x |- persisted ?x => exact H
    | |- persisted (saveState _) => apply persisted_saveState
    | |- persisted (completeScraping _) => apply persisted_completeScraping
    | |- persisted (notifyUI _ _) => apply persisted_emit
    | |- persisted (emit _ _) => apply persisted_emit
    | |- persisted (withActiveTab _ _) => apply persisted_withActiveTab
    | |- persisted (withTasks _ _) => apply persisted_withTasks
    | |- persisted (setTask _ _ _) => apply persisted_withTasks
    | |- persisted (spawn _ _) => apply persisted_withTasks
    | |- persisted (closeActiveTab _) => apply persisted_closeActiveTab
    | |- persisted (withSt _ _) =>
        apply persisted_withSt; [intros; repeat split|]
    end.









End PersistFacts.

Module PersistTheorems.

Import Coordinator Run Startup PersistFacts.



End PersistTheorems.

(* ================================================================= *)
(** ** A halted run *)

Module HaltFacts.

Import Coordinator Run CoordinatorFacts QueueTheorems.

Lemma idle_refl (c : Config) : idle c c.
Proof. repeat split. auto. Qed.

Lemma idle_emit (e : effect) (c x : Config) :
  opened [e] = [] -> idle c x -> idle c (emit e x).
Proof.
  intros E (T & O & H). repeat split; [exact T| |exact H].
  cbn [emit trace]. rewrite opened_app, E, app_nil_r. exact O.
Qed.

Lemma idle_withSt (f : State -> State) (c x : Config) :
  (forall s, negb (isRunning s) || isPaused s = true ->
             negb (isRunning (f s)) || isPaused (f s) = true) ->
  idle c x -> idle c (withSt f x).
Proof.
  intros F (T & O & H). repeat split; [exact T|exact O|].
  intros Hc. unfold halted. cbn [withSt st]. apply F. exact (H Hc).
Qed.

Lemma idle_withStorage (s : Storage) (c x : Config) :
  idle c x -> idle c (withStorage s x).
Proof. intros H. exact H. Qed.

Lemma idle_withActiveTab (t : option nat) (c x : Config) :
  idle c x -> idle c (withActiveTab t x).
Proof. intros H. exact H. Qed.

Lemma idle_saveState (c x : Config) : idle c x -> idle c (saveState x).
Proof. intros H. exact H. Qed.

Lemma idle_closeActiveTab (c x : Config) :
  idle c x -> idle c (closeActiveTab x).
Proof.
  intros H. unfold closeActiveTab. destruct (activeTabId x) as [t|]; [|exact H].
  destruct (t =? 0)%nat; [exact H|].
  apply idle_withActiveTab. apply idle_emit; [reflexivity|exact H].
Qed.

Ltac flags :=
  let s := fresh "s" in
  let H := fresh "H" in
  intros s H; cbn; first [exact H | reflexivity].

Lemma idle_completeScraping (c x : Config) :
  idle c x -> idle c (completeScraping x).
Proof.
  intros H. unfold completeScraping.
  apply idle_emit; [reflexivity|]. apply idle_saveState.
  apply idle_closeActiveTab. apply idle_withSt; [flags|exact H].
Qed.

Ltac idle :=
  repeat lazymatch goal with
    | H : idle ?c ?x |- idle ?c ?x => exact H
    | |- idle ?c ?c => apply idle_refl
    | |- idle _ (notifyUI _ _) => apply idle_emit; [reflexivity|]
    | |- idle _ (emit _ _) => apply idle_emit; [reflexivity|]
    | |- idle _ (saveState _) => apply idle_saveState
    | |- idle _ (withStorage _ _) => apply idle_withStorage
    | |- idle _ (withActiveTab _ _) => apply idle_withActiveTab
    | |- idle _ (closeActiveTab _) => apply idle_closeActiveTab
    | |- idle _ (completeScraping _) => apply idle_completeScraping
    | |- idle _ (withSt _ _) => apply idle_withSt; [flags|]
    end.

Lemma openings_setNth (l : list pc) (tid : nat) (p q : pc) :
  nth_error l tid = Some p ->
  length (filter opening (setNth tid q l)) + (if opening p then 1 else 0)
  = length (filter opening l) + (if opening q then 1 else 0).
Proof.
  revert tid. induction l as [|a l IH]; intros [|tid] H; try discriminate.
  - cbn in H. injection H as ->. cbn [setNth filter].
    destruct (opening p), (opening q); cbn [length]; lia.
  - cbn [setNth filter]. cbn in H. specialize (IH tid H).
    destruct (opening a); cbn [length]; lia.
Qed.

(** An activation that goes on, after effects that request no tab, at a
    point where no tab is about to be requested. *)
Lemma bounded_setTask (tid : nat) (p q : pc) (c x : Config) :
  nth_error (tasks c) tid = Some p ->
  halted c = true -> opening q = false ->
  idle c x -> bounded c (setTask tid q x).
Proof.
  intros N Hc Q (T & O & H). split; [exact (H Hc)|].
  unfold openings. cbn [setTask withTasks tasks trace]. rewrite T, O.
  pose proof (openings_setNth (tasks c) tid p q N) as L. rewrite Q in L.
  destruct (opening p); lia.
Qed.

(** The activation was about to request a tab and has requested it. *)
Lemma bounded_created (tid : nat) (p q : pc) (e : effect) (c x : Config) :
  nth_error (tasks c) tid = Some p ->
  halted c = true -> opening p = true -> opening q = false ->
  length (opened [e]) <= 1 ->
  idle (emit e c) x -> bounded c (setTask tid q x).
Proof.
  intros N Hc P Q E (T & O & H). split.
  - apply H. exact Hc.
  - unfold openings. cbn [setTask withTasks tasks trace]. rewrite T, O.
    cbn [emit tasks trace]. rewrite opened_app, length_app.
    pose proof (openings_setNth (tasks c) tid p q N) as L.
    rewrite P, Q in L. lia.
Qed.

Lemma bounded_afterQueue (tid : nat) (p : pc) (c x : Config) :
  nth_error (tasks c) tid = Some p -> halted c = true ->
  idle c x -> bounded c (afterQueue tid x).
Proof.
  intros N Hc I. unfold afterQueue.
  destruct (isRunning (st x) && negb (isPaused (st x))
            && (pagesProcessed (st x) <? maxPages (st x))%Z);
    (eapply bounded_setTask; [exact N|exact Hc|reflexivity|idle]).
Qed.

Lemma bounded_pageFailure (tid : nat) (p : pc) (msg : string) (c x : Config) :
  nth_error (tasks c) tid = Some p -> halted c = true ->
  idle c x -> bounded c (pageFailure tid msg x).
Proof.
  intros N Hc I. unfold pageFailure.
  eapply bounded_setTask; [exact N|exact Hc|reflexivity|idle].
Qed.

Lemma bounded_paginationFailure (tid : nat) (p : pc) (msg : string)
      (c x : Config) :
  nth_error (tasks c) tid = Some p -> halted c = true ->
  idle c x -> bounded c (paginationFailure tid msg x).
Proof.
  intros N Hc I. unfold paginationFailure.
  eapply bounded_setTask; [exact N|exact Hc|reflexivity|idle].
Qed.

Lemma bounded_companyFailure (tid : nat) (p : pc) (o : owner) (i : nat)
      (u msg : string) (c x : Config) :
  nth_error (tasks c) tid = Some p -> halted c = true ->
  idle c x -> bounded c (companyFailure tid o i u msg x).
Proof.
  intros N Hc I. unfold companyFailure.
  eapply bounded_setTask; [exact N|exact Hc|reflexivity|idle].
Qed.

Lemma bounded_loopExit (tid : nat) (p : pc) (o : owner) (c x : Config) :
  nth_error (tasks c) tid = Some p -> halted c = true ->
  idle c x -> bounded c (loopExit tid o x).
Proof.
  intros N Hc I. destruct o; cbn [loopExit].
  - eapply bounded_afterQueue; eassumption.
  - eapply bounded_setTask; [exact N|exact Hc|reflexivity|idle].
Qed.

(** A halted loop takes up no item. *)
Lemma bounded_onTick (tid : nat) (p : pc) (o : owner) (i : nat) (c : Config) :
  nth_error (tasks c) tid = Some p -> halted c = true ->
  bounded c (onTick tid o i c).
Proof.
  intros N Hc. unfold onTick.
  destruct (nth_error (companyQueue (st c)) i) as [u|];
    [|eapply bounded_loopExit; [exact N|exact Hc|idle]].
  unfold halted in Hc. rewrite Hc.
  eapply bounded_loopExit; [exact N|exact Hc|idle].
Qed.

Lemma bounded_same (c : Config) : halted c = true -> bounded c c.
Proof. intros H. split; [exact H|lia]. Qed.

Lemma bounded_deliver (tid : nat) (i : input) (c : Config) :
  halted c = true -> bounded c (deliver tid i c).
Proof.
  intros Hc. unfold deliver.
  destruct (nth_error (tasks c) tid) as [p|] eqn:N;
    [|apply bounded_same; exact Hc].
  destruct p as [|fresh|o k|o k u|o k u t| | |], i as [r| |r|r|r|r];
    try (apply bounded_same; exact Hc).
  - unfold onUrls. destruct r as [error| |[|l ls]].
    + eapply bounded_pageFailure; [exact N|exact Hc|idle].
    + eapply bounded_pageFailure; [exact N|exact Hc|idle].
    + eapply bounded_afterQueue; [exact N|exact Hc|idle].
    + destruct (prefilter _ _) as [[fresh skipped]|e].
      * eapply bounded_setTask; [exact N|exact Hc|reflexivity|].
        destruct skipped; idle.
      * eapply bounded_pageFailure; [exact N|exact Hc|idle].
  - unfold onSaved. destruct (0 <? fresh)%nat.
    + eapply bounded_onTick; [exact N|exact Hc].
    + eapply bounded_afterQueue; [exact N|exact Hc|idle].
  - eapply bounded_onTick; [exact N|exact Hc].
  - unfold onCreate. destruct r as [tab|msg].
    + eapply (bounded_created tid _ _ (TabsCreate (aboutUrl u)));
        [exact N|exact Hc|reflexivity|reflexivity|cbn [opened length]; lia
        |idle].
    + unfold companyFailure.
      eapply (bounded_created tid _ _ (TabsCreate (aboutUrl u)));
        [exact N|exact Hc|reflexivity|reflexivity|cbn [opened length]; lia
        |idle].
  - unfold onDetail. destruct r as [msg| |data rm].
    + eapply bounded_companyFailure; [exact N|exact Hc|idle].
    + eapply bounded_companyFailure; [exact N|exact Hc|idle].
    + destruct (Store.saveCompanyData data (storage c)) as [[added s']|e].
      * destruct rm as [msg|].
        -- eapply bounded_companyFailure; [exact N|exact Hc|].
           destruct added; idle.
        -- eapply bounded_setTask; [exact N|exact Hc|reflexivity|].
           destruct added; idle.
      * eapply bounded_companyFailure; [exact N|exact Hc|idle].
  - unfold onClick. destruct r as [msg| |].
    + eapply bounded_paginationFailure; [exact N|exact Hc|idle].
    + destruct ((length (companyQueue (st c)) =? 0)%nat
                && (processedCompanies (st c) =? 0)%Z).
      * eapply bounded_paginationFailure; [exact N|exact Hc|idle].
      * eapply bounded_setTask; [exact N|exact Hc|reflexivity|idle].
    + eapply bounded_setTask; [exact N|exact Hc|reflexivity|idle].
  - unfold onNav. destruct r as [|msg].
    + unfold enterPage. unfold halted in Hc. rewrite Hc.
      eapply bounded_setTask; [exact N|exact Hc|reflexivity|idle].
    + eapply bounded_paginationFailure; [exact N|exact Hc|idle].
Qed.

Lemma bounded_idle (c x : Config) :
  halted c = true -> idle c x -> bounded c x.
Proof.
  intros Hc (T & O & H). split; [exact (H Hc)|].
  unfold openings. rewrite T, O. lia.
Qed.

Lemma bounded_step (c : Config) (e : event) :
  noRestart [e] = true -> halted c = true -> bounded c (step c e).
Proof.
  intros R Hc. destruct e as [tab ok n p0| | | |l| |tid i]; try discriminate;
    cbn [step].
  - apply bounded_idle; [exact Hc|]. unfold pauseScraping.
    apply idle_emit; [reflexivity|]. apply idle_saveState.
    apply idle_withSt; [|apply idle_refl].
    intros s _. cbn. apply orb_true_r.
  - apply bounded_idle; [exact Hc|]. unfold stopScraping.
    apply idle_emit; [reflexivity|]. apply idle_saveState.
    apply idle_closeActiveTab. apply idle_withSt; [flags|apply idle_refl].
  - apply bounded_idle; [exact Hc|]. idle.
  - apply bounded_idle; [exact Hc|]. idle.
  - apply bounded_deliver. exact Hc.
Qed.

End HaltFacts.

Module HaltTheorems.

Import Coordinator Run HaltFacts.

(** X12.  Once a run is stopped, has ended or is paused, no further item
    is taken up: whatever happens next, short of a new start or a resume,
    the run stays halted and the only detail tabs still requested are
    those of activations that were already about to request theirs. *)
Theorem halted_run_opens_no_tab (c : Config) (es : list event) :
  halted c = true ->
  noRestart es = true ->
  halted (run c es) = true
  /\ length (opened (trace (run c es)))
     <= length (opened (trace c)) + openings c.
Proof.
  revert c. induction es as [|e es IH]; intros c Hc R.
  - split; [exact Hc|cbn; lia].
  - assert (Re : noRestart [e] = true /\ noRestart es = true).
    { destruct e; cbn in R |- *; try discriminate; auto. }
    destruct Re as [Re Res].
    destruct (bounded_step c e Re Hc) as (H1 & B1).
    change (run c (e :: es)) with (run (step c e) es).
    destruct (IH (step c e) H1 Res) as (H2 & B2).
    split; [exact H2|]. unfold openings in *. lia.
Qed.

Lemma halted_run_opens_no_tab_witness :
  Run.halted (Coordinator.stopScraping Examples.opening) = true
  /\ Run.noRestart Samples.afterStop = true
  /\ Run.openings (Coordinator.stopScraping Examples.opening) = 1
  /\ length
       (Coordinator.opened
          (Coordinator.trace
             (Coordinator.run (Coordinator.stopScraping Examples.opening)
                              Samples.afterStop)))
     <= length
          (Coordinator.opened
             (Coordinator.trace (Coordinator.stopScraping Examples.opening)))
        + Run.openings (Coordinator.stopScraping Examples.opening).
Proof.
  split; [reflexivity|]. split; [reflexivity|]. split; [reflexivity|].
  exact (proj2 (HaltTheorems.halted_run_opens_no_tab
                  (Coordinator.stopScraping Examples.opening)
                  Samples.afterStop eq_refl eq_refl)).
Defined.

End HaltTheorems.

(* ================================================================= *)
(** ** Spacing of requests *)

Module SpacingTheorems.

Local Open Scope Z_scope.

(** X13.  [RateLimiter.wait] spaces the requests: when the timer does not
    fire early, the time recorded for this request is at least the
    sampled delay after the time recorded for the previous one, and the
    wait itself never lasts longer than the sampled delay.  [execute]
    calls its function after such a wait, and on a throttled limiter it
    raises without waiting and without touching the limiter. *)
Theorem rateLimiter_spaces_requests
        (A : Type) (r : RateLimiter.t) (delay now after : Z)
        (fn : completion A) :
  now + Z.max 0 (RateLimiter.actualDelay r delay now) <= after ->
  RateLimiter.lastRequestTime r <= now ->
  0 <= delay ->
  delay <= RateLimiter.lastRequestTime
             (fst (RateLimiter.wait r delay now after))
           - RateLimiter.lastRequestTime r
  /\ 0 <= snd (RateLimiter.wait r delay now after) <= delay
  /\ Throttle.execute r delay now after fn
     = (if RateLimiter.isThrottled r
        then (r, Throw "Rate limiter is throttled. Please wait.")
        else (fst (RateLimiter.wait r delay now after), fn)).
Proof.
  intros T L D. unfold RateLimiter.wait, RateLimiter.actualDelay in *.
  cbn [fst snd RateLimiter.lastRequestTime].
  destruct (now - RateLimiter.lastRequestTime r <? delay) eqn:E.
  - apply Z.ltb_lt in E. repeat split; try lia.
  - apply Z.ltb_ge in E. repeat split; try lia.
Qed.

Lemma rateLimiter_spaces_requests_witness :
  (1000 + Z.max 0 (RateLimiter.actualDelay RateLimiter.create 7000 1000)
   <= 7000)%Z
  /\ (7000 <= RateLimiter.lastRequestTime
                (fst (RateLimiter.wait RateLimiter.create 7000 1000 7000))
              - RateLimiter.lastRequestTime RateLimiter.create)%Z.
Proof.
  split; [cbn; lia|].
  refine (proj1 (SpacingTheorems.rateLimiter_spaces_requests
                   unit RateLimiter.create 7000 1000 7000 (Return tt)
                   _ _ _)); cbn; lia.
Defined.

(** X14.  [waitWithRateLimit] of the coordinator spaces the visits in the
    same way, and waits at least as long as [RateLimiter.wait] would on
    the same readings. *)
Theorem waitWithRateLimit_spaces_visits
        (r : Coordinator.Limiter) (delay now after : Z) :
  now + Z.max 0 (Coordinator.actualDelay r delay now) <= after ->
  0 <= delay ->
  delay <= Coordinator.lastRequestTime
             (fst (Coordinator.waitWithRateLimit r delay now after))
           - Coordinator.lastRequestTime r
  /\ RateLimiter.actualDelay
       (RateLimiter.mk (Coordinator.minDelay r) (Coordinator.maxDelay r)
                       (Coordinator.lastRequestTime r) false) delay now
     <= snd (Coordinator.waitWithRateLimit r delay now after).
Proof.
  intros T D.
  unfold Coordinator.waitWithRateLimit, Coordinator.actualDelay,
    RateLimiter.actualDelay in *.
  cbn [fst snd Coordinator.lastRequestTime RateLimiter.lastRequestTime].
  destruct (now - Coordinator.lastRequestTime r <? delay) eqn:E.
  - apply Z.ltb_lt in E. repeat split; lia.
  - apply Z.ltb_ge in E. repeat split; lia.
Qed.

Lemma waitWithRateLimit_spaces_visits_witness :
  (9000 + Z.max 0 (Coordinator.actualDelay
                     Coordinator.initialLimiter 7000 9000) <= 11000)%Z
  /\ (7000 <= Coordinator.lastRequestTime
                (fst (Coordinator.waitWithRateLimit
                        Coordinator.initialLimiter 7000 9000 11000))
              - Coordinator.lastRequestTime Coordinator.initialLimiter)%Z.
Proof.
  split; [cbn; lia|].
  refine (proj1 (SpacingTheorems.waitWithRateLimit_spaces_visits
                   Coordinator.initialLimiter 7000 9000 11000 _ _));
    cbn; lia.
Defined.

End SpacingTheorems.

(* ================================================================= *)
(** ** The starting page *)

Module PageNumberTheorems.

Import PageNumber.

Local Open Scope Z_scope.

Lemma accepted_positive (n : option Z) (k : Z) :
  accepted n = Some k -> 0 < k /\ n = Some k.
Proof.
  destruct n as [m|]; [|discriminate]. cbn.
  destruct (0 <? m) eqn:E; [|discriminate].
  intros H. injection H as <-. apply Z.ltb_lt in E. auto.
Qed.

Lemma extractPageNumberFromUrl_string
      (pageParam : string -> completion (option string)) (u : string) :
  let n := extractPageNumberFromUrl pageParam (VString u) in
  1 <= n
  /\ (forall msg, pageParam u = Throw msg -> n = 1)
  /\ (n = 1
      \/ (exists p, pageParam u = Return (Some p) /\ parseInt p = Some n)
      \/ (exists g, pageMatch u = Some g /\ parseInt g = Some n)).
Proof.
  cbv zeta. unfold extractPageNumberFromUrl. cbn [truthy isString negb orb].
  rewrite orb_false_r.
  destruct (u =? "")%string; cbn [negb]; [repeat split; try lia; auto|].
  destruct (pageParam u) as [param|msg]; [|repeat split; try lia; auto].
  assert (F : forall k,
             match param with
             | Some p => if (p =? "")%string then None
                         else accepted (parseInt p)
             | None => None
             end = Some k ->
             0 < k /\ exists p, param = Some p /\ parseInt p = Some k).
  { intros k H. destruct param as [p|]; [|discriminate].
    destruct (p =? "")%string; [discriminate|].
    apply accepted_positive in H as [Pos V]. split; [exact Pos|].
    exists p. auto. }
  destruct (match param with
            | Some p => if (p =? "")%string then None
                        else accepted (parseInt p)
            | None => None
            end) as [k|].
  - destruct (F k eq_refl) as (Pos & p & -> & V).
    split; [lia|]. split; [discriminate|]. right. left. exists p. auto.
  - clear F. destruct (pageMatch u) as [g|];
      [|split; [lia|split; [discriminate|auto]]].
    destruct (accepted (parseInt g)) as [k|] eqn:A;
      [|split; [lia|split; [discriminate|auto]]].
    apply accepted_positive in A as [Pos V].
    split; [lia|]. split; [discriminate|]. right. right. exists g. auto.
Qed.

(** X15.  The starting page is a page number: whatever the URL and
    whatever the URL parser answers, [extractPageNumberFromUrl] returns
    at least 1; it returns 1 for a value that is not a string and for a
    string that is not a URL, and otherwise its result is 1, the page
    parameter, or the number of the first [page=] it finds in the text. *)
Theorem extractPageNumberFromUrl_positive
        (pageParam : string -> completion (option string))
        (url : value) (u : string) :
  1 <= extractPageNumberFromUrl pageParam url
  /\ (isString url = false -> extractPageNumberFromUrl pageParam url = 1)
  /\ (forall msg, pageParam u = Throw msg ->
                  extractPageNumberFromUrl pageParam (VString u) = 1)
  /\ (extractPageNumberFromUrl pageParam (VString u) = 1
      \/ (exists p, pageParam u = Return (Some p)
                    /\ parseInt p
                       = Some (extractPageNumberFromUrl pageParam (VString u)))
      \/ (exists g, pageMatch u = Some g
                    /\ parseInt g
                       = Some (extractPageNumberFromUrl
                                 pageParam (VString u)))).
Proof.
  destruct (extractPageNumberFromUrl_string pageParam u) as (_ & T & R).
  split; [|split; [|split; [exact T|exact R]]].
  - destruct url as [| |b|k|s];
      try (unfold extractPageNumberFromUrl; cbn [truthy isString negb orb];
           rewrite ?orb_true_r; lia).
    apply extractPageNumberFromUrl_string.
  - destruct url as [| |b|k|s]; try discriminate; intros _;
      unfold extractPageNumberFromUrl; cbn [truthy isString negb orb];
      rewrite ?orb_true_r; reflexivity.
Qed.

Lemma extractPageNumberFromUrl_positive_witness :
  PageNumber.extractPageNumberFromUrl
    (fun _ => Return None)
    (VString Samples.pagedUrl)
  = 12%Z
  /\ (1 <= PageNumber.extractPageNumberFromUrl
             (fun _ => Return None)
             (VString Samples.pagedUrl))%Z.
Proof.
  split; [reflexivity|].
  exact (proj1 (PageNumberTheorems.extractPageNumberFromUrl_positive
                  (fun _ => Return None)
                  (VString Samples.pagedUrl)
                  "")).
Defined.

End PageNumberTheorems.

(* ================================================================= *)
(** ** Summary of a collection and the storage manager *)

Module SummaryFacts.

Import ExportManager.

Lemma strictEq_eq (a b : value) : strictEq a b = true <-> a = b.
Proof.
  destruct a as [| |x|x|x], b as [| |y|y|y]; cbn;
    try (split; [discriminate|intros H; discriminate]);
    try (split; reflexivity).
  - rewrite Bool.eqb_true_iff. split; [intros ->; reflexivity|].
    intros H. injection H as ->. reflexivity.
  - rewrite Z.eqb_eq. split; [intros ->; reflexivity|].
    intros H. injection H as ->. reflexivity.
  - rewrite String.eqb_eq. split; [intros ->; reflexivity|].
    intros H. injection H as ->. reflexivity.
Qed.

Lemma existsb_strictEq (v : value) (l : list value) :
  existsb (strictEq v) l = true <-> In v l.
Proof.
  rewrite existsb_exists. split.
  - intros (x & I & E). apply strictEq_eq in E. subst x. exact I.
  - intros I. exists v. split; [exact I|]. apply strictEq_eq. reflexivity.
Qed.

(** A [Set] built from an array: no element twice, as many elements as
    the array has when, and only when, the array has no element twice. *)
Lemma newSet_from (values set : list value) :
  NoDup set ->
  NoDup (fold_left add values set)
  /\ length (fold_left add values set) <= length set + length values
  /\ (length (fold_left add values set) = length set + length values
      <-> NoDup (set ++ values)).
Proof.
  revert set. induction values as [|v values IH]; intros set N.
  - cbn. rewrite app_nil_r, Nat.add_0_r. repeat split; auto.
  - cbn [fold_left length]. unfold add at 2 4 6.
    destruct (existsb (strictEq v) set) eqn:E.
    + apply existsb_strictEq in E.
      destruct (IH set N) as (A & B & C). split; [exact A|].
      split; [lia|]. split; [lia|].
      intros D. exfalso. apply NoDup_remove_2 in D. apply D.
      apply in_or_app. left. exact E.
    + assert (Nv : ~ In v set).
      { intros I. apply existsb_strictEq in I. congruence. }
      assert (N' : NoDup (set ++ [v])).
      { apply NoDup_app; [exact N|repeat constructor; auto|].
        intros x Hx [<-|[]]. exact (Nv Hx). }
      destruct (IH (set ++ [v])%list N') as (A & B & C).
      rewrite length_app in B, C. cbn [length] in B, C.
      rewrite <- app_assoc in C. cbn [app] in C.
      split; [exact A|]. split; [lia|].
      rewrite <- C. lia.
Qed.

End SummaryFacts.

Module SummaryTheorems.

Import ExportManager SummaryFacts.

(** X16.  [getSummary] counts within the collection: the records with a
    website, with an industry and the distinct URLs are each at most
    [total], and [unique] equals [total] exactly when no two records have
    the same URL. *)
Theorem getSummary_counts (companies : list Company) :
  let s := getSummary companies in
  total s = length companies
  /\ withWebsite s <= total s
  /\ withIndustry s <= total s
  /\ unique s <= total s
  /\ (unique s = total s <-> NoDup (map url companies)).
Proof.
  cbv zeta. unfold getSummary. cbn [total withWebsite withIndustry unique].
  destruct (newSet_from (map url companies) [] (NoDup_nil _)) as (_ & B & C).
  cbn [length app] in B, C. rewrite length_map in B, C.
  repeat split; try apply filter_length_le; try exact B; apply C.
Qed.

End SummaryTheorems.

Module StorageManagerTheorems.

Import ExportManager SummaryFacts StorageManager.

Lemma existsb_sameUrlOrName (company : Company) (cs : list Company) :
  existsb (sameUrlOrName company) cs = false ->
  ~ In (url company) (map url cs) /\ ~ In (name company) (map name cs).
Proof.
  intros E. split; intros I; apply in_map_iff in I as (c & Ec & Ic);
    assert (T : existsb (sameUrlOrName company) cs = true);
    try congruence; apply existsb_exists; exists c; (split; [exact Ic|]);
    unfold sameUrlOrName; rewrite Ec;
    rewrite (proj2 (strictEq_eq _ _) eq_refl), ?orb_true_r; reflexivity.
Qed.

Lemma NoDup_snoc {A} (l : list A) (x : A) :
  NoDup l -> ~ In x l -> NoDup (l ++ [x]).
Proof.
  intros N I. apply NoDup_app; [exact N|repeat constructor; auto|].
  intros y Hy [<-|[]]. exact (I Hy).
Qed.

Lemma addCompany_distinct (company : Company) (now : string) (s : Storage) :
  distinct s -> distinct (fst (addCompany company now s)).
Proof.
  intros [U N]. unfold addCompany.
  destruct (existsb (sameUrlOrName company) (getCompanies s)) eqn:E;
    [split; assumption|].
  apply existsb_sameUrlOrName in E as [Eu En].
  unfold distinct.
  cbn [fst saveCompanies getCompanies linkedin_scraper_data].
  rewrite !map_app. cbn [map stamped url name].
  split; apply NoDup_snoc; assumption.
Qed.

(** X17.  A collection built by [addCompany] alone, from a cleared
    storage, never holds two records with the same URL or with the same
    name, and holds at most one record per call; and adding a record that
    was just added changes nothing, whatever the time stamps. *)
Theorem addCompany_keeps_records_distinct
        (adds : list (Company * string)) (s : Storage)
        (company : Company) (t1 t2 : string) :
  let built := addAll adds (clearCompanies s) in
  NoDup (map url (getCompanies built))
  /\ NoDup (map name (getCompanies built))
  /\ length (getCompanies built) <= length adds
  /\ snd (addCompany company t1 s)
     = length (getCompanies (fst (addCompany company t1 s)))
  /\ addCompany company t2 (fst (addCompany company t1 s))
     = (fst (addCompany company t1 s), snd (addCompany company t1 s)).
Proof.
  cbv zeta.
  assert (G : forall adds s0,
             distinct s0 ->
             distinct (addAll adds s0)
             /\ length (getCompanies (addAll adds s0))
                <= length (getCompanies s0) + length adds).
  { clear. induction adds as [|[c t] adds IH]; intros s0 D.
    - cbn. split; [exact D|lia].
    - cbn [addAll fold_left fst snd length].
      destruct (IH (fst (addCompany c t s0)) (addCompany_distinct c t s0 D))
        as (D' & L).
      split; [exact D'|].
      unfold addAll in L.
      assert (L1 : length (getCompanies (fst (addCompany c t s0)))
                   <= S (length (getCompanies s0))).
      { unfold addCompany.
        destruct (existsb (sameUrlOrName c) (getCompanies s0)).
        - cbn [fst]. lia.
        - cbn [fst saveCompanies getCompanies linkedin_scraper_data].
          rewrite length_app. cbn. lia. }
      lia. }
  destruct (G adds (clearCompanies s)) as ([U N] & L).
  { split; constructor. }
  split; [exact U|]. split; [exact N|]. split; [exact L|].
  unfold addCompany.
  destruct (existsb (sameUrlOrName company) (getCompanies s)) eqn:E.
  - cbn [fst snd]. rewrite E. split; reflexivity.
  - cbn [fst snd saveCompanies getCompanies linkedin_scraper_data].
    split; [reflexivity|].
    rewrite existsb_app. cbn [existsb].
    unfold sameUrlOrName at 2. cbn [stamped url].
    rewrite (proj2 (strictEq_eq _ _) eq_refl). cbn [orb].
    rewrite orb_true_r. reflexivity.
Qed.

End StorageManagerTheorems.

(* ================================================================= *)
(** ** Waiting for a tab *)

Module TabsTheorems.

Import Tabs.

Local Open Scope Z_scope.

Lemma waitForTabLoad_paced (period startTime timeout : Z)
      (polls : list (observation * Z)) (t0 : Z) :
  polls <> [] ->
  paced period t0 polls = true ->
  timeout < t0 - startTime + period * (Z.of_nat (length polls) - 1) ->
  exists r, waitForTabLoad startTime timeout polls = Some r.
Proof.
  revert t0. induction polls as [|[o now] rest IH]; intros t0 NE P T;
    [contradiction|].
  cbn [paced] in P. apply andb_prop in P as [P0 P]. apply Z.leb_le in P0.
  cbn [waitForTabLoad].
  destruct o as [msg|u [|]]; try (eexists; reflexivity).
  destruct (timeout <? now - startTime) eqn:E; [eexists; reflexivity|].
  apply Z.ltb_ge in E.
  destruct rest as [|q rest'].
  - cbn [length] in T. lia.
  - apply (IH (t0 + period)); [discriminate|exact P|].
    cbn [length] in T |- *. lia.
Qed.

Lemma waitForTabNavigation_paced (initialUrl : string)
      (period startTime timeout : Z)
      (polls : list (observation * Z)) (t0 : Z) :
  polls <> [] ->
  paced period t0 polls = true ->
  timeout < t0 - startTime + period * (Z.of_nat (length polls) - 1) ->
  exists r, waitForTabNavigation initialUrl startTime timeout polls = Some r.
Proof.
  revert t0. induction polls as [|[o now] rest IH]; intros t0 NE P T;
    [contradiction|].
  cbn [paced] in P. apply andb_prop in P as [P0 P]. apply Z.leb_le in P0.
  cbn [waitForTabNavigation].
  destruct o as [msg|u done]; [eexists; reflexivity|].
  destruct (negb (u =? initialUrl)%string && Str.includes "linkedin.com" u);
    [eexists; reflexivity|].
  destruct (timeout <? now - startTime) eqn:E; [eexists; reflexivity|].
  apply Z.ltb_ge in E.
  destruct rest as [|q rest'].
  - cbn [length] in T. lia.
  - apply (IH (t0 + period)); [discriminate|exact P|].
    cbn [length] in T |- *. lia.
Qed.

Lemma waitForTabLoad_resolves (startTime timeout : Z)
      (polls : list (observation * Z)) :
  waitForTabLoad startTime timeout polls = Some (Return tt) ->
  exists u now, In (TabAt u true, now) polls.
Proof.
  induction polls as [|[o now] rest IH]; [discriminate|].
  cbn [waitForTabLoad]. destruct o as [msg|u [|]]; try discriminate.
  - intros _. exists u, now. left. reflexivity.
  - destruct (timeout <? now - startTime); [discriminate|].
    intros H. destruct (IH H) as (u' & n' & I). exists u', n'. right. exact I.
Qed.

Lemma waitForTabNavigation_rejects (initialUrl : string)
      (startTime timeout : Z) (polls : list (observation * Z)) (msg : string) :
  waitForTabNavigation initialUrl startTime timeout polls = Some (Throw msg) ->
  exists now, In (TabMissing msg, now) polls.
Proof.
  induction polls as [|[o now] rest IH]; [discriminate|].
  cbn [waitForTabNavigation]. destruct o as [m|u done].
  - intros H. injection H as ->. exists now. left. reflexivity.
  - destruct (negb (u =? initialUrl)%string && Str.includes "linkedin.com" u);
      [discriminate|].
    destruct (timeout <? now - startTime); [discriminate|].
    intros H. destruct (IH H) as (n' & I). exists n'. right. exact I.
Qed.

(** X18.  The two waits on a tab end: when the polls are made at least
    [period] milliseconds apart, a wait that has made more than
    [timeout / period + 1] polls has settled.  [waitForTabLoad] resolves
    only on a poll that saw the tab complete, and [waitForTabNavigation]
    rejects only when the tab is gone: its timeout resolves. *)
Theorem tab_waits_settle
        (initialUrl : string) (period startTime timeout : Z)
        (polls : list (observation * Z)) :
  0 < period -> 0 <= timeout ->
  paced period startTime polls = true ->
  timeout < period * (Z.of_nat (length polls) - 1) ->
  (exists r, waitForTabLoad startTime timeout polls = Some r)
  /\ (exists r,
        waitForTabNavigation initialUrl startTime timeout polls = Some r)
  /\ (waitForTabLoad startTime timeout polls = Some (Return tt) ->
      exists u now, In (TabAt u true, now) polls)
  /\ (forall msg,
        waitForTabNavigation initialUrl startTime timeout polls
        = Some (Throw msg) ->
        exists now, In (TabMissing msg, now) polls).
Proof.
  intros Pp Pt P T.
  assert (NE : polls <> []).
  { intros ->. cbn [length] in T. lia. }
  split; [|split; [|split]].
  - apply (waitForTabLoad_paced period startTime timeout polls startTime);
      [exact NE|exact P|lia].
  - apply (waitForTabNavigation_paced initialUrl period startTime timeout
                                      polls startTime);
      [exact NE|exact P|lia].
  - apply waitForTabLoad_resolves.
  - intros msg. apply waitForTabNavigation_rejects.
Qed.

Lemma tab_waits_settle_witness :
  Tabs.paced 500 0 Samples.slowTab = true
  /\ (1000 < 500 * (Z.of_nat (length Samples.slowTab) - 1))%Z
  /\ exists r, Tabs.waitForTabLoad 0 1000 Samples.slowTab = Some r.
Proof.
  split; [reflexivity|]. split; [cbn; lia|].
  refine (proj1 (TabsTheorems.tab_waits_settle
                   "https://www.linkedin.com/search/results/companies/"
                   500 0 1000 Samples.slowTab _ _ _ _));
    first [reflexivity | cbn; lia].
Defined.

End TabsTheorems.

(* ================================================================= *)
(** ** The matcher as a relation *)

Module MatcherTheorems.

Import Matcher Spec DuplicateTheorems.

Lemma urlMatch_sym (a b : Company) : urlMatch a b = urlMatch b a.
Proof.
  unfold urlMatch.
  destruct (normalizeUrl (url a)), (normalizeUrl (url b)); try reflexivity.
  apply String.eqb_sym.
Qed.

Lemma slugMatch_sym (a b : Company) : slugMatch a b = slugMatch b a.
Proof.
  unfold slugMatch.
  destruct (extractCompanySlug (url a)), (extractCompanySlug (url b));
    try reflexivity.
  rewrite String.eqb_sym.
  destruct (s0 =? s), (domainScoped (url a)), (domainScoped (url b));
    reflexivity.
Qed.

Lemma nameMatch_sym (a b : Company) : nameMatch a b = nameMatch b a.
Proof.
  unfold nameMatch.
  destruct (normalizedName a) as [x|], (normalizedName b) as [y|];
    try reflexivity.
  destruct (x =? y) eqn:E.
  - apply String.eqb_eq in E. subst y. rewrite String.eqb_refl. reflexivity.
  - rewrite String.eqb_sym, E. reflexivity.
Qed.

Lemma fuzzyMatch_sym (a b : Company) : fuzzyMatch a b = fuzzyMatch b a.
Proof.
  unfold fuzzyMatch.
  destruct (normalizedName a) as [x|], (normalizedName b) as [y|];
    try reflexivity.
  destruct (cleanName x =? cleanName y) eqn:E.
  - apply String.eqb_eq in E. rewrite E, String.eqb_refl. reflexivity.
  - rewrite String.eqb_sym, E. reflexivity.
Qed.

Lemma matches_sym (a b : Company) : matches a b = matches b a.
Proof.
  unfold matches.
  rewrite urlMatch_sym, slugMatch_sym, nameMatch_sym, fuzzyMatch_sym.
  reflexivity.
Qed.

Lemma isDuplicate_bool (c : Company) (cs : list Company) :
  nameTyped c = true -> forallb nameTyped cs = true ->
  isDuplicateCompany (Some c) cs = Return (existsb (matches c) cs).
Proof.
  intros Tc Tcs.
  destruct (isDuplicate_relational c cs Tc Tcs) as (b & -> & I).
  f_equal. destruct b.
  - symmetry. apply existsb_exists. apply I. reflexivity.
  - destruct (existsb (matches c) cs) eqn:E; [|reflexivity].
    apply existsb_exists in E. apply I in E. discriminate.
Qed.

(** X19.  Among records whose names are strings or missing, being a
    duplicate is symmetric, and whether a record is a duplicate of a
    collection depends on which records the collection holds, not on
    their order or number. *)
Theorem isDuplicate_symmetric
        (a b : Company) (cs cs' : list Company) :
  nameTyped a = true -> nameTyped b = true ->
  forallb nameTyped cs = true -> forallb nameTyped cs' = true ->
  (forall e, In e cs <-> In e cs') ->
  isDuplicateCompany (Some a) [b] = isDuplicateCompany (Some b) [a]
  /\ isDuplicateCompany (Some a) cs = isDuplicateCompany (Some a) cs'
  /\ SidePanel.isDuplicate [b] (Some a) = SidePanel.isDuplicate [a] (Some b).
Proof.
  intros Ta Tb Tcs Tcs' S.
  assert (Sym : isDuplicateCompany (Some a) [b]
                = isDuplicateCompany (Some b) [a]).
  { rewrite !isDuplicate_bool by (try assumption; cbn; rewrite ?Ta, ?Tb;
                                  reflexivity).
    cbn [existsb]. rewrite matches_sym. reflexivity. }
  split; [exact Sym|]. split.
  - rewrite !isDuplicate_bool by assumption. f_equal.
    destruct (existsb (matches a) cs) eqn:E.
    + symmetry. apply existsb_exists. apply existsb_exists in E.
      destruct E as (e & I & M). exists e. split; [apply S; exact I|exact M].
    + destruct (existsb (matches a) cs') eqn:E'; [|reflexivity].
      apply existsb_exists in E'. destruct E' as (e & I & M).
      assert (T : existsb (matches a) cs = true).
      { apply existsb_exists. exists e. split; [apply S; exact I|exact M]. }
      congruence.
  - rewrite !sidePanel_isDuplicate. exact Sym.
Qed.

Lemma isDuplicate_symmetric_witness :
  Spec.nameTyped (Examples.record "Acme" "") = true
  /\ Spec.nameTyped Examples.acme = true
  /\ Matcher.isDuplicateCompany (Some (Examples.record "Acme" ""))
                                [Examples.acme]
     = Matcher.isDuplicateCompany (Some Examples.acme)
                                  [Examples.record "Acme" ""].
Proof.
  split; [reflexivity|]. split; [reflexivity|].
  refine (proj1 (MatcherTheorems.isDuplicate_symmetric
                   (Examples.record "Acme" "") Examples.acme
                   [Examples.acme] [Examples.acme]
                   eq_refl eq_refl eq_refl eq_refl _)).
  intros e. split; intros H; exact H.
Defined.

End MatcherTheorems.

(* ================================================================= *)
(** ** The JSON import *)

Module JsonTheorems.

Import Csv Exchange Spec ImportFacts.

Lemma validateFrom_null (numberToString : Z -> string) (now : nat -> string)
      (raw : list (option Company)) (i : nat) :
  In None raw ->
  exists msg, validateFrom numberToString now i raw = Throw msg.
Proof.
  revert i. induction raw as [|[c|] raw IH]; intros i H.
  - destruct H.
  - destruct H as [H|H]; [discriminate|].
    cbn [validateFrom]. destruct (IH (S i) H) as (msg & ->).
    destruct (negb (truthy (name c)) && negb (truthy (url c)));
      cbn [bind]; eauto.
  - cbn. eauto.
Qed.

Lemma validateFrom_total (numberToString : Z -> string) (now : nat -> string)
      (raw : list (option Company)) (i : nat) :
  ~ In None raw ->
  exists validated,
    validateFrom numberToString now i raw = Return validated.
Proof.
  revert i. induction raw as [|[c|] raw IH]; intros i H.
  - cbn. eauto.
  - cbn [validateFrom].
    destruct (IH (S i)) as (v & ->); [intros I; apply H; right; exact I|].
    destruct (negb (truthy (name c)) && negb (truthy (url c)));
      cbn [bind]; eauto.
  - exfalso. apply H. left. reflexivity.
Qed.

(** X20.  How a JSON import ends, on a collection whose names are strings
    or missing.  An empty array imports nothing; a [null] entry makes the
    whole import fail before anything is stored; an array without record
    that has a name or a URL is refused; otherwise the import completes,
    [total] is the size of the array, [valid] the number of records with
    a name or a URL, and each of them is added or skipped.  The bare
    array and the exported object with its [companies] array are handled
    alike. *)
Theorem handleImportJSON_outcome
        (numberToString : Z -> string) (now : nat -> string)
        (companies : list Company) (s : Storage)
        (items : list (option Company)) :
  forallb nameTyped companies = true ->
  let r := handleImportJSON numberToString now companies s (JsonArray items) in
  let valid := length (filter (fun o => match o with
                                        | Some c => identified c
                                        | None => false
                                        end) items) in
  handleImportJSON numberToString now companies s (JsonWithCompanies items)
  = r
  /\ (items = [] -> r = (companies, s, NoCompanies))
  /\ (items <> [] -> In None items ->
      exists msg, r = (companies, s, ImportError msg))
  /\ (items <> [] -> ~ In None items -> valid = 0 ->
      r = (companies, s, NoValidCompanies))
  /\ (items <> [] -> ~ In None items -> 0 < valid ->
      exists new added skipped,
        r = ((companies ++ new)%list,
             Store.updateCompanies (companies ++ new)%list s,
             ImportComplete (length items) valid added skipped)
        /\ added = length new
        /\ added + skipped = valid).
Proof.
  intros T. cbv zeta. cbn [handleImportJSON].
  split; [reflexivity|]. unfold importRecords.
  split; [intros ->; reflexivity|].
  split; [|split].
  - intros NE N. destruct items as [|o os]; [contradiction|].
    unfold validateAndNormalizeCompanies.
    destruct (validateFrom_null numberToString now (o :: os) 0 N)
      as (msg & ->). eauto.
  - intros NE N V. destruct items as [|o os]; [contradiction|].
    unfold validateAndNormalizeCompanies.
    destruct (validateFrom_total numberToString now (o :: os) 0 N)
      as (validated & E). rewrite E.
    destruct (validateFrom_spec _ _ _ _ _ E) as (_ & L & _).
    rewrite V in L. destruct validated; [reflexivity|discriminate].
  - intros NE N V. destruct items as [|o os]; [contradiction|].
    unfold validateAndNormalizeCompanies.
    destruct (validateFrom_total numberToString now (o :: os) 0 N)
      as (validated & E). rewrite E.
    destruct (validateFrom_spec _ _ _ _ _ E) as (A & L & _).
    rewrite <- L in V |- *.
    assert (Tv : forallb nameTyped validated = true).
    { revert A. apply CsvRoundTrip.forallb_impl. apply allStrings_nameTyped. }
    destruct (importLoop_typed validated companies 0 0 T Tv)
      as (new & a' & k' & E' & Ea & Ek & _).
    destruct validated as [|v vs]; [cbn in V; lia|].
    exists new, a', k'. unfold SidePanel.importCompanies. rewrite E'.
    repeat split; lia.
Qed.

Lemma handleImportJSON_outcome_witness :
  forallb Spec.nameTyped [Examples.acme] = true
  /\ Csv.handleImportJSON Samples.noNumbers Samples.importTime
                          [Examples.acme] Examples.emptyStorage
                          (Csv.JsonWithCompanies Samples.rawRecords)
     = Csv.handleImportJSON Samples.noNumbers Samples.importTime
                            [Examples.acme] Examples.emptyStorage
                            (Csv.JsonArray Samples.rawRecords).
Proof.
  split; [reflexivity|].
  exact (proj1 (JsonTheorems.handleImportJSON_outcome
                  Samples.noNumbers Samples.importTime [Examples.acme]
                  Examples.emptyStorage Samples.rawRecords eq_refl)).
Defined.

End JsonTheorems.

(* ================================================================= *)
(** ** From a listing to the record of the visit *)

Module VisitFacts.

Import Str Spec Matcher UrlFacts UrlTheorems Extractor.

Lemma stripPrefix_sound (p s r : string) :
  stripPrefix p s = Some r -> s = p ++ r.
Proof.
  revert s. induction p as [|a p IH]; intros s; cbn [stripPrefix].
  - intros H. injection H as <-. reflexivity.
  - destruct s as [|b s]; [discriminate|].
    destruct (Ascii.eqb a b) eqn:E; [|discriminate].
    apply Ascii.eqb_eq in E. subst b. intros H.
    rewrite (IH _ H). reflexivity.
Qed.

(** A word without slash, followed by a slash, is not ["about/"] unless
    it is ["about"]. *)
Lemma about_after_slash (slug rest : string) :
  noSlash slug = true -> slug <> "about" ->
  stripPrefix "about/" (slug ++ String "/" rest) = None.
Proof.
  intros NS NA.
  destruct (stripPrefix "about/" (slug ++ String "/" rest)) as [r|] eqn:E;
    [|reflexivity].
  exfalso. apply NA. apply stripPrefix_sound in E.
  assert (U : untilSlash (slug ++ String "/" rest) = slug)
    by (apply untilSlash_app_sub; [exact NS|reflexivity]).
  rewrite E in U. cbn in U. symmetry. exact U.
Qed.

Lemma about_in_word (slug : string) :
  noSlash slug = true -> stripPrefix "about/" slug = None.
Proof.
  intros NS.
  destruct (stripPrefix "about/" slug) as [r|] eqn:E; [|reflexivity].
  apply stripPrefix_sound in E. subst slug. discriminate.
Qed.

Lemma startsWith_about (x : string) :
  startsWith "/about/" (String "/" x)
  = match stripPrefix "about/" x with
    | Some _ => true
    | None => false
    end.
Proof. reflexivity. Qed.

Lemma slashes_snoc (k : nat) : slashes (S k) = slashes k ++ "/".
Proof.
  induction k as [|k IH]; [reflexivity|]. cbn in *. rewrite <- IH.
  reflexivity.
Qed.

(** *** The word, its slashes and ["/about/"] *)

Lemma splitHeadAt_slashes (j : nat) :
  splitHeadAt "/about/" (slashes j ++ "/about/") = slashes j.
Proof.
  induction j as [|j IH]; [reflexivity|].
  change (slashes (S j) ++ "/about/")
    with (String "/" (slashes j ++ "/about/")).
  cbn [splitHeadAt].
  replace (startsWith "/about/" (String "/" (slashes j ++ "/about/")))
    with false.
  - rewrite IH. reflexivity.
  - destruct j; reflexivity.
Qed.

Lemma splitHeadAt_word (slug : string) (j : nat) :
  noSlash slug = true ->
  splitHeadAt "/about/" (slug ++ slashes j ++ "/about/") = slug ++ slashes j.
Proof.
  intros NS. induction slug as [|c slug IH]; [apply splitHeadAt_slashes|].
  cbn in NS. apply andb_prop in NS as [Nc NS]. apply negb_true_iff in Nc.
  change (String c slug ++ slashes j ++ "/about/")
    with (String c (slug ++ slashes j ++ "/about/")).
  cbn [splitHeadAt].
  replace (startsWith "/about/" (String c (slug ++ slashes j ++ "/about/")))
    with false.
  - rewrite (IH NS). reflexivity.
  - unfold startsWith. cbn [stripPrefix]. unfold isSlash in Nc.
    rewrite Ascii.eqb_sym, Nc. reflexivity.
Qed.

Lemma includes_slashes (k : nat) : includes "/about/" (slashes k) = false.
Proof.
  induction k as [|k IH]; [reflexivity|].
  cbn [slashes includes]. rewrite IH. destruct k; reflexivity.
Qed.

Lemma includes_word (slug : string) (k : nat) :
  noSlash slug = true -> includes "/about/" (slug ++ slashes k) = false.
Proof.
  intros NS. induction slug as [|c slug IH]; [apply includes_slashes|].
  cbn in NS. apply andb_prop in NS as [Nc NS]. apply negb_true_iff in Nc.
  change (String c slug ++ slashes k) with (String c (slug ++ slashes k)).
  cbn [includes]. rewrite (IH NS).
  unfold startsWith. cbn [stripPrefix]. unfold isSlash in Nc.
  rewrite Ascii.eqb_sym, Nc. reflexivity.
Qed.

Lemma replaceLastSlash_snoc (x : string) : replaceLastSlash (x ++ "/") = x.
Proof.
  induction x as [|c x IH]; [reflexivity|].
  change (String c x ++ "/") with (String c (x ++ "/")).
  cbn [replaceLastSlash]. rewrite IH.
  destruct x; reflexivity.
Qed.

Lemma replaceLastSlash_word (x slug : string) :
  slug <> "" -> noSlash slug = true -> replaceLastSlash (x ++ slug) = x ++ slug.
Proof.
  intros NE NS. induction x as [|c x IH]; cbn [append].
  - clear NE. induction slug as [|c slug IH]; [reflexivity|].
    cbn in NS. apply andb_prop in NS as [Nc NS]. apply negb_true_iff in Nc.
    cbn [replaceLastSlash]. rewrite (IH NS), Nc. destruct slug; reflexivity.
  - cbn [replaceLastSlash]. rewrite IH.
    destruct (x ++ slug) eqn:E; [|reflexivity].
    destruct x; [|discriminate]. cbn in E. contradiction.
Qed.

Lemma urlOf_linkHead (https www : bool) (slug : string) (k : nat) :
  urlOf https www ("linkedin.com/company/" ++ slug) k ""
  = linkHead https www ++ String "/" (slug ++ slashes k).
Proof.
  unfold urlOf, linkHead. rewrite append_nil_r.
  destruct https, www; cbn [append]; rewrite ?append_assoc; reflexivity.
Qed.

Lemma splitHeadAt_linkHead (https www : bool) (t : string) :
  splitHeadAt "/about/" (linkHead https www ++ t)
  = linkHead https www ++ splitHeadAt "/about/" t.
Proof. destruct https, www; reflexivity. Qed.

Lemma includes_linkHead (https www : bool) (t : string) :
  includes "/about/" (linkHead https www ++ t) = includes "/about/" t.
Proof. destruct https, www; reflexivity. Qed.

Lemma plain_linkHead (https www : bool) : plain (linkHead https www) = true.
Proof. destruct https, www; reflexivity. Qed.

Lemma splitHead_plain (x : string) :
  plain x = true -> splitHead "?" x = x.
Proof.
  intros P. induction x as [|c x IH]; [reflexivity|].
  cbn in P. apply andb_prop in P as [Pc Pr].
  destruct (plainChar_parts _ Pc) as (_ & E1 & _).
  cbn [splitHead]. rewrite E1, (IH Pr). reflexivity.
Qed.

(** The URL of the record, for the page that [processCompany] opens. *)
Lemma recordUrl_aboutUrl (https www : bool) (slug : string) (k : nat) :
  slug <> "" -> plain slug = true -> noSlash slug = true ->
  slug <> "about" ->
  recordUrl (Coordinator.aboutUrl
               (urlOf https www ("linkedin.com/company/" ++ slug) k ""))
  = urlOf https www ("linkedin.com/company/" ++ slug) (Nat.pred k) "".
Proof.
  intros NE P NS NA. rewrite !urlOf_linkHead.
  unfold Coordinator.aboutUrl.
  assert (I : includes "/about/"
                (linkHead https www ++ String "/" (slug ++ slashes k)) = false).
  { rewrite includes_linkHead. cbn [includes].
    rewrite (includes_word slug k NS).
    rewrite startsWith_about.
    destruct k as [|k].
    - cbn [slashes]. rewrite append_nil_r, (about_in_word slug NS).
      reflexivity.
    - cbn [slashes]. rewrite (about_after_slash slug _ NS NA). reflexivity. }
  rewrite I.
  assert (R : replaceLastSlash
                (linkHead https www ++ String "/" (slug ++ slashes k))
              = linkHead https www ++ String "/" (slug ++ slashes (Nat.pred k))).
  { destruct k as [|k].
    - cbn [slashes Nat.pred]. rewrite !append_nil_r.
      change (linkHead https www ++ String "/" slug)
        with (linkHead https www ++ "/" ++ slug).
      rewrite <- append_assoc. apply replaceLastSlash_word; assumption.
    - cbn [Nat.pred]. rewrite slashes_snoc.
      change (linkHead https www ++ String "/" (slug ++ slashes k ++ "/"))
        with (linkHead https www ++ "/" ++ slug ++ slashes k ++ "/").
      rewrite <- !append_assoc. rewrite replaceLastSlash_snoc.
      rewrite !append_assoc. reflexivity. }
  rewrite R. unfold recordUrl.
  rewrite splitHead_plain.
  - rewrite append_assoc, splitHeadAt_linkHead.
    change (String "/" (slug ++ slashes (Nat.pred k)) ++ "/about/")
      with (String "/" ((slug ++ slashes (Nat.pred k)) ++ "/about/")).
    rewrite (append_assoc slug).
    cbn [splitHeadAt].
    replace (startsWith "/about/"
               (String "/" (slug ++ slashes (Nat.pred k) ++ "/about/")))
      with false.
    + rewrite (splitHeadAt_word slug _ NS). reflexivity.
    + rewrite startsWith_about.
      destruct (Nat.pred k) as [|j].
      * cbn [slashes append].
        rewrite (about_after_slash slug "about/" NS NA). reflexivity.
      * cbn [slashes append].
        rewrite (about_after_slash slug _ NS NA). reflexivity.
  - rewrite !plain_app, plain_linkHead. cbn [plain]. rewrite !plain_app, P,
      plain_slashes. reflexivity.
Qed.

End VisitFacts.

Module VisitTheorems.

Import Str Spec Matcher UrlFacts UrlTheorems Extractor VisitFacts.

(** X21.  A company that was visited is recognized when it is listed
    again.  Take a listing link to a company page (either protocol, with
    or without ["www."], any number of trailing slashes) whose slug is not
    ["about"]: the record extracted from the page that [processCompany]
    opens for it keeps the link without its last slash as URL, this URL
    normalizes like the link, and once the record is stored the link is a
    duplicate, so the next listing of the company is skipped. *)
Theorem visited_company_is_recognized
        (https www : bool) (slug : string) (k : nat) (linkName : string)
        (data : Company) (cs : list Company) :
  slug <> "" -> plain slug = true -> noSlash slug = true ->
  slug <> "about" ->
  let link := urlOf https www ("linkedin.com/company/" ++ slug) k "" in
  url data = VString (recordUrl (Coordinator.aboutUrl link)) ->
  nameTyped data = true -> forallb nameTyped cs = true ->
  recordUrl (Coordinator.aboutUrl link)
  = urlOf https www ("linkedin.com/company/" ++ slug) (Nat.pred k) ""
  /\ normalizeUrl (url data)
     = Some ("linkedin.com/company/" ++ toLowerCase slug)
  /\ normalizeUrl (VString link)
     = Some ("linkedin.com/company/" ++ toLowerCase slug)
  /\ isDuplicateCompany
       (Some (Coordinator.candidate link linkName)) (cs ++ [data])
     = Return true.
Proof.
  intros NE P NS NA link U Td Tcs.
  assert (R := recordUrl_aboutUrl https www slug k NE P NS NA).
  fold link in R.
  assert (N : forall j,
             normalizeUrl
               (VString (urlOf https www ("linkedin.com/company/" ++ slug)
                               j ""))
             = Some ("linkedin.com/company/" ++ toLowerCase slug)).
  { intros j. rewrite normalizeUrl_urlOf.
    - rewrite canonicalize_match, toLowerCase_app.
      change (toLowerCase "linkedin.com/company/")
        with "linkedin.com/company/".
      rewrite <- (append_nil_r (toLowerCase slug)) at 1.
      rewrite matchCompany_detail;
        [reflexivity| |rewrite noSlash_toLowerCase; exact NS|reflexivity].
      destruct slug; [contradiction|discriminate].
    - rewrite plain_app, P. reflexivity.
    - rewrite toLowerCase_app. reflexivity.
    - reflexivity. }
  split; [exact R|]. split; [rewrite U, R; apply N|].
  split; [apply N|].
  rewrite MatcherTheorems.isDuplicate_bool.
  - f_equal. rewrite existsb_app. cbn [existsb].
    assert (M : matches (Coordinator.candidate link linkName) data = true).
    { apply DuplicateTheorems.matches_intro. left. unfold urlMatch.
      cbn [Coordinator.candidate url]. unfold link at 1.
      rewrite (N k), U, R, (N (Nat.pred k)). apply String.eqb_refl. }
    rewrite M. rewrite !orb_true_r. reflexivity.
  - unfold nameTyped. cbn [Coordinator.candidate name].
    destruct (ImportTheorems.normalizeName_string linkName) as (o & ->).
    reflexivity.
  - rewrite forallb_app, Tcs. cbn. rewrite Td. reflexivity.
Qed.

Lemma visited_company_is_recognized_witness :
  Spec.plain "Acme-Corp" = true
  /\ Spec.noSlash "Acme-Corp" = true
  /\ url Samples.visited
     = VString (Extractor.recordUrl
                  (Coordinator.aboutUrl
                     (Spec.urlOf true true "linkedin.com/company/Acme-Corp"
                                 1 "")))
  /\ Matcher.isDuplicateCompany
       (Some (Coordinator.candidate
                (Spec.urlOf true true "linkedin.com/company/Acme-Corp" 1 "")
                "Acme"))
       ([Examples.sentinelOnly] ++ [Samples.visited])
     = Return true.
Proof.
  split; [reflexivity|]. split; [reflexivity|]. split; [reflexivity|].
  refine (proj2 (proj2 (proj2
            (VisitTheorems.visited_company_is_recognized
               true true "Acme-Corp" 1 "Acme" Samples.visited
               [Examples.sentinelOnly] _ eq_refl eq_refl _
               eq_refl eq_refl eq_refl))));
    discriminate.
Defined.

End VisitTheorems.

(* ================================================================= *)
(** ** The queue of a page and the counters of a run *)

Module ProgressFacts.

Import Coordinator Run Spec.

Lemma candidate_typed (u n : string) : nameTyped (candidate u n) = true.
Proof.
  unfold nameTyped. cbn [candidate name].
  destruct (ImportTheorems.normalizeName_string n) as (o & ->). reflexivity.
Qed.

(** The pre-filter on a collection whose names are strings or missing. *)
Lemma prefilter_known (existing : list Company) (links : list Link) :
  forallb nameTyped existing = true ->
  prefilter existing links
  = Return (filter (fun l => negb (known existing l)) links,
            filter (known existing) links).
Proof.
  intros T. induction links as [|l links IH]; [reflexivity|].
  cbn [prefilter filter].
  rewrite (MatcherTheorems.isDuplicate_bool _ _ (candidate_typed _ _) T).
  cbn [bind]. rewrite IH. cbn [bind fst snd]. fold (known existing l).
  destruct (known existing l); reflexivity.
Qed.

Lemma advanced_refl (s : State) : advanced s s.
Proof.
  repeat split; try lia. exists []. symmetry. apply app_nil_r.
Qed.

Lemma advanced_trans (a b c : State) :
  advanced a b -> advanced b c -> advanced a c.
Proof.
  intros (A1 & A2 & A3 & l1 & E1) (B1 & B2 & B3 & l2 & E2).
  repeat split; try lia. exists (l1 ++ l2)%list.
  rewrite E2, E1, app_assoc. reflexivity.
Qed.

Lemma onward_refl (c : Config) : onward c c.
Proof. apply advanced_refl. Qed.

Lemma onward_withSt (f : State -> State) (c x : Config) :
  (forall s, advanced s (f s)) -> onward c x -> onward c (withSt f x).
Proof.
  intros F H. unfold onward. cbn [withSt st].
  eapply advanced_trans; [exact H|apply F].
Qed.

Lemma onward_keep (c x y : Config) : st y = st x -> onward c x -> onward c y.
Proof. unfold onward. intros ->. auto. Qed.

Lemma onward_closeActiveTab (c x : Config) :
  onward c x -> onward c (closeActiveTab x).
Proof.
  apply onward_keep. apply CoordinatorFacts.st_closeActiveTab.
Qed.

Ltac counters :=
  let s := fresh "s" in
  intros s; unfold advanced; cbn; repeat split; try lia;
  first [ exists []; symmetry; apply app_nil_r
        | eexists; reflexivity ].

Lemma onward_completeScraping (c x : Config) :
  onward c x -> onward c (completeScraping x).
Proof.
  intros H. unfold completeScraping.
  apply (onward_keep c (closeActiveTab (withSt (setFlags false false) x)));
    [reflexivity|].
  apply onward_closeActiveTab. apply onward_withSt; [counters|exact H].
Qed.

Ltac onward :=
  repeat lazymatch goal with
    | H : onward ?c ?x |- onward ?c ?x => exact H
    | |- onward ?c ?c => apply onward_refl
    | |- onward _ (notifyUI _ ?x) => apply (onward_keep _ x); [reflexivity|]
    | |- onward _ (emit _ ?x) => apply (onward_keep _ x); [reflexivity|]
    | |- onward _ (saveState ?x) => apply (onward_keep _ x); [reflexivity|]
    | |- onward _ (withStorage _ ?x) => apply (onward_keep _ x); [reflexivity|]
    | |- onward _ (withActiveTab _ ?x) =>
        apply (onward_keep _ x); [reflexivity|]
    | |- onward _ (withTasks _ ?x) => apply (onward_keep _ x); [reflexivity|]
    | |- onward _ (setTask _ _ ?x) => apply (onward_keep _ x); [reflexivity|]
    | |- onward _ (spawn _ ?x) => apply (onward_keep _ x); [reflexivity|]
    | |- onward _ (closeActiveTab _) => apply onward_closeActiveTab
    | |- onward _ (completeScraping _) => apply onward_completeScraping
    | |- onward _ (withSt _ _) => apply onward_withSt; [counters|]
    end.

Lemma onward_afterQueue (tid : nat) (c x : Config) :
  onward c x -> onward c (afterQueue tid x).
Proof.
  intros H. unfold afterQueue.
  destruct (isRunning (st x) && negb (isPaused (st x))
            && (pagesProcessed (st x) <? maxPages (st x))%Z); onward.
Qed.

Lemma onward_loopExit (tid : nat) (o : owner) (c x : Config) :
  onward c x -> onward c (loopExit tid o x).
Proof.
  intros H. destruct o; cbn [loopExit];
    [apply onward_afterQueue; exact H|onward].
Qed.

Lemma onward_loopThrow (tid : nat) (o : owner) (msg : string) (c x : Config) :
  onward c x -> onward c (loopThrow tid o msg x).
Proof.
  intros H. destruct o; cbn [loopThrow]; [unfold pageFailure|]; onward.
Qed.

Lemma onward_onTick (tid : nat) (o : owner) (i : nat) (c : Config) :
  onward c (onTick tid o i c).
Proof.
  unfold onTick.
  destruct (nth_error (companyQueue (st c)) i) as [u|];
    [|apply onward_loopExit; onward].
  destruct (negb (isRunning (st c)) || isPaused (st c));
    [apply onward_loopExit; onward|].
  destruct (Matcher.isDuplicateCompany _ _) as [[|]|e].
  - onward.
  - onward.
  - apply onward_loopThrow. onward.
Qed.

Lemma onward_deliver (tid : nat) (i : input) (c : Config) :
  onward c (deliver tid i c).
Proof.
  unfold deliver.
  destruct (nth_error (tasks c) tid) as [[|fresh|o k|o k u|o k u t| | |]|];
    destruct i as [r| |r|r|r|r]; try apply onward_refl.
  - unfold onUrls. destruct r as [error| |[|l ls]].
    + unfold pageFailure. onward.
    + unfold pageFailure. onward.
    + apply onward_afterQueue. onward.
    + destruct (prefilter _ _) as [[fresh skipped]|e].
      * destruct skipped; onward.
      * unfold pageFailure. onward.
  - unfold onSaved. destruct (0 <? fresh)%nat.
    + apply onward_onTick.
    + apply onward_afterQueue. onward.
  - apply onward_onTick.
  - unfold onCreate. destruct r as [tab|msg]; [|unfold companyFailure];
      onward.
  - unfold onDetail. destruct r as [msg| |data rm];
      try (unfold companyFailure; onward; fail).
    destruct (Store.saveCompanyData data (storage c)) as [[added s']|e].
    + destruct rm as [msg|]; [unfold companyFailure|];
        destruct added; onward.
    + unfold companyFailure. onward.
  - unfold onClick. destruct r as [msg| |].
    + unfold paginationFailure. onward.
    + destruct ((length (companyQueue (st c)) =? 0)%nat
                && (processedCompanies (st c) =? 0)%Z);
        [unfold paginationFailure|]; onward.
    + onward.
  - unfold onNav. destruct r as [|msg].
    + unfold enterPage.
      destruct (negb (isRunning (st c)) || isPaused (st c)); onward.
    + unfold paginationFailure. onward.
Qed.

Lemma onward_step (c : Config) (e : event) :
  noStart [e] = true -> onward c (step c e).
Proof.
  intros N. destruct e as [tab ok n p0| | | |l| |tid i]; try discriminate;
    cbn [step].
  - unfold pauseScraping. onward.
  - unfold resumeScraping.
    match goal with
    | |- onward _ (if ?b then _ else _) => destruct b
    end; onward.
  - unfold stopScraping.
    apply (onward_keep c (closeActiveTab (withSt (setFlags false false) c)));
      [reflexivity|].
    onward.
  - onward.
  - onward.
  - apply onward_deliver.
Qed.

End ProgressFacts.

Module ProgressTheorems.

Import Coordinator Run Spec ProgressFacts.

(** X22.  The queue of a listing page holds the links that are new, in
    the order of the listing: on a collection whose names are strings or
    missing, the pre-filter of [processCurrentPage] returns, splits the
    links into those that no stored record matches and the others without
    losing any, and the page's turn leaves the URLs of the former in the
    queue, adds the number of all links to [totalCompaniesFound] and goes
    on to save its state. *)
Theorem page_queue_holds_new_links
        (c : Config) (tid : nat) (l : Link) (ls : list Link) :
  forallb nameTyped (Store.getCompanies (storage c)) = true ->
  nth_error (tasks c) tid = Some AwaitUrls ->
  let existing := Store.getCompanies (storage c) in
  let links := l :: ls in
  let fresh := filter (fun x => negb (known existing x)) links in
  let c' := step c (Deliver tid (InUrls (UrlsOk links))) in
  prefilter existing links = Return (fresh, filter (known existing) links)
  /\ length fresh + length (filter (known existing) links) = length links
  /\ companyQueue (st c') = map linkUrl fresh
  /\ totalCompaniesFound (st c')
     = (totalCompaniesFound (st c) + Z.of_nat (length links))%Z
  /\ nth_error (tasks c') tid = Some (AwaitSaved (length fresh)).
Proof.
  intros T N. cbv zeta.
  pose proof (prefilter_known _ (l :: ls) T) as P.
  split; [exact P|]. split.
  - clear. induction (l :: ls) as [|x xs IH]; [reflexivity|].
    cbn [filter]. destruct (known _ x); cbn [negb length]; lia.
  - cbn [step]. unfold deliver. rewrite N. unfold onUrls. rewrite P.
    split; [|split].
    + destruct (filter (known _) (l :: ls)); reflexivity.
    + destruct (filter (known _) (l :: ls)); reflexivity.
    + destruct (filter (known _) (l :: ls));
        cbn [setTask saveState withStorage withTasks notifyUI emit withSt
             tasks]; apply CoordinatorFacts.nth_error_setNth with AwaitUrls;
        exact N.
Qed.

Lemma page_queue_holds_new_links_witness :
  forallb Spec.nameTyped (Store.getCompanies Examples.knownAC) = true
  /\ companyQueue
       (Coordinator.st
          (Coordinator.step
             (Coordinator.run (Coordinator.initial Examples.knownAC)
                              [Coordinator.Start 7 true 5 1])
             (Coordinator.Deliver
                0 (Coordinator.InUrls
                     (Coordinator.UrlsOk
                        [Examples.linkA; Examples.linkB; Examples.linkC])))))
     = map Coordinator.linkUrl
           (filter (fun x => negb (Run.known
                                     (Store.getCompanies Examples.knownAC) x))
                   [Examples.linkA; Examples.linkB; Examples.linkC]).
Proof.
  split; [reflexivity|].
  exact (proj1 (proj2 (proj2
           (ProgressTheorems.page_queue_holds_new_links
              (Coordinator.run (Coordinator.initial Examples.knownAC)
                               [Coordinator.Start 7 true 5 1])
              0 Examples.linkA [Examples.linkB; Examples.linkC]
              eq_refl eq_refl)))).
Defined.

(** X23.  Within a run (no new start) the record of the run only moves
    forward: whatever the events, [processedCompanies],
    [totalCompaniesFound] and [currentPage] never decrease and every
    error recorded stays recorded, in its place. *)
Theorem run_counters_only_advance (c : Config) (es : list event) :
  noStart es = true ->
  (processedCompanies (st c) <= processedCompanies (st (run c es)))%Z
  /\ (totalCompaniesFound (st c) <= totalCompaniesFound (st (run c es)))%Z
  /\ (currentPage (st c) <= currentPage (st (run c es)))%Z
  /\ exists later, errors (st (run c es)) = (errors (st c) ++ later)%list.
Proof.
  intros N. change (advanced (st c) (st (run c es))).
  revert c N. induction es as [|e es IH]; intros c N; [apply advanced_refl|].
  assert (Ne : noStart [e] = true /\ noStart es = true).
  { destruct e; cbn in N |- *; try discriminate; auto. }
  destruct Ne as [Ne Nes].
  change (run c (e :: es)) with (run (step c e) es).
  eapply advanced_trans; [exact (onward_step c e Ne)|apply IH; exact Nes].
Qed.

Lemma run_counters_only_advance_witness :
  Spec.noStart Samples.afterStop = true
  /\ (processedCompanies (Coordinator.st Examples.opening)
      <= processedCompanies
           (Coordinator.st
              (Coordinator.run Examples.opening Samples.afterStop)))%Z.
Proof.
  split; [reflexivity|].
  exact (proj1 (ProgressTheorems.run_counters_only_advance
                  Examples.opening Samples.afterStop eq_refl)).
Defined.

End ProgressTheorems.

(* ================================================================= *)
(** ** The gate keeps equivalent records out of the collection *)

Module GateFacts.

Import Matcher Spec Gate MatcherFacts DuplicateFacts DuplicateTheorems.
Import StoreTheorems ImportFacts MatcherTheorems.

(** The matcher normalizes the candidate's name before anything else, so
    a check that returns was made on a name that is a string or missing. *)
Lemma isDuplicate_typed (r : Company) (l : list Company) (b : bool) :
  isDuplicateCompany (Some r) l = Return b -> nameTyped r = true.
Proof.
  unfold isDuplicateCompany, isDuplicateBody, nameTyped.
  destruct (normalizeName (name r)); [reflexivity|discriminate].
Qed.

Lemma find_none {A} (f : A -> completion bool) (l : list A) :
  JS.find f l = Return None ->
  forall x, In x l -> f x = Return false.
Proof.
  induction l as [|y r IH]; cbn [JS.find]; intros H x Hx; [destruct Hx|].
  destruct (f y) as [[|]|e] eqn:E; try discriminate.
  destruct Hx as [<-|Hx]; [exact E|]. apply IH; assumption.
Qed.

Lemma not_true_false (b : bool) : b <> true -> b = false.
Proof. destruct b; [intros H; exfalso; apply H; reflexivity|reflexivity]. Qed.

(** A check that answers [false] has met no record that the candidate
    matches, whatever the names in the collection are. *)
Lemma isDuplicate_false_apart (c : Company) (cs : list Company) :
  isDuplicateCompany (Some c) cs = Return false ->
  forall e, In e cs -> matches c e = false.
Proof.
  unfold isDuplicateCompany, isDuplicateBody.
  destruct (normalizeName (name c)) as [cn|] eqn:N; [|discriminate].
  cbn [bind]. intros H e He.
  assert (U : urlMatch c e = false /\ slugMatch c e = false).
  { destruct (normalizeUrl (url c)) as [cu|] eqn:U.
    - rewrite (eqb_nonempty _ (normalizeUrl_nonempty _ _ U)) in H.
      destruct (JS.find (matchesByUrl extractCompanySlug cu
                           (extractCompanySlug (url c))) cs)
        as [[x|]|err] eqn:F; cbn [bind found] in H; try discriminate.
      pose proof (find_none _ _ F e He) as Fe.
      pose proof (matchesByUrl_spec c e cu U) as S.
      split; apply not_true_false; intros M;
        assert (T : matchesByUrl extractCompanySlug cu
                      (extractCompanySlug (url c)) e = Return true)
          by (apply S; auto);
        rewrite Fe in T; discriminate.
    - split.
      + unfold urlMatch. rewrite U. reflexivity.
      + unfold slugMatch. rewrite (extractCompanySlug_null _ U). reflexivity. }
  destruct U as [U1 U2].
  assert (M : nameMatch c e = false /\ fuzzyMatch c e = false).
  { destruct cn as [n|].
    - destruct (n =? "") eqn:Q.
      + apply String.eqb_eq in Q. subst n.
        apply no_name_no_match. right. unfold normalizedName.
        rewrite N. reflexivity.
      + assert (F : JS.find (matchesByName n) cs = Return None).
        { destruct (match normalizeUrl (url c) with
                    | Some cu =>
                        if cu =? "" then Return None
                        else JS.find (matchesByUrl extractCompanySlug cu
                                        (extractCompanySlug (url c))) cs
                    | None => Return None
                    end) as [[x|]|err]; cbn [bind found] in H;
            try discriminate.
          destruct (match extractCompanySlug (url c) with
                    | Some slug =>
                        if slug =? "" then Return None
                        else JS.find (matchesBySlug extractCompanySlug slug) cs
                    | None => Return None
                    end) as [[x|]|err]; cbn [bind found] in H;
            try discriminate.
          destruct (JS.find (matchesByName n) cs) as [[x|]|err];
            cbn [bind found] in H; try discriminate. reflexivity. }
        pose proof (find_none _ _ F e He) as Fe.
        assert (T : nameTyped e = true).
        { unfold nameTyped. unfold matchesByName in Fe.
          destruct (normalizeName (name e)); [reflexivity|discriminate]. }
        assert (NE : n <> "") by (apply String.eqb_neq; exact Q).
        pose proof (matchesByName_spec c e n N NE T) as S.
        split; apply not_true_false; intros K;
          assert (R : matchesByName n e = Return true) by (apply S; auto);
          rewrite Fe in R; discriminate.
    - apply no_name_no_match. left. unfold normalizedName.
      rewrite N. reflexivity. }
  destruct M as [M1 M2].
  unfold matches. rewrite U1, U2, M1, M2. reflexivity.
Qed.

Lemma gated_all (cs : list Company) : gated (length cs) cs.
Proof.
  intros pre r post E L. exfalso. subst cs.
  rewrite length_app in L. cbn [length] in L. lia.
Qed.

Lemma gated_snoc (n : nat) (cs : list Company) (x : Company) :
  gated n cs ->
  isDuplicateCompany (Some x) cs = Return false ->
  gated n (cs ++ [x]).
Proof.
  intros G D pre r post E L.
  destruct post as [|y post'] using rev_ind.
  - apply app_inj_tail in E as [-> ->]. exact D.
  - clear IHpost'.
    change (pre ++ r :: post' ++ [y])%list
      with (pre ++ (r :: post') ++ [y])%list in E.
    rewrite app_assoc in E. apply app_inj_tail in E as [E _].
    apply (G pre r post'); assumption.
Qed.

Lemma gated_importLoop (n : nat) (batch cs : list Company) (a k : nat) :
  gated n cs -> gated n (fst (SidePanel.importLoop cs batch a k)).
Proof.
  revert cs a k. induction batch as [|x batch IH]; intros cs a k G;
    cbn [SidePanel.importLoop]; [exact G|].
  rewrite sidePanel_isDuplicate.
  destruct (isDuplicateCompany (Some x) cs) as [[|]|e] eqn:D.
  - apply IH. exact G.
  - apply IH. apply gated_snoc; assumption.
  - exact G.
Qed.

Lemma gated_insert (n : nat) (cs : list Company) (i : insertion) :
  gated n cs -> gated n (insert cs i).
Proof.
  intros G. destruct i as [c|batch]; cbn [insert].
  - unfold Store.saveCompanyData.
    change (Store.getCompanies (mkStorage (Some cs) None)) with cs.
    destruct (isDuplicateCompany (Some c) cs) as [[|]|e] eqn:D;
      cbn [bind]; try exact G.
    cbn [Store.getCompanies Store.setCompanies linkedin_scraper_data].
    apply gated_snoc; assumption.
  - apply gated_importLoop. exact G.
Qed.

Lemma gated_insertAll (n : nat) (l : list insertion) (cs : list Company) :
  gated n cs -> gated n (insertAll cs l).
Proof.
  unfold insertAll. revert cs. induction l as [|i l IH]; intros cs G;
    cbn [fold_left]; [exact G|].
  apply IH. apply gated_insert. exact G.
Qed.

(** The records that passed the gate have names that are strings or
    missing. *)
Lemma gated_typed (before new : list Company) :
  forallb nameTyped before = true ->
  gated (length before) (before ++ new) ->
  forallb nameTyped (before ++ new) = true.
Proof.
  intros T. induction new as [|x new IH] using rev_ind; intros G.
  - rewrite app_nil_r. exact T.
  - rewrite app_assoc. apply forallb_app_true.
    + apply IH. intros pre r post E L.
      apply (G pre r (post ++ [x])%list); [|exact L].
      rewrite app_assoc, E, <- app_assoc. reflexivity.
    + cbn [forallb]. rewrite andb_true_r.
      apply (isDuplicate_typed x (before ++ new) false).
      apply (G (before ++ new)%list x []).
      * apply app_assoc.
      * rewrite length_app. lia.
Qed.

(** Records that passed the gate are equivalent to none before them. *)
Lemma gated_apart (n : nat) (cs : list Company) :
  gated n cs -> apartFrom n cs.
Proof.
  intros G i j a b Lt Le Ha Hb.
  destruct (nth_error_split cs j Hb) as (pre & post & E & Lj).
  assert (D : isDuplicateCompany (Some b) pre = Return false).
  { apply (G pre b post); [exact E|lia]. }
  assert (Ia : In a pre).
  { apply (nth_error_In pre i). rewrite E in Ha.
    rewrite nth_error_app1 in Ha by lia. exact Ha. }
  unfold equivalent.
  rewrite (matches_sym a b), (isDuplicate_false_apart b pre D a Ia).
  reflexivity.
Qed.

(** A record with an identity is matched by itself. *)
Lemma hasIdentity_self (r : Company) :
  hasIdentity r = true -> equivalent r r = true.
Proof.
  unfold hasIdentity, equivalent, matches, urlMatch, nameMatch. intros I.
  destruct (normalizeUrl (url r)) as [u|].
  - rewrite String.eqb_refl. reflexivity.
  - destruct (normalizedName r) as [n|]; [|discriminate].
    rewrite String.eqb_refl, I. cbn. rewrite !orb_true_r. reflexivity.
Qed.

Lemma gated_self (n : nat) (cs : list Company) (r : Company) :
  gated n cs ->
  (exists pre post, cs = (pre ++ r :: post)%list /\ n <= length pre) ->
  hasIdentity r = true ->
  isDuplicateCompany (Some r) cs = Return true.
Proof.
  intros G (pre & post & -> & L) I.
  apply self_match_after_insertion; [|exact I].
  apply (G pre r post); [reflexivity|exact L].
Qed.

(** The check of a record that is equivalent to a record of the
    collection does not answer [false]. *)
Lemma equivalent_not_new (cs : list Company) (e c : Company) :
  In c cs -> equivalent e c = true ->
  isDuplicateCompany (Some e) cs <> Return false.
Proof.
  intros Ic Q D. unfold equivalent in Q.
  rewrite (matches_sym c e), orb_diag in Q.
  rewrite (isDuplicate_false_apart e cs D c Ic) in Q. discriminate.
Qed.

(** What the gate does with a record whose check does not answer
    [false]: nothing is stored. *)
Lemma not_new_refused (cs : list Company) (e : Company) :
  isDuplicateCompany (Some e) cs <> Return false ->
  insert cs (BySave e) = cs
  /\ insert cs (ByImport [e]) = cs
  /\ (forall s b s',
        Store.getCompanies s = cs ->
        Store.saveCompanyData e s = Return (b, s') -> b = false /\ s' = s).
Proof.
  intros D. split; [|split].
  - cbn [insert]. unfold Store.saveCompanyData.
    cbn [Store.getCompanies linkedin_scraper_data].
    destruct (isDuplicateCompany (Some e) cs) as [[|]|err];
      cbn [bind]; try reflexivity.
    exfalso. apply D. reflexivity.
  - cbn [insert SidePanel.importLoop]. rewrite sidePanel_isDuplicate.
    destruct (isDuplicateCompany (Some e) cs) as [[|]|err];
      try reflexivity.
    exfalso. apply D. reflexivity.
  - intros s b s' <-. unfold Store.saveCompanyData.
    destruct (isDuplicateCompany (Some e) (Store.getCompanies s))
      as [[|]|err]; cbn [bind]; intros H.
    + injection H as <- <-. split; reflexivity.
    + exfalso. apply D. reflexivity.
    + discriminate.
Qed.

Lemma equivalent_duplicate (cs : list Company) (e c : Company) :
  forallb nameTyped cs = true -> nameTyped e = true ->
  In c cs -> equivalent e c = true ->
  isDuplicateCompany (Some e) cs = Return true.
Proof.
  intros T Te Ic Q. rewrite (isDuplicate_bool e cs Te T). f_equal.
  apply existsb_exists. exists c. split; [exact Ic|].
  unfold equivalent in Q. rewrite (matches_sym c e), orb_diag in Q. exact Q.
Qed.

End GateFacts.

Module GateTheorems.

Import Matcher Spec Gate MatcherFacts DuplicateFacts DuplicateTheorems.
Import StoreTheorems GateFacts.

(** C1 (as amended).  Gated insertions, by the service worker and by the
    side panel alike, only append to the collection, and what they append
    keeps the collection free of equivalent records.  No appended record
    is equivalent to a record standing before it.  An appended record
    that carries an identity (a URL that normalizes, or a normalized name
    that is neither empty nor ["n/a"]) is equivalent to itself and is
    reported as a duplicate by every check against the collection from
    then on.  And a record that is equivalent to a record of the
    collection is refused by [saveCompanyData] and by [importCompanies]:
    nothing is stored, and the check answers [true] when the names are
    strings or missing.  The list [later] is any sequence of insertions,
    so the collection is taken at any later time. *)
Theorem gated_store_keeps_records_apart
        (before : list Company) (later : list Spec.insertion) :
  let cs := Spec.insertAll before later in
  exists new,
    cs = (before ++ new)%list
    /\ Gate.apartFrom (length before) cs
    /\ (forall r,
          In r new -> Spec.hasIdentity r = true ->
          Gate.equivalent r r = true
          /\ Matcher.isDuplicateCompany (Some r) cs = Return true
          /\ SidePanel.isDuplicate cs (Some r) = Return true)
    /\ (forall e c,
          In c cs -> Gate.equivalent e c = true ->
          Spec.insert cs (Spec.BySave e) = cs
          /\ Spec.insert cs (Spec.ByImport [e]) = cs
          /\ (forall s b s',
                Store.getCompanies s = cs ->
                Store.saveCompanyData e s = Return (b, s') ->
                b = false /\ s' = s)
          /\ (Spec.nameTyped e = true ->
              forallb Spec.nameTyped before = true ->
              Matcher.isDuplicateCompany (Some e) cs = Return true
              /\ SidePanel.isDuplicate cs (Some e) = Return true)).
Proof.
  intros cs.
  destruct (insertAll_appends later before) as (new & E).
  assert (G : gated (length before) cs)
    by (apply gated_insertAll, gated_all).
  fold cs in E. exists new. split; [exact E|].
  split; [apply gated_apart; exact G|]. split.
  - intros r Ir I. split; [apply hasIdentity_self; exact I|].
    assert (D : isDuplicateCompany (Some r) cs = Return true).
    { apply (gated_self (length before)); [exact G| |exact I].
      apply in_split in Ir as (n1 & n2 & ->).
      exists (before ++ n1)%list, n2. split.
      - rewrite E, <- app_assoc. reflexivity.
      - rewrite length_app. lia. }
    split; [exact D|]. rewrite sidePanel_isDuplicate. exact D.
  - intros e c Ic Q.
    destruct (not_new_refused cs e (equivalent_not_new cs e c Ic Q))
      as (R1 & R2 & R3).
    split; [exact R1|]. split; [exact R2|]. split; [exact R3|].
    intros Te Tb.
    assert (T : forallb nameTyped cs = true).
    { rewrite E. apply gated_typed; [exact Tb|]. rewrite <- E. exact G. }
    assert (D : isDuplicateCompany (Some e) cs = Return true)
      by (apply (equivalent_duplicate cs e c); auto).
    split; [exact D|]. rewrite sidePanel_isDuplicate. exact D.
Qed.

Lemma gated_store_keeps_records_apart_witness :
  Spec.insertAll [Examples.sentinelOnly]
    [Spec.BySave Examples.acme;
     Spec.ByImport [Examples.record "Acme" "";
                    Examples.record "Other" "https://other.example/"]]
  = [Examples.sentinelOnly; Examples.acme;
     Examples.record "Other" "https://other.example/"]
  /\ Spec.hasIdentity Examples.acme = true
  /\ Gate.equivalent (Examples.record "Acme" "") Examples.acme = true
  /\ Spec.nameTyped (Examples.record "Acme" "") = true
  /\ forallb Spec.nameTyped [Examples.sentinelOnly] = true
  /\ Gate.apartFrom 1 [Examples.sentinelOnly; Examples.acme;
                       Examples.record "Other" "https://other.example/"]
  /\ Matcher.isDuplicateCompany
       (Some (Examples.record "Acme" ""))
       [Examples.sentinelOnly; Examples.acme;
        Examples.record "Other" "https://other.example/"]
     = Return true.
Proof.
  split; [reflexivity|]. split; [reflexivity|]. split; [reflexivity|].
  split; [reflexivity|]. split; [reflexivity|].
  destruct (gated_store_keeps_records_apart
              [Examples.sentinelOnly]
              [Spec.BySave Examples.acme;
               Spec.ByImport [Examples.record "Acme" "";
                              Examples.record "Other" "https://other.example/"]])
    as (new & E & A & _ & R).
  split; [exact A|].
  exact (proj1 (proj2 (proj2 (proj2
           (R (Examples.record "Acme" "") Examples.acme
              (or_intror (or_introl eq_refl)) eq_refl)))
           eq_refl eq_refl)).
Defined.

End GateTheorems.
